(** * nextPFF: domain probing pipeline and history reconciler

    A shallow embedding of

    - [server/cron/whoisChecker.ts]   (modules [Cron], [CronUnits] and
      [CronInput]),
    - [scripts/scan-domains.mjs], the revision with the two-scheme
      website prober (modules [Script], [ScriptUnits] and [ScriptInput]),
    - [scripts/scan-domains.mjs], the revision that maintains
      [history.json] (modules [History] and [Classifier]),

    followed by the properties of the registration prober, the website
    prober, the scan loop and the history reconciler. *)

From Stdlib Require Import ZArith List String Ascii Bool Lia.
From stdpp Require Import base option list gmap strings pretty fin_maps.
Import ListNotations.

Local Open Scope Z_scope.

(** ** JavaScript values the probers handle *)

(** A thrown value: every exception the probers can meet is an [Error]
    object (fetch rejects with a [TypeError] or an [AbortError]
    [DOMException]); only [name] and [message] are ever inspected. *)
Record JsError := mkError { name : string; message : string }.

Inductive Method := HEAD | GET.

Inductive Protocol := https | http.

Definition protoString (p : Protocol) : string :=
  match p with https => "https" | http => "http" end.

(** The arguments of one [fetchWithTimeout] call. *)
Record Request := mkRequest { url : string; method : Method; timeoutMs : Z }.

Module Response.
(** The only field of a fetch [Response] that the probers read. *)
Record t := mk { status : Z }.
End Response.

(** How one fetch ends: the promise resolves with a response, or rejects
    (network error, or the abort fired by the timeout timer). *)
Inductive Outcome :=
| Responds (r : Response.t)
| Rejects (e : JsError).

Inductive IOEvent :=
| EvFetch (r : Request)
| EvSleep (ms : Z).

(** ** The world the probers run in

    [net] answers the [n]-th fetch of the run, [clock] the [n]-th reading
    of [new Date()] (milliseconds since the epoch); [trace] records the
    requests sent and the delays slept, oldest first. *)
Record World := mkWorld {
  net : nat -> Request -> Outcome;
  clock : nat -> Z;
  nfetch : nat;
  nclock : nat;
  trace : list IOEvent
}.

Inductive Res (A : Type) :=
| Val (a : A)
| Throw (e : JsError).
Arguments Val {A} a.
Arguments Throw {A} e.

(** An [async] computation: state passing over the world, with
    exceptions. *)
Definition IO (A : Type) : Type := World -> Res A * World.

Definition ret {A} (a : A) : IO A := fun w => (Val a, w).

Definition bind {A B} (c : IO A) (k : A -> IO B) : IO B :=
  fun w => match c w with
           | (Val a, w') => k a w'
           | (Throw e, w') => (Throw e, w')
           end.

(** [try { c } catch (e) { h e }] *)
Definition try_catch {A} (c : IO A) (h : JsError -> IO A) : IO A :=
  fun w => match c w with
           | (Val a, w') => (Val a, w')
           | (Throw e, w') => h e w'
           end.

(** [throw e] *)
Definition throw {A} (e : JsError) : IO A := fun w => (Throw e, w).

Notation "'let*' x ':=' c 'in' k" := (bind c (fun x => k))
  (at level 10, x name, c at level 100, k at level 200).
Notation "c ';;' k" := (bind c (fun _ => k))
  (at level 100, k at level 200, right associativity).

Definition sent (w : World) (r : Request) : World :=
  mkWorld (net w) (clock w) (S (nfetch w)) (nclock w) (trace w ++ [EvFetch r]).

Definition slept (w : World) (ms : Z) : World :=
  mkWorld (net w) (clock w) (nfetch w) (nclock w) (trace w ++ [EvSleep ms]).

Definition ticked (w : World) : World :=
  mkWorld (net w) (clock w) (nfetch w) (S (nclock w)) (trace w).

(** The answer the next fetch will get. *)
Definition answer (w : World) (r : Request) : Outcome := net w (nfetch w) r.

(** [await fetch(url, { method, redirect: 'follow', signal })], the timer
    of [fetchWithTimeout] included: an abort shows as a rejection whose
    [name] is ["AbortError"]. *)
Definition fetch (r : Request) : IO Response.t :=
  fun w => match answer w r with
           | Responds res => (Val res, sent w r)
           | Rejects e => (Throw e, sent w r)
           end.

(** [await sleep(ms)] *)
Definition sleep (ms : Z) : IO unit := fun w => (Val tt, slept w ms).

(** [new Date()], as its time value. *)
Definition newDate : IO Z := fun w => (Val (clock w (nclock w)), ticked w).

(** ** String helpers of the runtime *)

Definition hexDigit (n : N) : ascii :=
  match n with
  | 0%N => "0" | 1%N => "1" | 2%N => "2" | 3%N => "3" | 4%N => "4"
  | 5%N => "5" | 6%N => "6" | 7%N => "7" | 8%N => "8" | 9%N => "9"
  | 10%N => "A" | 11%N => "B" | 12%N => "C" | 13%N => "D" | 14%N => "E"
  | _ => "F"
  end%char.

Definition between (lo hi : ascii) (c : ascii) : bool :=
  ((N_of_ascii lo <=? N_of_ascii c) && (N_of_ascii c <=? N_of_ascii hi))%N.

(** The characters [encodeURIComponent] leaves alone:
    [A-Z a-z 0-9 - _ . ! ~ * ' ( )]. *)
Definition uriUnreserved (c : ascii) : bool :=
  between "A" "Z" c || between "a" "z" c || between "0" "9" c
  || existsb (Ascii.eqb c) ["-"; "_"; "."; "!"; "~"; "*"; "'"; "("; ")"]%char.

(** [encodeURIComponent], on a string held as its UTF-8 bytes: every byte
    outside the unreserved set becomes [%XX].  A string with a lone
    surrogate has no UTF-8 bytes and makes the builtin raise: that is
    [Js.encodeURIComponent] below. *)
Fixpoint encodeURIComponent (s : string) : string :=
  match s with
  | EmptyString => EmptyString
  | String c rest =>
      if uriUnreserved c then String c (encodeURIComponent rest)
      else String "%" (String (hexDigit (N_of_ascii c / 16))
                        (String (hexDigit (N_of_ascii c mod 16))
                           (encodeURIComponent rest)))
  end.

(** [s.split(".").slice(-1)[0]]: what follows the last dot, the whole
    string when there is none. *)
Fixpoint lastSegment (acc s : string) : string :=
  match s with
  | EmptyString => acc
  | String c rest =>
      if Ascii.eqb c "." then lastSegment EmptyString rest
      else lastSegment (acc +:+ String c EmptyString) rest
  end.

(** [String.prototype.toLowerCase] follows the case mapping of the
    Unicode character database, which is not embedded here: the scan
    loops take the function from the runtime, as a function on strings
    held as UTF-8 bytes.  On a string of ASCII characters it is
    [asciiLowerCase]: [A] to [Z] become [a] to [z], the rest stays. *)
Definition lowerAscii (c : ascii) : ascii :=
  if between "A" "Z" c then ascii_of_N (N_of_ascii c + 32) else c.

Fixpoint asciiLowerCase (s : string) : string :=
  match s with
  | EmptyString => EmptyString
  | String c rest => String (lowerAscii c) (asciiLowerCase rest)
  end.

(** [domain.split('.').slice(-1)[0]?.toLowerCase() || ''], for the
    [toLowerCase] of the runtime. *)
Definition tldOf (toLowerCase : string -> string) (domain : string) : string :=
  toLowerCase (lastSegment EmptyString domain).

(** ** Records shared by the scanners *)

Module Website.
(** The [website] field of a record: [status], [protocol], [urlTried]
    and [error] are optional properties. *)
Record t := mk {
  present : bool;
  protocol : option Protocol;
  status : option Z;
  urlTried : option string;
  error : option string
}.

(** [{ present: false }] *)
Definition absent : t := mk false None None None None.
End Website.

(** An element of [results].  [checkedAt] is an ISO-8601 string in the
    source, kept here as the time value it renders; [tld] is missing in
    the revision of the script that keeps the history. *)
Record DomainRecord := mkRecord {
  domain : string;
  tld : option string;
  registered : bool;
  website : Website.t;
  checkedAt : Z
}.

(** Truthiness of an optional number ([x ? a : b]): [undefined] and [0]
    are falsy. *)
Definition truthyNum (x : option Z) : bool :=
  match x with
  | Some n => negb (n =? 0)
  | None => false
  end.

(** ** server/cron/whoisChecker.ts *)
Module Cron.

Definition fetchWithTimeout (u : string) (m : Method) (timeout : Z) : IO Response.t :=
  fetch (mkRequest u m timeout).

Definition rdapUrl (domain : string) : string :=
  "https://rdap.nic.ch/domain/" +:+ encodeURIComponent domain.

Definition isRegistered (domain : string) : IO bool :=
  let rdap := rdapUrl domain in
  try_catch
    (let* res := fetchWithTimeout rdap HEAD 5000 in
     if Response.status res =? 200 then ret true
     else if Response.status res =? 404 then ret false
     else if Response.status res =? 429 then
       sleep 2000 ;;
       let* retry := fetchWithTimeout rdap HEAD 5000 in
       ret ((Response.status retry =? 200) || (Response.status retry =? 404))
     else ret false)
    (fun _ => ret false).

Definition tryOnce (domain : string) (proto : Protocol) : IO Website.t :=
  let url := protoString proto +:+ "://" +:+ domain in
  try_catch
    (let* res := fetchWithTimeout url HEAD 5000 in
     let* res :=
       (if (Response.status res =? 405) || (Response.status res =? 403)
        then fetchWithTimeout url GET 5000
        else ret res) in
     let ok := (200 <=? Response.status res) && (Response.status res <? 400) in
     ret (Website.mk ok (Some proto) (Some (Response.status res)) (Some url) None))
    (fun e =>
       if String.eqb (name e) "AbortError"
       then ret (Website.mk false None None (Some url) (Some "timeout"%string))
       else ret (Website.mk false None None (Some url) (Some (message e)))).

Definition notReachable : Website.t :=
  Website.mk false None None None (Some "not reachable"%string).

Definition checkWebsitePresence (domain : string) : IO Website.t :=
  let* httpsResult := tryOnce domain https in
  if Website.present httpsResult then ret httpsResult
  else
    let* httpResult := tryOnce domain http in
    if Website.present httpResult then ret httpResult
    else
      let best := if truthyNum (Website.status httpsResult)
                  then httpsResult else httpResult in
      ret (if Website.present best then best else notReachable).

(** One turn of the [for (const domain of domains)] loop of the cron
    handler. *)
Definition scanDomain (toLowerCase : string -> string) (d : string) : IO DomainRecord :=
  let tld := tldOf toLowerCase d in
  let* registered := isRegistered d in
  let* website :=
    (if registered then checkWebsitePresence d else ret Website.absent) in
  let* checkedAt := newDate in
  sleep 150 ;;
  ret (mkRecord d (Some tld) registered website checkedAt).

Fixpoint scanAll (toLowerCase : string -> string) (domains : list string)
  : IO (list DomainRecord) :=
  match domains with
  | [] => ret []
  | d :: rest =>
      let* r := scanDomain toLowerCase d in
      let* rs := scanAll toLowerCase rest in
      ret (r :: rs)
  end.

End Cron.

(** ** scripts/scan-domains.mjs, the revision with the two-scheme prober *)
Module Script.

(** [fetchWithTimeout(url, { method = "GET", timeoutMs = 8000 } = {})] *)
Definition fetchWithTimeout (u : string) (m : Method) (timeout : Z) : IO Response.t :=
  fetch (mkRequest u m timeout).

Definition rdapUrl (domain : string) : string :=
  "https://rdap.nic.ch/domain/" +:+ encodeURIComponent domain.

Definition isRegistered (domain : string) : IO bool :=
  let rdap := rdapUrl domain in
  try_catch
    (let* res := fetchWithTimeout rdap HEAD 5000 in
     let* res :=
       (if Response.status res =? 429
        then sleep 1000 ;; fetchWithTimeout rdap HEAD 5000
        else ret res) in
     if (Response.status res =? 200) || (Response.status res =? 401) then ret true
     else if Response.status res =? 404 then ret false
     else ret false)
    (fun _ => ret false).

(** [String(e?.message || e)]: the message when it is not empty,
    otherwise [Error.prototype.toString], which is then the name. *)
Definition errorText (e : JsError) : string :=
  if String.eqb (message e) "" then name e else message e.

Definition tryOnce (domain : string) (proto : Protocol) : IO Website.t :=
  let url := protoString proto +:+ "://" +:+ domain +:+ "/" in
  try_catch
    (let* res := fetchWithTimeout url HEAD 6000 in
     let* res :=
       (if (Response.status res =? 405) || (Response.status res =? 403)
        then fetchWithTimeout url GET 8000
        else ret res) in
     let ok := (200 <=? Response.status res) && (Response.status res <? 400) in
     ret (Website.mk ok (Some proto) (Some (Response.status res)) (Some url) None))
    (fun e => ret (Website.mk false None None (Some url) (Some (errorText e)))).

Definition checkWebsite (domain : string) : IO Website.t :=
  let* https_ := tryOnce domain https in
  if Website.present https_ then ret https_
  else
    let* http_ := tryOnce domain http in
    if Website.present http_ then ret http_
    else ret (if truthyNum (Website.status https_) then https_ else http_).

(** One turn of the [for (const domain of domains)] loop of [main]. *)
Definition scanDomain (toLowerCase : string -> string) (d : string) : IO DomainRecord :=
  let tld := tldOf toLowerCase d in
  let* checkedAt := newDate in
  let* registered := isRegistered d in
  let* website := (if registered then checkWebsite d else ret Website.absent) in
  sleep 150 ;;
  ret (mkRecord d (Some tld) registered website checkedAt).

Fixpoint scanAll (toLowerCase : string -> string) (domains : list string)
  : IO (list DomainRecord) :=
  match domains with
  | [] => ret []
  | d :: rest =>
      let* r := scanDomain toLowerCase d in
      let* rs := scanAll toLowerCase rest in
      ret (r :: rs)
  end.

End Script.

(** ** Domains as the scanners receive them *)
Module Js.

(** A JavaScript string is a sequence of UTF-16 code units, numbers
    below 65536.  The definitions above hold a string as its UTF-8 bytes,
    which a string has unless it holds a surrogate that is not part of a
    pair. *)
Definition str : Type := list N.

Definition highSurrogate (u : N) : bool := ((55296 <=? u) && (u <=? 56319))%N.

Definition lowSurrogate (u : N) : bool := ((56320 <=? u) && (u <=? 57343))%N.

(** The code point of a surrogate pair. *)
Definition pairValue (hi lo : N) : N := (65536 + (hi - 55296) * 1024 + (lo - 56320))%N.

(** The UTF-8 bytes of a code point. *)
Definition utf8Of (cp : N) : string :=
  string_of_list_ascii
    (map ascii_of_N
       (if cp <? 128 then [cp]
        else if cp <? 2048 then [192 + cp / 64; 128 + cp mod 64]
        else if cp <? 65536
             then [224 + cp / 4096; 128 + (cp / 64) mod 64; 128 + cp mod 64]
             else [240 + cp / 262144; 128 + (cp / 4096) mod 64;
                   128 + (cp / 64) mod 64; 128 + cp mod 64])%N).

(** The UTF-8 bytes of a string, [None] when it holds a lone surrogate. *)
Fixpoint utf8 (s : str) : option string :=
  match s with
  | [] => Some EmptyString
  | u :: rest =>
      if highSurrogate u then
        match rest with
        | v :: rest' =>
            if lowSurrogate v
            then option_map (String.append (utf8Of (pairValue u v))) (utf8 rest')
            else None
        | [] => None
        end
      else if lowSurrogate u then None
      else option_map (String.append (utf8Of u)) (utf8 rest)
  end.

Definition uriError : JsError := mkError "URIError" "URI malformed".

(** [encodeURIComponent(s)]: a [URIError] on a lone surrogate, otherwise
    the escaped UTF-8 bytes. *)
Definition encodeURIComponent (s : str) : Res string :=
  match utf8 s with
  | Some bytes => Val (encodeURIComponent bytes)
  | None => Throw uriError
  end.

End Js.

(** ** server/cron/whoisChecker.ts, on the domains as received *)
Module CronUnits.

(** [isRegistered(domain)]: [encodeURIComponent(domain)] of line 46 is
    evaluated before the [try], so that its [URIError] leaves the
    function; a domain that it accepts is probed as [Cron.isRegistered]
    probes its UTF-8 bytes. *)
Definition isRegistered (domain : Js.str) : IO bool :=
  match Js.utf8 domain with
  | Some d => Cron.isRegistered d
  | None => throw Js.uriError
  end.

(** One turn of the loop: [tld] is computed without an effect, then
    [isRegistered] is called. *)
Definition scanDomain (toLowerCase : string -> string) (domain : Js.str)
  : IO DomainRecord :=
  match Js.utf8 domain with
  | Some d => Cron.scanDomain toLowerCase d
  | None => throw Js.uriError
  end.

Fixpoint scanAll (toLowerCase : string -> string) (domains : list Js.str)
  : IO (list DomainRecord) :=
  match domains with
  | [] => ret []
  | d :: rest =>
      let* r := scanDomain toLowerCase d in
      let* rs := scanAll toLowerCase rest in
      ret (r :: rs)
  end.

End CronUnits.

(** ** scripts/scan-domains.mjs, on the domains as received *)
Module ScriptUnits.

(** [isRegistered(domain)], with [encodeURIComponent(domain)] of line 52
    (and 227) before the [try]. *)
Definition isRegistered (domain : Js.str) : IO bool :=
  match Js.utf8 domain with
  | Some d => Script.isRegistered d
  | None => throw Js.uriError
  end.

(** One turn of the loop: the clock is read for [checkedAt] before
    [isRegistered] is called. *)
Definition scanDomain (toLowerCase : string -> string) (domain : Js.str)
  : IO DomainRecord :=
  match Js.utf8 domain with
  | Some d => Script.scanDomain toLowerCase d
  | None => newDate ;; throw Js.uriError
  end.

Fixpoint scanAll (toLowerCase : string -> string) (domains : list Js.str)
  : IO (list DomainRecord) :=
  match domains with
  | [] => ret []
  | d :: rest =>
      let* r := scanDomain toLowerCase d in
      let* rs := scanAll toLowerCase rest in
      ret (r :: rs)
  end.

End ScriptUnits.

(** ** scripts/scan-domains.mjs, the revision that keeps history.json *)
Module History.

#[local] Set Warnings "-register-all".

(** A value as [JSON.parse] delivers it.  Numbers are held as integers
    (those that a double holds, which [JSON.stringify] writes back as they
    are).  [JTime t] is the string [new Date(t).toISOString()], kept as the time
    value [t] that [new Date] reads back from it; [JStr] holds every
    other string.  [undefined] is not a JSON value: a property that may
    be missing is an [option json]. *)
Inductive json :=
| JNull
| JBool (b : bool)
| JNum (n : Z)
| JStr (s : string)
| JTime (t : Z)
| JArr (items : list json)
| JObj (fields : list (string * json)).

(** What the JavaScript runtime contributes to the pruning step: the
    local time zone, [LocalTZA(t, true)] and [LocalTZA(t, false)] of
    ECMA-262, and [Date.parse] on the strings that are no [JTime] (for an
    array or an object, on its string conversion when that does not
    raise), [None] for [NaN]. *)
Record Runtime := mkRuntime {
  offsetAt : Z -> Z;
  offsetOfLocal : Z -> Z;
  parseDate : json -> option Z
}.

(** A runtime whose local time is UTC. *)
Definition utcRuntime (parse : json -> option Z) : Runtime :=
  mkRuntime (fun _ => 0) (fun _ => 0) parse.

Definition msPerDay : Z := 86400000.

(** [TimeClip]: a time value beyond 8.64e15 ms is [NaN]. *)
Definition timeClip (n : Z) : option Z :=
  if Z.abs n <=? 8640000000000000 then Some n else None.

Definition typeError (msg : string) : JsError := mkError "TypeError" msg.

Definition bindR {A B} (c : Res A) (k : A -> Res B) : Res B :=
  match c with
  | Val a => k a
  | Throw e => Throw e
  end.

Notation "'let+' x ':=' c 'in' k" := (bindR c (fun x => k))
  (at level 10, x name, c at level 100, k at level 200).

(** An own property of a parsed object; [JSON.parse] keeps the last of
    two members with the same name. *)
Fixpoint lookupField (k : string) (fs : list (string * json)) : option json :=
  match fs with
  | [] => None
  | (k', v) :: rest =>
      match lookupField k rest with
      | Some v' => Some v'
      | None => if String.eqb k k' then Some v else None
      end
  end.

(** [v.k] for the names the script reads ([events], [lastState], [date],
    [status]): a [TypeError] on [null], [undefined] on a number, a
    boolean, a string or a parsed array, which own none of them. *)
Definition getProp (v : json) (k : string) : Res (option json) :=
  match v with
  | JNull => Throw (typeError ("Cannot read properties of null (reading '" +:+ k +:+ "')"))
  | JObj fs => Val (lookupField k fs)
  | _ => Val None
  end.

(** [v.k = ...]: objects and arrays take the property; on [null], and on
    a primitive in module (strict) code, it is a [TypeError]. *)
Definition setProp (v : json) (k : string) : Res unit :=
  match v with
  | JObj _ | JArr _ => Val tt
  | JNull => Throw (typeError ("Cannot set properties of null (setting '" +:+ k +:+ "')"))
  | _ => Throw (typeError ("Cannot create property '" +:+ k +:+ "'"))
  end.

(** [x?.k] *)
Definition optProp (x : option json) (k : string) : option json :=
  match x with
  | None | Some JNull => None
  | Some (JObj fs) => lookupField k fs
  | Some _ => None
  end.

Definition isArray (v : option json) : bool :=
  match v with Some (JArr _) => true | _ => false end.

Definition itemsOf (v : option json) : list json :=
  match v with Some (JArr items) => items | _ => [] end.

(** [!!v] *)
Definition truthy (v : option json) : bool :=
  match v with
  | None | Some JNull => false
  | Some (JBool b) => b
  | Some (JNum n) => negb (n =? 0)
  | Some (JStr s) => negb (String.eqb s "")
  | Some (JTime _) | Some (JArr _) | Some (JObj _) => true
  end.

(** [typeof v === 'object'] *)
Definition typeofObject (v : option json) : bool :=
  match v with
  | Some JNull | Some (JArr _) | Some (JObj _) => true
  | _ => false
  end.

(** [history] as the run reads it.  [events] is a sequence of parsed
    values.  [lastState] maps a name to what [history.lastState[name]]
    finds: an own property, or, under [__proto__], the object that an
    assignment to that name has put in place of the prototype.  What is
    inherited otherwise (the members of [Object.prototype] and
    [Array.prototype], the new prototype's [status], the [length] of an
    array) has no property [status] and is left out.  What holds the two
    properties, and which of the names are written to the file, is kept
    apart: [holderOf], [stateHolderOf]. *)
Record HistoryDoc := mkHistory {
  events : list json;
  lastState : gmap string json
}.

(** [{ events: [], lastState: {} }] *)
Definition emptyHistory : HistoryDoc := mkHistory [] ∅.

Definition indexed (items : list json) : list (string * json) :=
  imap (fun i v => (pretty i, v)) items.

(** The own properties of the value kept as [history.lastState], as a
    map: the members of an object (the last of two equal names wins), the
    elements of an array under their indices. *)
Definition objectView (v : option json) : gmap string json :=
  match v with
  | Some (JObj fs) => fold_left (fun m kv => <[kv.1 := kv.2]> m) fs ∅
  | Some (JArr items) => list_to_map (indexed items)
  | _ => ∅
  end.

(** The statements of the [try] block that follow [readFile]:
    [history = JSON.parse(raw)] and the two repairs. *)
Definition adopt (parsed : Res json) : Res HistoryDoc :=
  let+ history := parsed in
  let+ ev := getProp history "events" in
  let+ evs := (if negb (isArray ev)
               then (let+ _ := setProp history "events" in Val [])
               else Val (itemsOf ev)) in
  let+ ls := getProp history "lastState" in
  let+ st := (if negb (truthy ls) || negb (typeofObject ls)
              then (let+ _ := setProp history "lastState" in Val ∅)
              else Val (objectView ls)) in
  Val (mkHistory evs st).

(** What is found at [HISTORY_FILE]. *)
Inductive HistoryFile :=
| Missing
| Unreadable (e : JsError)
| Content (parsed : Res json).

(** Lines 121-131: the history the run starts from.  [Missing]:
    [fileExists] is false; [Unreadable e]: [readFile] rejects with [e];
    [Content p]: [readFile] returns text on which [JSON.parse] returns,
    or throws, [p]. *)
Definition loadHistory (f : HistoryFile) : HistoryDoc :=
  match f with
  | Missing => emptyHistory
  | Unreadable _ => emptyHistory
  | Content parsed =>
      match adopt parsed with
      | Val history => history
      | Throw _ => emptyHistory
      end
  end.

(** Lines 145-148. *)
Definition currentStatusOf (entry : DomainRecord) : string :=
  if registered entry
  then (if Website.present (website entry) then "website" else "registered")
  else "available".

(** [history.lastState[domain]?.status] *)
Definition prevStatusOf (history : HistoryDoc) (d : string) : option json :=
  optProp (lastState history !! d) "status".

(** [currentStatus !== prevStatus], the left side being a string. *)
Definition strictNe (currentStatus : string) (prevStatus : option json) : bool :=
  match prevStatus with
  | Some (JStr s) => negb (String.eqb currentStatus s)
  | _ => true
  end.

(** [prevStatus || null] *)
Definition orNull (prevStatus : option json) : json :=
  match prevStatus with
  | Some v => if truthy prevStatus then v else JNull
  | None => JNull
  end.

Definition mkEvent (now : Z) (d currentStatus : string) (previousStatus : json) : json :=
  JObj [("date", JTime now); ("domain", JStr d);
        ("status", JStr currentStatus); ("previousStatus", previousStatus)].

(** The body of [for (const entry of results)], on the pair of
    [history] and [newEvents], when the assignment of line 164 goes
    through (see [refuses]).  The assignment makes the entry what a read
    of [history.lastState[domain]] finds from then on: it sets an own
    property, except that under the name [__proto__] an object without an
    own property of that name gets the entry as its prototype. *)
Definition reconcileEntry (now : Z) (acc : HistoryDoc * nat) (entry : DomainRecord)
  : HistoryDoc * nat :=
  let history := acc.1 in
  let d := domain entry in
  let currentStatus := currentStatusOf entry in
  let prevStatus := prevStatusOf history d in
  let pushed :=
    if strictNe currentStatus prevStatus
    then (events history ++ [mkEvent now d currentStatus (orNull prevStatus)], S acc.2)
    else (events history, acc.2) in
  (mkHistory pushed.1 (<[d := JObj [("status", JStr currentStatus)]]> (lastState history)),
   pushed.2).

Definition reconcileLoop (now : Z) (results : list DomainRecord) (history : HistoryDoc)
  : HistoryDoc * nat :=
  fold_left (reconcileEntry now) results (history, 0%nat).

(** [cutoff = new Date(); cutoff.setDate(cutoff.getDate() - 365)], with
    [t] the time value read.  [setDate] works on the local time:
    [MakeDay(year, month, getDate() - 365)] is the local day number less
    365 and the time within the day is kept, so the local time value
    moves back by 365 [msPerDay]; it is then turned back into UTC.  (The
    clock is far inside the range of [TimeClip].) *)
Definition cutoffOf (rt : Runtime) (t : Z) : Z :=
  let localTime := t + offsetAt rt t in
  let moved := localTime - 365 * msPerDay in
  moved - offsetOfLocal rt moved.

(** [new Date(v)] turns an object or an array into a string first.  On an
    object with an own [toString] member (a parsed value, no function)
    this raises a [TypeError]: the inherited [valueOf] returns the object
    itself and nothing callable is left; an array joins the conversions
    of its elements and raises with them. *)
Fixpoint conversionRaises (v : json) : bool :=
  match v with
  | JObj fields => existsb (fun kv => String.eqb kv.1 "toString") fields
  | JArr items => existsb conversionRaises items
  | _ => false
  end.

(** The time value of [new Date(v)], [None] for an invalid date. *)
Definition dateValue (rt : Runtime) (v : option json) : Res (option Z) :=
  match v with
  | None => Val None
  | Some JNull => Val (Some 0)
  | Some (JBool b) => Val (Some (if b then 1 else 0))
  | Some (JNum n) => Val (timeClip n)
  | Some (JTime t) => Val (Some t)
  | Some other =>
      if conversionRaises other
      then Throw (typeError "Cannot convert object to primitive value")
      else Val (parseDate rt other)
  end.

(** The callback of [history.events.filter]:
    [new Date(event.date) >= cutoff]. *)
Definition recent (rt : Runtime) (cutoff : Z) (event : json) : Res bool :=
  let+ d := getProp event "date" in
  let+ eventDate := dateValue rt d in
  Val (match eventDate with
       | Some t => cutoff <=? t
       | None => false
       end).

(** [events.filter(callback)]: an exception of the callback ends it. *)
Fixpoint filterEvents (rt : Runtime) (cutoff : Z) (evs : list json) : Res (list json) :=
  match evs with
  | [] => Val []
  | event :: rest =>
      let+ keep := recent rt cutoff event in
      let+ rest' := filterEvents rt cutoff rest in
      Val (if keep then event :: rest' else rest')
  end.

(** Lines 138-173 of [main] when every assignment of line 164 goes
    through: [now] is the clock reading of line 138, [later] the one of
    line 168.  The result is the history in memory when line 175 writes
    it (see [written]) and [newEvents]. *)
Definition reconcile (rt : Runtime) (results : list DomainRecord)
  (history : HistoryDoc) (now later : Z) : Res (HistoryDoc * nat) :=
  let looped := reconcileLoop now results history in
  let+ kept := filterEvents rt (cutoffOf rt later) (events looped.1) in
  Val (mkHistory kept (lastState looped.1), looped.2).

(** *** What holds the history, and what is written back *)

(** The value that [history] names once lines 121-131 are through: the
    parsed object or array, or the literal of line 121 or 129. *)
Definition holderOf (f : HistoryFile) : json :=
  match f with
  | Content (Val v) =>
      match adopt (Val v) with
      | Val _ => v
      | Throw _ => JObj []
      end
  | _ => JObj []
  end.

(** What holds [history.lastState]: an object, with or without an own
    property called [__proto__] (only [JSON.parse] makes one), or an
    array of a given length. *)
Inductive Holder :=
| PlainObject (ownProto : bool)
| ArrayObject (len : nat).

Definition stateHolderOf (f : HistoryFile) : Holder :=
  match getProp (holderOf f) "lastState" with
  | Val (Some (JObj members)) =>
      PlainObject (match lookupField "__proto__" members with
                   | Some _ => true
                   | None => false
                   end)
  | Val (Some (JArr items)) => ArrayObject (length items)
  | _ => PlainObject false
  end.

(** [history.lastState[domain] = { status }] raises on an array asked to
    take the entry as its [length]. *)
Definition refuses (holder : Holder) (d : string) : bool :=
  match holder with
  | ArrayObject _ => String.eqb d "length"
  | PlainObject _ => false
  end.

Definition rangeError : JsError := mkError "RangeError" "Invalid array length".

Fixpoint digitsValue (acc : N) (s : string) : option N :=
  match s with
  | EmptyString => Some acc
  | String c rest =>
      if between "0" "9" c
      then digitsValue (10 * acc + (N_of_ascii c - 48))%N rest
      else None
  end.

(** An array index: the decimal numeral, as [ToString] writes it, of a
    number below 2^32 - 1. *)
Definition arrayIndex (d : string) : option N :=
  match d with
  | EmptyString => None
  | _ =>
      match digitsValue 0 d with
      | Some n =>
          if (n <? 4294967295)%N && String.eqb (pretty n) d
          then Some n
          else None
      | None => None
      end
  end.

(** The [length] of an array that had [len] elements when it was parsed:
    an element set at or beyond the length extends it. *)
Definition arrayLength (len : nat) (view : gmap string json) : N :=
  foldr (fun kv acc => match arrayIndex kv.1 with
                       | Some i => N.max (i + 1) acc
                       | None => acc
                       end)
        (N.of_nat len) (map_to_list view).

(** [history.lastState] as [JSON.parse] reads it back from the text that
    [JSON.stringify] makes of it (the order of the members aside).  Of an
    object the own properties are written: the prototype is not.  Of an
    array the elements below its length are written, [null] for a
    missing one: a property under another name is not. *)
Definition writtenState (holder : Holder) (view : gmap string json) : json :=
  match holder with
  | PlainObject own =>
      JObj (map_to_list (if own then view else delete "__proto__" view))
  | ArrayObject len =>
      JArr (map (fun i : nat => default JNull (view !! (pretty i : string)))
              (seq 0 (N.to_nat (arrayLength len view))))
  end.

(** Line 175: [history] as [JSON.parse] reads it back from the text
    written to [HISTORY_FILE] (the order of the members aside).  A parsed
    object keeps its other members; of a parsed array the elements are
    written and nothing else, [events] and [lastState] being no
    elements. *)
Definition written (f : HistoryFile) (history : HistoryDoc) : json :=
  match holderOf f with
  | JObj fs =>
      JObj (List.filter (fun kv => negb (String.eqb kv.1 "events")
                                   && negb (String.eqb kv.1 "lastState")) fs
            ++ [("events", JArr (events history));
                ("lastState", writtenState (stateHolderOf f) (lastState history))])
  | other => other
  end.

(** The file that the next run finds. *)
Definition nextFile (f : HistoryFile) (history : HistoryDoc) : HistoryFile :=
  Content (Val (written f history)).

(** Lines 119-173 of [main] on the history file, [now] and [later] being
    the two clock readings: the loop raises at the first record that
    [history.lastState] refuses. *)
Definition reconcileFile (rt : Runtime) (file : HistoryFile)
  (results : list DomainRecord) (now later : Z) : Res (HistoryDoc * nat) :=
  if existsb (fun entry => refuses (stateHolderOf file) (domain entry)) results
  then Throw rangeError
  else reconcile rt results (loadHistory file) now later.

(** Lines 119-173 on the world: load, read the clock, reconcile. *)
Definition updateHistory (rt : Runtime) (file : HistoryFile)
  (results : list DomainRecord) : IO (HistoryDoc * nat) :=
  let history := loadHistory file in
  let* now := newDate in
  if existsb (fun entry => refuses (stateHolderOf file) (domain entry)) results
  then throw rangeError
  else
    let* later := newDate in
    fun w => (reconcile rt results history now later, w).

End History.

(** ** String helpers of the loaders *)

Definition LF : ascii := ascii_of_N 10.
Definition CR : ascii := ascii_of_N 13.

(** The white space and line terminators that [trim] removes, as UTF-8:
    the ASCII ones (TAB, LF, VT, FF, CR, SP), *)
Definition asciiSpace (c : ascii) : bool :=
  existsb (N.eqb (N_of_ascii c)) [9; 10; 11; 12; 13; 32]%N.

(** U+00A0, *)
Definition space2 (c1 c2 : ascii) : bool :=
  ((N_of_ascii c1 =? 194) && (N_of_ascii c2 =? 160))%N.

(** and U+1680, U+2000 to U+200A, U+2028, U+2029, U+202F, U+205F, U+3000
    and U+FEFF. *)
Definition space3 (c1 c2 c3 : ascii) : bool :=
  let a := N_of_ascii c1 in
  let b := N_of_ascii c2 in
  let c := N_of_ascii c3 in
  (((a =? 225) && (b =? 154) && (c =? 128))
   || ((a =? 226) && (b =? 128)
       && (((128 <=? c) && (c <=? 138)) || (c =? 168) || (c =? 169) || (c =? 175)))
   || ((a =? 226) && (b =? 129) && (c =? 159))
   || ((a =? 227) && (b =? 128) && (c =? 128))
   || ((a =? 239) && (b =? 187) && (c =? 191)))%N.

(** Skip the white space in front of a byte sequence; with [backwards]
    the sequence is a string read from its end, and the bytes of a code
    point come last byte first. *)
Fixpoint skipSpace (backwards : bool) (l : list ascii) : list ascii :=
  match l with
  | [] => l
  | c1 :: r1 =>
      if asciiSpace c1 then skipSpace backwards r1
      else
        match r1 with
        | [] => l
        | c2 :: r2 =>
            if (if backwards then space2 c2 c1 else space2 c1 c2)
            then skipSpace backwards r2
            else
              match r2 with
              | [] => l
              | c3 :: r3 =>
                  if (if backwards then space3 c3 c2 c1 else space3 c1 c2 c3)
                  then skipSpace backwards r3
                  else l
              end
        end
  end.

Definition trimStart (s : string) : string :=
  string_of_list_ascii (skipSpace false (list_ascii_of_string s)).

Definition trimEnd (s : string) : string :=
  string_of_list_ascii (rev (skipSpace true (rev (list_ascii_of_string s)))).

(** [s.trim()] *)
Definition trim (s : string) : string := trimEnd (trimStart s).

(** The segment before a line break matched by [\r?\n]: a carriage
    return right before the line feed belongs to the break. *)
Definition dropCR (seg : list ascii) : list ascii :=
  match rev seg with
  | c :: before => if Ascii.eqb c CR then rev before else seg
  | [] => seg
  end.

(** [raw.split(/\r?\n/)], [seg] being the bytes read since the last
    break. *)
Fixpoint splitLinesFrom (seg : list ascii) (s : list ascii) : list string :=
  match s with
  | [] => [string_of_list_ascii seg]
  | c :: rest =>
      if Ascii.eqb c LF
      then string_of_list_ascii (dropCR seg) :: splitLinesFrom [] rest
      else splitLinesFrom (seg ++ [c]) rest
  end.

Definition splitLines (raw : string) : list string :=
  splitLinesFrom [] (list_ascii_of_string raw).

(** [s.split(",")] *)
Fixpoint splitCommaFrom (seg : list ascii) (s : list ascii) : list string :=
  match s with
  | [] => [string_of_list_ascii seg]
  | c :: rest =>
      if Ascii.eqb c ","
      then string_of_list_ascii seg :: splitCommaFrom [] rest
      else splitCommaFrom (seg ++ [c]) rest
  end.

Definition splitComma (s : string) : list string :=
  splitCommaFrom [] (list_ascii_of_string s).

(** [l.startsWith("#")] *)
Definition startsWithHash (l : string) : bool :=
  match l with
  | String c _ => Ascii.eqb c "#"
  | EmptyString => false
  end.

(** Truthiness of a string: it is not empty. *)
Definition nonEmpty (s : string) : bool := negb (String.eqb s "").

(** ** scripts/scan-domains.mjs: where the domains come from *)
Module ScriptInput.

(** What is found at [DOMAINS_TXT]: nothing, a file that [readFile]
    fails on, or a text. *)
Inductive TextFile :=
| NoFile
| ReadFails (e : JsError)
| Text (raw : string).

(** [fileExists(p)]: [access(p, F_OK)] went through. *)
Definition fileExists (f : TextFile) : bool :=
  match f with
  | NoFile => false
  | _ => true
  end.

(** [await readFile(p, "utf8")] on a file that exists. *)
Definition readFile (f : TextFile) : Res string :=
  match f with
  | Text raw => Val raw
  | ReadFails e => Throw e
  | NoFile => Throw (mkError "Error" "ENOENT: no such file or directory")
  end.

(** [loadDomains()], [env] being [process.env.DOMAINS]. *)
Definition loadDomains (f : TextFile) (env : option string) : Res (list string) :=
  if fileExists f
  then
    History.bindR (readFile f) (fun raw =>
      Val (List.filter (fun l => nonEmpty l && negb (startsWithHash l))
             (map trim (splitLines raw))))
  else
    match env with
    | Some v =>
        if nonEmpty v
        then Val (List.filter nonEmpty (map trim (splitComma v)))
        else Val ["pff25.ch"%string]
    | None => Val ["pff25.ch"%string]
    end.

End ScriptInput.

(** ** server/cron/whoisChecker.ts: where the domains come from *)
Module CronInput.

Import History.

(** [typeof d === 'string' && d.length > 0] *)
Definition isNonEmptyString (v : json) : bool :=
  match v with
  | JStr s => nonEmpty s
  | JTime _ => true
  | _ => false
  end.

(** [loadDomains()]: [whois] is [config.whois] of the runtime
    configuration ([None] when it is undefined), and [readJson p] what
    [JSON.parse(await readFile(resolve(process.cwd(), p), 'utf8'))]
    returns or throws for the path [p]. *)
Definition loadDomains (whois : option json) (readJson : json -> Res json) : list json :=
  let rc := if truthy whois then whois else Some (JObj []) in
  let domains := optProp rc "domains" in
  if isArray domains && (0 <? Z.of_nat (length (itemsOf domains)))
  then itemsOf domains
  else
    match optProp rc "domainsFile" with
    | Some p =>
        if isNonEmptyString p
        then
          match readJson p with
          | Val parsed =>
              if isArray (Some parsed)
              then List.filter isNonEmptyString (itemsOf (Some parsed))
              else []
          | Throw _ => []
          end
        else []
    | None => []
    end.

End CronInput.

(** ** scripts/scan-domains.mjs, the revisions that ask a classifier *)
Module Classifier.

(** The result of this [checkWebsite]: [{ present }] or
    [{ present, url }]. *)
Record Site := mkSite { present : bool; url : option string }.

(** What the three awaited calls of one [checkWebsite] deliver: the text
    of [http://domain/] ([None] for the [null] that the [catch] puts in
    place of a failed fetch or body), the [output_text] of
    [client.responses.create] for a given input, or what it throws, and
    the outcome of the HEAD request to [https://domain/]. *)
Record Calls := mkCalls {
  page : option string;
  reply : string -> Res string;
  httpsHead : Outcome
}.

Definition question : string :=
  "only answer with Yes or No. Does the following HTML content indicate that the website is from a hosting company and not for the PFF (a scout organized festival) Popular Hosting Companies include: Hostpoint, Hoststar and many more? ".

(** [question + html], [null] being spelled out. *)
Definition input (html : option string) : string :=
  question +:+ match html with Some text => text | None => "null"%string end.

(** [httpsRes.ok || httpsRes.status === 301 || httpsRes.status === 302] *)
Definition acceptable (r : Response.t) : bool :=
  ((200 <=? Response.status r) && (Response.status r <=? 299))
  || (Response.status r =? 301) || (Response.status r =? 302).

Definition checkWebsite (d : string) (calls : Calls) : Res Site :=
  let html := page calls in
  History.bindR (reply calls (input html)) (fun answer =>
    let usesHttps :=
      match httpsHead calls with
      | Responds httpsRes => acceptable httpsRes
      | Rejects _ => false
      end in
    if String.eqb answer "Yes" then Val (mkSite false None)
    else if String.eqb answer "No" && usesHttps
         then Val (mkSite true (Some ("https://" +:+ d)))
         else Val (mkSite false None)).

End Classifier.

(** * Properties *)

(** ** Vocabulary of the statements *)

(** The one request the registration probers send, first and on retry. *)
Definition rdapRequest (d : string) : Request :=
  mkRequest ("https://rdap.nic.ch/domain/" +:+ encodeURIComponent d) HEAD 5000.

Definition replies (s : Z) : Outcome := Responds (Response.mk s).

Definition fetchFailed : Outcome := Rejects (mkError "TypeError" "fetch failed").

(** A world whose fetches are answered from a list, in order, and fail
    once the list is used up. *)
Definition scripted (answers : list Outcome) : nat -> Request -> Outcome :=
  fun n _ => nth n answers fetchFailed.

Definition startWorld (answers : list Outcome) : World :=
  mkWorld (scripted answers) (fun n => 1762041600000 + Z.of_nat n) 0 0 [].

(** The answer to the retry that follows a first answer: the fetch after
    the next one (the sleep in between does not touch the network). *)
Definition retryAnswer (w : World) (r : Request) : Outcome := net w (S (nfetch w)) r.

(** The response a registration prober bases its verdict on: the first
    one, or the retry when the first is a 429. *)
Definition deciding (w : World) (d : string) : Outcome :=
  match answer w (rdapRequest d) with
  | Responds r =>
      if Response.status r =? 429 then retryAnswer w (rdapRequest d)
      else Responds r
  | Rejects e => Rejects e
  end.

(** [200 <= s < 400] *)
Definition inRange (s : Z) : bool := (200 <=? s) && (s <? 400).

(** What a per-scheme attempt returns when the last response has status
    [s]. *)
Definition answered (p : Protocol) (u : string) (s : Z) : Website.t :=
  Website.mk (inRange s) (Some p) (Some s) (Some u) None.

(** A per-scheme attempt of one of the two website probers, with the
    HEAD request it starts with and the GET request it may go on with. *)
Record Attempt := mkAttempt {
  tryOnce : string -> Protocol -> IO Website.t;
  headOf : string -> Protocol -> Request;
  getOf : string -> Protocol -> Request;
  failed : string -> Protocol -> JsError -> Website.t
}.

Definition cronUrl (d : string) (p : Protocol) : string :=
  protoString p +:+ "://" +:+ d.

Definition scriptUrl (d : string) (p : Protocol) : string :=
  protoString p +:+ "://" +:+ d +:+ "/".

Definition cronAttempt : Attempt :=
  mkAttempt Cron.tryOnce
    (fun d p => mkRequest (cronUrl d p) HEAD 5000)
    (fun d p => mkRequest (cronUrl d p) GET 5000)
    (fun d p e =>
       Website.mk false None None (Some (cronUrl d p))
         (Some (if String.eqb (name e) "AbortError" then "timeout"%string else message e))).

Definition scriptAttempt : Attempt :=
  mkAttempt Script.tryOnce
    (fun d p => mkRequest (scriptUrl d p) HEAD 6000)
    (fun d p => mkRequest (scriptUrl d p) GET 8000)
    (fun d p e =>
       Website.mk false None None (Some (scriptUrl d p)) (Some (Script.errorText e))).

(** The response an attempt ends with: the answer to its HEAD request,
    or, when that answer has status 403 or 405, the answer to the GET
    request that follows. *)
Definition finalOutcome (a : Attempt) (d : string) (p : Protocol) (w : World) : Outcome :=
  match answer w (headOf a d p) with
  | Responds r =>
      if (Response.status r =? 405) || (Response.status r =? 403)
      then retryAnswer w (getOf a d p)
      else Responds r
  | Rejects e => Rejects e
  end.

(** What a run has added to the trace. *)
Definition sentSince (w w' : World) : list IOEvent :=
  drop (length (trace w)) (trace w').

Import History.

(** The pruning filter can date an element: the element is not [null]
    (reading [event.date] would raise) and its [date] is no object or
    array whose string conversion raises. *)
Definition datable (event : json) : bool :=
  match event with
  | JNull => false
  | _ => match optProp (Some event) "date" with
         | Some v => negb (conversionRaises v)
         | None => true
         end
  end.

Definition datableEvents (evs : list json) : Prop :=
  Forall (fun e => datable e = true) evs.

(** The time value of [new Date(event.date)] for an element, [None] when
    the date is invalid or cannot be made. *)
Definition eventTime (rt : Runtime) (event : json) : option Z :=
  match dateValue rt (optProp (Some event) "date") with
  | Val t => t
  | Throw _ => None
  end.

(** The verdict of the pruning filter on an element it can date. *)
Definition withinWindow (rt : Runtime) (cutoff : Z) (event : json) : bool :=
  match eventTime rt event with
  | Some t => cutoff <=? t
  | None => false
  end.

(** The entry that the reconciler stores in [lastState]. *)
Definition stateEntry (currentStatus : string) : json :=
  JObj [("status", JStr currentStatus)].

(** Records of the same domain carry the same derived status (so it is
    when no domain occurs twice). *)
Definition oneStatusPerDomain (results : list DomainRecord) : Prop :=
  forall r1 r2, In r1 results -> In r2 results ->
    domain r1 = domain r2 -> currentStatusOf r1 = currentStatusOf r2.

(** The entry that a run stores in [lastState] under a name reaches the
    file: [history] is no array, and [lastState] is an object and the
    name is not [__proto__] (or the object has an own property of that
    name), or [lastState] is an array and the name is an array index. *)
Definition keepsName (file : HistoryFile) (d : string) : bool :=
  match holderOf file with
  | JArr _ => false
  | _ =>
      match stateHolderOf file with
      | PlainObject own => own || negb (String.eqb d "__proto__")
      | ArrayObject _ =>
          match arrayIndex d with
          | Some _ => true
          | None => false
          end
      end
  end.

(** A history file as the script writes it when it starts without one:
    [history] is an object, and [lastState] an object without an own
    property called [__proto__]; so it is when there is no file. *)
Definition plainFile (file : HistoryFile) : Prop :=
  (exists fs, holderOf file = JObj fs) /\ stateHolderOf file = PlainObject false.

(** Three runs in a row, each on a snapshot of one record, the first one
    without a history file, the next ones on the file the run before has
    written: the history at the end of the third run and the number of
    events the three runs have appended. *)
Definition threeRuns (rt : Runtime) (r1 r2 r3 : DomainRecord)
  (now1 later1 now2 later2 now3 later3 : Z) : Res (HistoryDoc * nat) :=
  let+ run1 := reconcileFile rt Missing [r1] now1 later1 in
  let file2 := nextFile Missing run1.1 in
  let+ run2 := reconcileFile rt file2 [r2] now2 later2 in
  let file3 := nextFile file2 run2.1 in
  let+ run3 := reconcileFile rt file3 [r3] now3 later3 in
  Val (run3.1, (run1.2 + run2.2 + run3.2)%nat).

(** A record as the scan loop of this revision pushes it. *)
Definition recordOf (d : string) (reg : bool) (ws : Website.t) (t : Z) : DomainRecord :=
  mkRecord d None reg ws t.

(** A runtime in UTC that parses no date format of its own. *)
Definition utc : Runtime := utcRuntime (fun _ => None).

(** 2025-11-02T00:00:00.000Z *)
Definition sampleNow : Z := 1762041600000.

(** A history file with one event a year and a millisecond old, one event
    a second younger than a year, and the last state of one domain. *)
Definition sampleFile : HistoryFile :=
  Content (Val (JObj
    [("events", JArr
        [mkEvent (sampleNow - 365 * 86400000 - 1) "a.ch" "available" JNull;
         mkEvent (sampleNow - 365 * 86400000 + 1000) "b.ch" "available" JNull]);
     ("lastState", JObj [("a.ch", stateEntry "available");
                         ("b.ch", stateEntry "available")])])).

(** The [lastState] of the file takes the entry of every record: it is
    no array, or no record is named [length]. *)
Definition takesEntries (file : HistoryFile) (results : list DomainRecord) : bool :=
  negb (existsb (fun entry => refuses (stateHolderOf file) (domain entry)) results).

(** Daylight-saving time in Switzerland in 2025 and 2026: from
    2025-03-30T01:00Z to 2025-10-26T01:00Z and from 2026-03-29T01:00Z to
    2026-10-25T01:00Z. *)
Definition summerTime (t : Z) : bool :=
  ((1743296400000 <=? t) && (t <? 1761440400000))
  || ((1774746000000 <=? t) && (t <? 1792890000000)).

(** The time zone Europe/Zurich for the time values of 2025 and 2026:
    UTC+2 in summer, UTC+1 otherwise; a local time that a change of the
    clock skips or repeats is read with the offset before the change. *)
Definition zurich : Runtime :=
  mkRuntime (fun t => if summerTime t then 7200000 else 3600000)
            (fun local => if summerTime (local - 7200000) then 7200000 else 3600000)
            (fun _ => None).

(** 2026-03-29T12:00:00.000Z, 14:00 in Zurich on the day the clocks went
    forward. *)
Definition springNow : Z := 1774785600000.

(** A history file with one event, 365 days less one second older than
    [springNow]. *)
Definition springFile : HistoryFile :=
  Content (Val (JObj
    [("events", JArr [mkEvent (springNow - (365 * 86400000 - 1000))
                        "a.ch" "available" JNull]);
     ("lastState", JObj [("a.ch", stateEntry "available")])])).

(** A history file whose [events] array holds a [null]. *)
Definition nullEventFile : HistoryFile :=
  Content (Val (JObj [("events", JArr [JNull])])).

(** The UTF-8 bytes of every domain of a list, [None] when one of them
    holds a lone surrogate. *)
Fixpoint utf8All (domains : list Js.str) : option (list string) :=
  match domains with
  | [] => Some []
  | u :: rest =>
      match Js.utf8 u, utf8All rest with
      | Some d, Some ds => Some (d :: ds)
      | _, _ => None
      end
  end.

(** The pacing sleep between two domains. *)
Definition isPacing (e : IOEvent) : bool :=
  match e with
  | EvSleep ms => ms =? 150
  | EvFetch _ => false
  end.

(** From [w] to [w'] the trace has grown by events of which [n] are
    pacing sleeps. *)
Definition paced (n : nat) (w w' : World) : Prop :=
  exists l, trace w' = trace w ++ l /\ length (List.filter isPacing l) = n.

(** The first answer is a 429. *)
Definition rateLimited (o : Outcome) : bool :=
  match o with
  | Responds r => Response.status r =? 429
  | Rejects _ => false
  end.

(** Every character of a string passes a test. *)
Fixpoint allChars (P : ascii -> bool) (s : string) : bool :=
  match s with
  | EmptyString => true
  | String c rest => P c && allChars P rest
  end.

(** A character that [encodeURIComponent] can put out: an unreserved one
    or the percent sign. *)
Definition urlSafe (c : ascii) : bool := uriUnreserved c || Ascii.eqb c "%".

Definition notDot (c : ascii) : bool := negb (Ascii.eqb c ".").

Definition notUpper (c : ascii) : bool := negb (between "A" "Z" c).

(** A byte of an ASCII character. *)
Definition isAscii (c : ascii) : bool := (N_of_ascii c <? 128)%N.

(** What is known of [toLowerCase] without the Unicode tables: on a
    string of ASCII characters it lowers the letters [A] to [Z] and keeps
    the rest. *)
Definition lowersAscii (toLowerCase : string -> string) : Prop :=
  forall s, allChars isAscii s = true -> toLowerCase s = asciiLowerCase s.

(** The value of a hexadecimal digit as [hexDigit] writes it. *)
Definition hexValue (c : ascii) : N :=
  if between "0" "9" c then N_of_ascii c - 48 else N_of_ascii c - 55.

(** The last record of a snapshot for a domain. *)
Definition lastRecordOf (d : string) (results : list DomainRecord) : option DomainRecord :=
  last (List.filter (fun r => String.eqb (domain r) d) results).

(** [event.domain] of an element of [events]. *)
Definition eventDomain (event : json) : option json := optProp (Some event) "domain".

Definition notComma (c : ascii) : bool := negb (Ascii.eqb c ",").

Definition notLF (c : ascii) : bool := negb (Ascii.eqb c LF).

Definition notCR (c : ascii) : bool := negb (Ascii.eqb c CR).

(** A line of the domains file that [loadDomains] keeps, once trimmed. *)
Definition isDomainLine (l : string) : bool := nonEmpty l && negb (startsWithHash l).

(** The number of bytes of the white space code point in front of a byte
    sequence, 0 when there is none; [backwards] as for [skipSpace]. *)
Definition spaceAhead (backwards : bool) (l : list ascii) : nat :=
  match l with
  | [] => 0
  | c1 :: r1 =>
      if asciiSpace c1 then 1
      else
        match r1 with
        | [] => 0
        | c2 :: r2 =>
            if (if backwards then space2 c2 c1 else space2 c1 c2) then 2
            else
              match r2 with
              | [] => 0
              | c3 :: _ =>
                  if (if backwards then space3 c3 c2 c1 else space3 c1 c2 c3)
                  then 3 else 0
              end
        end
  end%nat.

(** A string neither starts nor ends with white space. *)
Definition noSpaceAtEnds (s : string) : Prop :=
  spaceAhead false (list_ascii_of_string s) = 0%nat /\
  spaceAhead true (rev (list_ascii_of_string s)) = 0%nat.

(** ** Steps of the world *)

Lemma fetch_responds (r : Request) (w : World) (res : Response.t) :
  answer w r = Responds res -> fetch r w = (Val res, sent w r).
Proof. intros H. unfold fetch. now rewrite H. Qed.

Lemma fetch_rejects (r : Request) (w : World) (e : JsError) :
  answer w r = Rejects e -> fetch r w = (Throw e, sent w r).
Proof. intros H. unfold fetch. now rewrite H. Qed.

Lemma answer_after_sleep (w : World) (r r' : Request) (ms : Z) :
  answer (slept (sent w r') ms) r = retryAnswer w r.
Proof. reflexivity. Qed.

Lemma answer_after_sent (w : World) (r r' : Request) :
  answer (sent w r') r = retryAnswer w r.
Proof. reflexivity. Qed.

(** ** Registration prober *)

(** The cron prober after a first 429: one sleep of 2000 ms, one more
    lookup, and the verdict read off the retry. *)
Lemma cron_retry (d : string) (w : World) :
  answer w (rdapRequest d) = replies 429 ->
  Cron.isRegistered d w =
    (Val match retryAnswer w (rdapRequest d) with
         | Responds r => (Response.status r =? 200) || (Response.status r =? 404)
         | Rejects _ => false
         end,
     sent (slept (sent w (rdapRequest d)) 2000) (rdapRequest d)).
Proof.
  intros H1.
  unfold Cron.isRegistered, Cron.fetchWithTimeout, Cron.rdapUrl, try_catch, bind.
  fold (rdapRequest d).
  rewrite (fetch_responds _ _ _ H1). cbn [Response.status replies].
  change (429 =? 200) with false. change (429 =? 404) with false.
  change (429 =? 429) with true. cbv beta iota.
  unfold sleep, fetch. rewrite answer_after_sleep.
  destruct (retryAnswer w (rdapRequest d)); reflexivity.
Qed.

(** The script prober after a first 429: one sleep of 1000 ms, one more
    lookup, and the usual reading of the retry. *)
Lemma script_retry (d : string) (w : World) :
  answer w (rdapRequest d) = replies 429 ->
  Script.isRegistered d w =
    (Val match retryAnswer w (rdapRequest d) with
         | Responds r => (Response.status r =? 200) || (Response.status r =? 401)
         | Rejects _ => false
         end,
     sent (slept (sent w (rdapRequest d)) 1000) (rdapRequest d)).
Proof.
  intros H1.
  unfold Script.isRegistered, Script.fetchWithTimeout, Script.rdapUrl, try_catch, bind.
  fold (rdapRequest d).
  rewrite (fetch_responds _ _ _ H1). cbn [Response.status replies].
  change (429 =? 429) with true. cbv beta iota.
  unfold sleep, fetch. rewrite answer_after_sleep.
  destruct (retryAnswer w (rdapRequest d)) as [r|e]; [|reflexivity].
  destruct ((Response.status r =? 200) || (Response.status r =? 401)); [reflexivity|].
  destruct (Response.status r =? 404); reflexivity.
Qed.

(** Without a 429 the probers send one lookup and stop. *)
Lemma cron_direct (d : string) (w : World) :
  (forall r, answer w (rdapRequest d) = Responds r -> Response.status r <> 429) ->
  Cron.isRegistered d w =
    (Val match answer w (rdapRequest d) with
         | Responds r => Response.status r =? 200
         | Rejects _ => false
         end,
     sent w (rdapRequest d)).
Proof.
  intros H1.
  unfold Cron.isRegistered, Cron.fetchWithTimeout, Cron.rdapUrl, try_catch, bind.
  fold (rdapRequest d). unfold fetch.
  destruct (answer w (rdapRequest d)) as [r|e]; [|reflexivity].
  specialize (H1 r eq_refl).
  destruct (Response.status r =? 200); [reflexivity|].
  destruct (Response.status r =? 404); [reflexivity|].
  destruct (Z.eqb_spec (Response.status r) 429); [contradiction|reflexivity].
Qed.

Lemma script_direct (d : string) (w : World) :
  (forall r, answer w (rdapRequest d) = Responds r -> Response.status r <> 429) ->
  Script.isRegistered d w =
    (Val match answer w (rdapRequest d) with
         | Responds r => (Response.status r =? 200) || (Response.status r =? 401)
         | Rejects _ => false
         end,
     sent w (rdapRequest d)).
Proof.
  intros H1.
  unfold Script.isRegistered, Script.fetchWithTimeout, Script.rdapUrl, try_catch, bind.
  fold (rdapRequest d). unfold fetch.
  destruct (answer w (rdapRequest d)) as [r|e]; [|reflexivity].
  specialize (H1 r eq_refl).
  destruct (Z.eqb_spec (Response.status r) 429); [contradiction|]. unfold ret.
  destruct ((Response.status r =? 200) || (Response.status r =? 401)); [reflexivity|].
  destruct (Response.status r =? 404); reflexivity.
Qed.

(** C1 (amended): when the first RDAP lookup is answered 429, either
    prober sleeps its fixed backoff (2000 ms in the cron handler, 1000 ms
    in the script), sends the same lookup exactly once more and returns a
    boolean.  A retry status of 200 yields [true]; 401 yields [true] in
    the script and [false] in the cron handler; 404 yields [false] in the
    script; every other retry outcome (another status, a timeout, a
    network error) yields [false] in both. *)
Theorem retry_once_after_429 (d : string) (w : World) :
  answer w (rdapRequest d) = replies 429 ->
  let retry := retryAnswer w (rdapRequest d) in
  let cron := Cron.isRegistered d w in
  let script := Script.isRegistered d w in
  (exists b, cron.1 = Val b) /\
  trace cron.2 =
    trace w ++ [EvFetch (rdapRequest d); EvSleep 2000; EvFetch (rdapRequest d)] /\
  (exists b, script.1 = Val b) /\
  trace script.2 =
    trace w ++ [EvFetch (rdapRequest d); EvSleep 1000; EvFetch (rdapRequest d)] /\
  (retry = replies 200 -> cron.1 = Val true /\ script.1 = Val true) /\
  (retry = replies 401 -> cron.1 = Val false /\ script.1 = Val true) /\
  (retry = replies 404 -> script.1 = Val false) /\
  ((forall s, retry = replies s -> s <> 200 /\ s <> 401 /\ s <> 404) ->
   cron.1 = Val false /\ script.1 = Val false).
Proof.
  intros H1 retry cron script. subst cron script.
  rewrite (cron_retry d w H1), (script_retry d w H1). fold retry.
  cbn [fst snd trace sent slept].
  repeat rewrite <- app_assoc. cbn [app].
  split; [eauto|]. split; [reflexivity|].
  split; [eauto|]. split; [reflexivity|].
  split; [now intros ->|]. split; [now intros ->|]. split; [now intros ->|].
  intros Hother.
  destruct retry as [[s]|e]; [|now split].
  destruct (Hother s eq_refl) as (N200 & N401 & N404). cbn [Response.status].
  apply Z.eqb_neq in N200, N401, N404. now rewrite N200, N401, N404.
Qed.

Lemma retry_once_after_429_witness :
  answer (startWorld [replies 429; replies 404]) (rdapRequest "pff27.ch") = replies 429 /\
  (Script.isRegistered "pff27.ch" (startWorld [replies 429; replies 404])).1 = Val false.
Proof.
  split; [reflexivity|].
  destruct (retry_once_after_429 "pff27.ch" (startWorld [replies 429; replies 404]) eq_refl)
    as (_ & _ & _ & _ & _ & _ & H404 & _).
  apply H404. reflexivity.
Defined.

(** C1 as stated fails: in the script a retry answered 401, which is
    neither 200 nor 404, yields [true]. *)
Lemma retry_401_registered_in_script :
  answer (startWorld [replies 429; replies 401]) (rdapRequest "pff27.ch") = replies 429 /\
  retryAnswer (startWorld [replies 429; replies 401]) (rdapRequest "pff27.ch") = replies 401 /\
  (Script.isRegistered "pff27.ch" (startWorld [replies 429; replies 401])).1 = Val true.
Proof. repeat split; vm_compute; reflexivity. Qed.

(** The cron handler reads a retry answered 404 as registered, although a
    first answer of 404 means available. *)
Example cron_retry_404 :
  (Cron.isRegistered "pff27.ch" (startWorld [replies 429; replies 404])).1 = Val true /\
  (Cron.isRegistered "pff27.ch" (startWorld [replies 404])).1 = Val false.
Proof. split; vm_compute; reflexivity. Qed.

(** C10 (amended): on the same answers the two registration probers
    return the same boolean, as long as the response that decides (the
    first one, or the retry after a 429) is not a 401 and the retry is
    not a 404. *)
Theorem probers_agree (d : string) (w : World) :
  deciding w d <> replies 401 ->
  (answer w (rdapRequest d) = replies 429 ->
   retryAnswer w (rdapRequest d) <> replies 404) ->
  (Cron.isRegistered d w).1 = (Script.isRegistered d w).1.
Proof.
  intros Hdec Hretry. unfold deciding in Hdec.
  destruct (answer w (rdapRequest d)) as [[s]|e] eqn:Hfirst.
  - cbn [Response.status] in Hdec.
    destruct (Z.eqb_spec s 429) as [->|Hne].
    + rewrite (cron_retry d w Hfirst), (script_retry d w Hfirst). cbn [fst].
      specialize (Hretry eq_refl).
      destruct (retryAnswer w (rdapRequest d)) as [[s']|e]; [|reflexivity].
      cbn [Response.status]. f_equal.
      destruct (Z.eqb_spec s' 200) as [->|?]; [reflexivity|].
      destruct (Z.eqb_spec s' 404) as [->|?]; [now contradiction Hretry|].
      destruct (Z.eqb_spec s' 401) as [->|?]; [now contradiction Hdec|].
      reflexivity.
    + rewrite cron_direct, script_direct.
      * rewrite Hfirst. cbn [fst Response.status]. f_equal.
        destruct (Z.eqb_spec s 401) as [->|?]; [now contradiction Hdec|].
        now rewrite orb_false_r.
      * intros r Hr. rewrite Hfirst in Hr. injection Hr as <-. exact Hne.
      * intros r Hr. rewrite Hfirst in Hr. injection Hr as <-. exact Hne.
  - rewrite cron_direct, script_direct.
    + now rewrite Hfirst.
    + intros r Hr. rewrite Hfirst in Hr. discriminate.
    + intros r Hr. rewrite Hfirst in Hr. discriminate.
Qed.

Lemma probers_agree_witness :
  deciding (startWorld [replies 429; replies 200]) "pff27.ch" <> replies 401 /\
  (Cron.isRegistered "pff27.ch" (startWorld [replies 429; replies 200])).1 =
  (Script.isRegistered "pff27.ch" (startWorld [replies 429; replies 200])).1.
Proof.
  split; [vm_compute; discriminate|].
  apply probers_agree.
  - vm_compute; discriminate.
  - intros _. vm_compute; discriminate.
Defined.

(** C10 as stated fails: a first answer of 401 is registered for the
    script and not for the cron handler. *)
Lemma probers_differ_on_401 :
  (Cron.isRegistered "pff27.ch" (startWorld [replies 401])).1 = Val false /\
  (Script.isRegistered "pff27.ch" (startWorld [replies 401])).1 = Val true /\
  (Cron.isRegistered "pff27.ch" (startWorld [replies 401])).1 <>
  (Script.isRegistered "pff27.ch" (startWorld [replies 401])).1.
Proof. repeat split; vm_compute; try reflexivity; discriminate. Qed.

(** ** Website prober: one scheme *)

(** Every path of an attempt, for either prober. *)
Lemma tryOnce_paths (a : Attempt) (d : string) (p : Protocol) (w : World) :
  In a [cronAttempt; scriptAttempt] ->
  tryOnce a d p w =
    match answer w (headOf a d p) with
    | Rejects e => (Val (failed a d p e), sent w (headOf a d p))
    | Responds r =>
        if (Response.status r =? 405) || (Response.status r =? 403)
        then match retryAnswer w (getOf a d p) with
             | Rejects e =>
                 (Val (failed a d p e), sent (sent w (headOf a d p)) (getOf a d p))
             | Responds r' =>
                 (Val (answered p (url (headOf a d p)) (Response.status r')),
                  sent (sent w (headOf a d p)) (getOf a d p))
             end
        else (Val (answered p (url (headOf a d p)) (Response.status r)),
              sent w (headOf a d p))
    end.
Proof.
  intros [<-|[<-|[]]]; cbn [tryOnce headOf getOf failed cronAttempt scriptAttempt url].
  - unfold Cron.tryOnce, Cron.fetchWithTimeout, try_catch, bind. fold (cronUrl d p).
    unfold fetch at 1.
    destruct (answer w _) as [r|e].
    + destruct ((Response.status r =? 405) || (Response.status r =? 403)).
      * unfold fetch. rewrite answer_after_sent.
        destruct (retryAnswer w _) as [r'|e]; [reflexivity|].
        destruct (String.eqb (name e) "AbortError"); reflexivity.
      * reflexivity.
    + destruct (String.eqb (name e) "AbortError"); reflexivity.
  - unfold Script.tryOnce, Script.fetchWithTimeout, try_catch, bind. fold (scriptUrl d p).
    unfold fetch at 1.
    destruct (answer w _) as [r|e]; [|reflexivity].
    destruct ((Response.status r =? 405) || (Response.status r =? 403)); [|reflexivity].
    unfold fetch. rewrite answer_after_sent.
    destruct (retryAnswer w _) as [r'|e]; reflexivity.
Qed.

Lemma inRange_spec (s : Z) : inRange s = true <-> 200 <= s < 400.
Proof. unfold inRange. rewrite andb_true_iff, Z.leb_le, Z.ltb_lt. tauto. Qed.

Lemma answered_present (p : Protocol) (u : string) (s : Z) :
  Website.present (answered p u s) = true <->
  exists c, Website.status (answered p u s) = Some c /\ 200 <= c < 400.
Proof.
  cbn [answered Website.present Website.status]. rewrite inRange_spec. split.
  - intros H. now exists s.
  - intros (c & [= <-] & H). exact H.
Qed.

Lemma failed_absent (a : Attempt) (d : string) (p : Protocol) (e : JsError) :
  In a [cronAttempt; scriptAttempt] ->
  Website.present (failed a d p e) = false /\ Website.status (failed a d p e) = None.
Proof. intros [<-|[<-|[]]]; split; reflexivity. Qed.

(** An attempt never throws, and [present] says that the final status
    is in [200, 400). *)
Lemma tryOnce_present (a : Attempt) (d : string) (p : Protocol) (w : World) :
  In a [cronAttempt; scriptAttempt] ->
  exists r, (tryOnce a d p w).1 = Val r /\
    (Website.present r = true <->
     exists c, Website.status r = Some c /\ 200 <= c < 400).
Proof.
  intros Ha. rewrite (tryOnce_paths a d p w Ha).
  assert (Hfail : forall e,
    Website.present (failed a d p e) = true <->
    exists c, Website.status (failed a d p e) = Some c /\ 200 <= c < 400).
  { intros e. destruct (failed_absent a d p e Ha) as [-> ->]. split.
    - discriminate.
    - intros (c & [=] & _). }
  destruct (answer w _) as [r|e].
  - destruct ((Response.status r =? 405) || (Response.status r =? 403)).
    + destruct (retryAnswer w _) as [r'|e]; eexists; split;
        try reflexivity; cbn [fst]; auto using answered_present.
    + eexists; split; [reflexivity|]. apply answered_present.
  - eexists; split; [reflexivity|]. apply Hfail.
Qed.

(** The result of an attempt is read off the response it ends with. *)
Lemma tryOnce_final (a : Attempt) (d : string) (p : Protocol) (w : World) :
  In a [cronAttempt; scriptAttempt] ->
  (tryOnce a d p w).1 =
    Val match finalOutcome a d p w with
        | Responds res => answered p (url (headOf a d p)) (Response.status res)
        | Rejects e => failed a d p e
        end.
Proof.
  intros Ha. rewrite (tryOnce_paths a d p w Ha). unfold finalOutcome.
  destruct (answer w (headOf a d p)) as [r|e]; [|reflexivity].
  destruct ((Response.status r =? 405) || (Response.status r =? 403)); [|reflexivity].
  now destruct (retryAnswer w (getOf a d p)).
Qed.

(** C7: in either prober, when the HEAD request of an attempt is answered
    403 or 405, the same URL is fetched again with GET, nothing else is
    sent, and the status of the GET response is the status of the result.
    For every attempt, the result is read off the response the attempt
    ends with (the GET response after a 403 or 405, the HEAD response
    otherwise): the result carries the status code of that response, and
    [present] is true exactly when that code is in [200, 400); when the
    request is not answered, the result carries no status code and
    [present] is false.  So [present] is true exactly when the result
    carries a status code in [200, 400). *)
Theorem head_rejected_then_get (a : Attempt) (d : string) (p : Protocol)
  (w : World) (s s' : Z) :
  In a [cronAttempt; scriptAttempt] ->
  answer w (headOf a d p) = replies s ->
  s = 403 \/ s = 405 ->
  retryAnswer w (getOf a d p) = replies s' ->
  url (getOf a d p) = url (headOf a d p) /\
  method (headOf a d p) = HEAD /\ method (getOf a d p) = GET /\
  trace (tryOnce a d p w).2 =
    trace w ++ [EvFetch (headOf a d p); EvFetch (getOf a d p)] /\
  (exists r, (tryOnce a d p w).1 = Val r /\
     Website.status r = Some s' /\
     Website.present r = inRange s') /\
  (forall (d' : string) (p' : Protocol) (w' : World),
     exists r, (tryOnce a d' p' w').1 = Val r /\
       match finalOutcome a d' p' w' with
       | Responds res =>
           Website.status r = Some (Response.status res) /\
           (Website.present r = true <-> 200 <= Response.status res < 400)
       | Rejects _ => Website.status r = None /\ Website.present r = false
       end /\
       (Website.present r = true <->
        exists c, Website.status r = Some c /\ 200 <= c < 400)).
Proof.
  intros Ha Hhead Hs Hget.
  split; [now destruct Ha as [<-|[<-|[]]]|].
  split; [now destruct Ha as [<-|[<-|[]]]|].
  split; [now destruct Ha as [<-|[<-|[]]]|].
  rewrite (tryOnce_paths a d p w Ha), Hhead, Hget. cbn [replies Response.status].
  replace ((s =? 405) || (s =? 403)) with true
    by (destruct Hs as [-> | ->]; reflexivity).
  cbn [fst snd trace sent]. rewrite <- app_assoc.
  split; [reflexivity|].
  split; [eexists; split; [reflexivity|]; split; reflexivity|].
  intros d' p' w'.
  destruct (tryOnce_present a d' p' w' Ha) as (r & Hr & Hiff).
  exists r. split; [exact Hr|]. split; [|exact Hiff].
  rewrite (tryOnce_final a d' p' w' Ha) in Hr. injection Hr as <-.
  destruct (finalOutcome a d' p' w') as [res|e].
  - cbn [answered Website.status Website.present]. split; [reflexivity|].
    apply inRange_spec.
  - destruct (failed_absent a d' p' e Ha) as [-> ->]. now split.
Qed.

Lemma head_rejected_then_get_witness :
  answer (startWorld [replies 403; replies 200]) (headOf cronAttempt "c.ch" https)
    = replies 403 /\
  retryAnswer (startWorld [replies 403; replies 200]) (getOf cronAttempt "c.ch" https)
    = replies 200 /\
  exists r, (Cron.tryOnce "c.ch" https (startWorld [replies 403; replies 200])).1 = Val r /\
    Website.status r = Some 200 /\ Website.present r = inRange 200.
Proof.
  split; [reflexivity|]. split; [reflexivity|].
  destruct (head_rejected_then_get cronAttempt "c.ch" https
              (startWorld [replies 403; replies 200]) 403 200)
    as (_ & _ & _ & _ & H & _).
  - left; reflexivity.
  - reflexivity.
  - left; reflexivity.
  - reflexivity.
  - exact H.
Defined.

(** An attempt whose HEAD request is answered 500 goes no further and is
    not present, whatever a GET request would have been answered. *)
Example head_500_is_final :
  finalOutcome scriptAttempt "c.ch" https (startWorld [replies 500; replies 200])
    = replies 500 /\
  (Script.tryOnce "c.ch" https (startWorld [replies 500; replies 200])).1
    = Val (answered https "https://c.ch/" 500) /\
  Website.present (answered https "https://c.ch/" 500) = false.
Proof. repeat split; vm_compute; reflexivity. Qed.

(** ** Website prober: choosing between the schemes *)

(** The script returns the https attempt when it is present or carries a
    status code (other than 0), otherwise the http attempt. *)
Lemma script_checkWebsite_choice (d : string) (w : World) :
  exists h h',
    (Script.tryOnce d https w).1 = Val h /\
    (Script.tryOnce d http (Script.tryOnce d https w).2).1 = Val h' /\
    (Script.checkWebsite d w).1 =
      Val (if Website.present h then h
           else if Website.present h' then h'
           else if truthyNum (Website.status h) then h else h').
Proof.
  destruct (tryOnce_present scriptAttempt d https w) as (h & Hh & _);
    [right; left; reflexivity|].
  destruct (tryOnce_present scriptAttempt d http (Script.tryOnce d https w).2)
    as (h' & Hh' & _); [right; left; reflexivity|].
  cbn [tryOnce scriptAttempt] in Hh, Hh'.
  exists h, h'. split; [exact Hh|]. split; [exact Hh'|].
  unfold Script.checkWebsite, bind.
  destruct (Script.tryOnce d https w) as [[r|e] w1]; cbn [fst snd] in *; [|discriminate].
  injection Hh as ->.
  destruct (Website.present h); [reflexivity|].
  destruct (Script.tryOnce d http w1) as [[r'|e] w2]; cbn [fst] in *; [|discriminate].
  injection Hh' as ->.
  destruct (Website.present h'); reflexivity.
Qed.

(** The cron handler returns an attempt only when it is present: once
    both have failed, [best] is an attempt that is not present, and the
    generic result replaces it whatever status it carries. *)
Lemma cron_checkWebsitePresence_choice (d : string) (w : World) :
  exists h h',
    (Cron.tryOnce d https w).1 = Val h /\
    (Cron.tryOnce d http (Cron.tryOnce d https w).2).1 = Val h' /\
    (Cron.checkWebsitePresence d w).1 =
      Val (if Website.present h then h
           else if Website.present h' then h'
           else Cron.notReachable).
Proof.
  destruct (tryOnce_present cronAttempt d https w) as (h & Hh & _);
    [left; reflexivity|].
  destruct (tryOnce_present cronAttempt d http (Cron.tryOnce d https w).2)
    as (h' & Hh' & _); [left; reflexivity|].
  cbn [tryOnce cronAttempt] in Hh, Hh'.
  exists h, h'. split; [exact Hh|]. split; [exact Hh'|].
  unfold Cron.checkWebsitePresence, bind.
  destruct (Cron.tryOnce d https w) as [[r|e] w1]; cbn [fst snd] in *; [|discriminate].
  injection Hh as ->.
  destruct (Website.present h) eqn:Ph; [reflexivity|].
  destruct (Cron.tryOnce d http w1) as [[r'|e] w2]; cbn [fst] in *; [|discriminate].
  injection Hh' as ->.
  destruct (Website.present h') eqn:Ph'; [reflexivity|].
  unfold ret. cbn [fst]. destruct (truthyNum (Website.status h)); now rewrite ?Ph, ?Ph'.
Qed.

(** C2, at the run where it fails: https answers 500 and http cannot be
    reached.  The https attempt carries the status 500, the http attempt
    none; the script returns the https attempt, the cron handler the
    generic result without the status. *)
Theorem cron_discards_https_status :
  (Cron.tryOnce "c.ch" https (startWorld [replies 500])).1
    = Val (answered https "https://c.ch" 500) /\
  (Cron.tryOnce "c.ch" http (Cron.tryOnce "c.ch" https (startWorld [replies 500])).2).1
    = Val (Website.mk false None None (Some "http://c.ch"%string)
             (Some "fetch failed"%string)) /\
  (Cron.checkWebsitePresence "c.ch" (startWorld [replies 500])).1
    = Val (Website.mk false None None None (Some "not reachable"%string)) /\
  (Script.checkWebsite "c.ch" (startWorld [replies 500])).1
    = Val (answered https "https://c.ch/" 500).
Proof. repeat split; vm_compute; reflexivity. Qed.

(** ** Scan loop *)

Lemma cron_isRegistered_world (d : string) (w : World) :
  exists b,
    Cron.isRegistered d w = (Val b, sent w (rdapRequest d)) \/
    Cron.isRegistered d w =
      (Val b, sent (slept (sent w (rdapRequest d)) 2000) (rdapRequest d)).
Proof.
  destruct (answer w (rdapRequest d)) as [[s]|e] eqn:Hfirst.
  - destruct (Z.eqb_spec s 429) as [->|Hne].
    + eexists. right. now apply cron_retry.
    + eexists. left. apply cron_direct. intros r Hr.
      rewrite Hfirst in Hr. now injection Hr as <-.
  - eexists. left. apply cron_direct. intros r Hr.
    rewrite Hfirst in Hr. discriminate.
Qed.

Lemma script_isRegistered_world (d : string) (w : World) :
  exists b,
    Script.isRegistered d w = (Val b, sent w (rdapRequest d)) \/
    Script.isRegistered d w =
      (Val b, sent (slept (sent w (rdapRequest d)) 1000) (rdapRequest d)).
Proof.
  destruct (answer w (rdapRequest d)) as [[s]|e] eqn:Hfirst.
  - destruct (Z.eqb_spec s 429) as [->|Hne].
    + eexists. right. now apply script_retry.
    + eexists. left. apply script_direct. intros r Hr.
      rewrite Hfirst in Hr. now injection Hr as <-.
  - eexists. left. apply script_direct. intros r Hr.
    rewrite Hfirst in Hr. discriminate.
Qed.

Lemma sentSince_app (w w' : World) (l : list IOEvent) :
  trace w' = trace w ++ l -> sentSince w w' = l.
Proof. intros H. unfold sentSince. rewrite H. apply drop_app_length. Qed.

(** A record of the cron loop that is not registered has the default
    website. *)
Lemma cron_scanDomain_absent (lower : string -> string) (d : string) (w : World) (r : DomainRecord) :
  (Cron.scanDomain lower d w).1 = Val r -> registered r = false -> website r = Website.absent.
Proof.
  unfold Cron.scanDomain, bind.
  destruct (Cron.isRegistered d w) as [[[|]|e] w1]; cbn [fst].
  - destruct (Cron.checkWebsitePresence d w1) as [[ws|e] w2]; cbn [fst]; [|discriminate].
    intros [= <-]. discriminate.
  - intros [= <-] _. reflexivity.
  - discriminate.
Qed.

Lemma script_scanDomain_absent (lower : string -> string) (d : string) (w : World) (r : DomainRecord) :
  (Script.scanDomain lower d w).1 = Val r -> registered r = false -> website r = Website.absent.
Proof.
  unfold Script.scanDomain, bind. cbn [newDate].
  destruct (Script.isRegistered d (ticked w)) as [[[|]|e] w1]; cbn [fst].
  - destruct (Script.checkWebsite d w1) as [[ws|e] w2]; cbn [fst]; [|discriminate].
    intros [= <-]. discriminate.
  - intros [= <-] _. reflexivity.
  - discriminate.
Qed.

Lemma cron_scanAll_absent (lower : string -> string) (domains : list string) :
  forall (w : World) (rs : list DomainRecord),
    (Cron.scanAll lower domains w).1 = Val rs ->
    Forall (fun r => registered r = false -> website r = Website.absent) rs.
Proof.
  induction domains as [|d rest IH]; intros w rs; cbn [Cron.scanAll].
  - intros [= <-]. constructor.
  - unfold bind.
    destruct (Cron.scanDomain lower d w) as [[r|e] w1] eqn:Hturn; cbn [fst]; [|discriminate].
    destruct (Cron.scanAll lower rest w1) as [[rs'|e] w2] eqn:Hrest; cbn [fst]; [|discriminate].
    intros [= <-]. constructor.
    + apply (cron_scanDomain_absent lower d w). now rewrite Hturn.
    + apply (IH w1). now rewrite Hrest.
Qed.

Lemma script_scanAll_absent (lower : string -> string) (domains : list string) :
  forall (w : World) (rs : list DomainRecord),
    (Script.scanAll lower domains w).1 = Val rs ->
    Forall (fun r => registered r = false -> website r = Website.absent) rs.
Proof.
  induction domains as [|d rest IH]; intros w rs; cbn [Script.scanAll].
  - intros [= <-]. constructor.
  - unfold bind.
    destruct (Script.scanDomain lower d w) as [[r|e] w1] eqn:Hturn; cbn [fst]; [|discriminate].
    destruct (Script.scanAll lower rest w1) as [[rs'|e] w2] eqn:Hrest; cbn [fst]; [|discriminate].
    intros [= <-]. constructor.
    + apply (script_scanDomain_absent lower d w). now rewrite Hturn.
    + apply (IH w1). now rewrite Hrest.
Qed.

Lemma cron_isRegistered_trace (d : string) (w : World) :
  exists l, trace (Cron.isRegistered d w).2 = trace w ++ l.
Proof.
  destruct (cron_isRegistered_world d w) as (b & [-> | ->]); cbn [snd trace sent slept].
  - eauto.
  - rewrite <- !app_assoc. eauto.
Qed.

Lemma script_isRegistered_trace (d : string) (w : World) :
  exists l, trace (Script.isRegistered d w).2 = trace w ++ l.
Proof.
  destruct (script_isRegistered_world d w) as (b & [-> | ->]); cbn [snd trace sent slept].
  - eauto.
  - rewrite <- !app_assoc. eauto.
Qed.

(** Reading the clock changes neither the verdict of the script's
    registration prober nor what it sends. *)
Lemma script_isRegistered_ticked (d : string) (w : World) :
  (Script.isRegistered d (ticked w)).1 = (Script.isRegistered d w).1 /\
  trace (Script.isRegistered d (ticked w)).2 = trace (Script.isRegistered d w).2.
Proof.
  destruct (answer w (rdapRequest d)) as [[s]|e] eqn:Hfirst.
  - destruct (Z.eqb_spec s 429) as [->|Hne].
    + rewrite (script_retry d w Hfirst), (script_retry d (ticked w) Hfirst). now split.
    + rewrite (script_direct d w), (script_direct d (ticked w)); [now split| |];
        intros r Hr; [change (answer (ticked w) (rdapRequest d))
                        with (answer w (rdapRequest d)) in Hr|];
        rewrite Hfirst in Hr; now injection Hr as <-.
  - rewrite (script_direct d w), (script_direct d (ticked w)); [now split| |];
      intros r Hr; [change (answer (ticked w) (rdapRequest d))
                      with (answer w (rdapRequest d)) in Hr|];
      rewrite Hfirst in Hr; discriminate.
Qed.

(** C8: in the loop of the cron handler and in the loop of the script,
    when the registration prober returns [false] for a domain, the record
    of that domain carries the default website [{present: false}] and the
    turn sends and sleeps nothing beyond what the registration prober did,
    except the pacing sleep of 150 ms: the website prober is not run.  In
    every record of a completed scan, [registered = false] comes with the
    default website.  This holds whatever [toLowerCase] the runtime
    supplies for the [tld] of the record. *)
Theorem unregistered_not_probed (lower : string -> string) (d : string) (w : World) :
  ((Cron.isRegistered d w).1 = Val false ->
   (exists t, (Cron.scanDomain lower d w).1 =
      Val (mkRecord d (Some (tldOf lower d)) false Website.absent t)) /\
   sentSince w (Cron.scanDomain lower d w).2 =
     sentSince w (Cron.isRegistered d w).2 ++ [EvSleep 150]) /\
  ((Script.isRegistered d w).1 = Val false ->
   (exists t, (Script.scanDomain lower d w).1 =
      Val (mkRecord d (Some (tldOf lower d)) false Website.absent t)) /\
   sentSince w (Script.scanDomain lower d w).2 =
     sentSince w (Script.isRegistered d w).2 ++ [EvSleep 150]) /\
  (forall (domains : list string) (w' : World) (rs : list DomainRecord),
     (Cron.scanAll lower domains w').1 = Val rs ->
     Forall (fun r => registered r = false -> website r = Website.absent) rs) /\
  (forall (domains : list string) (w' : World) (rs : list DomainRecord),
     (Script.scanAll lower domains w').1 = Val rs ->
     Forall (fun r => registered r = false -> website r = Website.absent) rs).
Proof.
  split; [|split; [|split]].
  - intros Hreg.
    destruct (cron_isRegistered_trace d w) as (l & Hl).
    unfold Cron.scanDomain, bind.
    destruct (Cron.isRegistered d w) as [v w1]; cbn [fst snd] in *. subst v.
    cbn [ret newDate sleep fst snd]. split; [eauto|].
    rewrite (sentSince_app w w1 l Hl).
    apply sentSince_app. cbn [trace slept ticked]. now rewrite Hl, app_assoc.
  - intros Hreg.
    destruct (script_isRegistered_ticked d w) as (Hv & Ht).
    destruct (script_isRegistered_trace d w) as (l & Hl).
    rewrite Hreg in Hv. rewrite Hl in Ht.
    unfold Script.scanDomain, bind. cbn [newDate].
    destruct (Script.isRegistered d (ticked w)) as [v w1]; cbn [fst snd] in *. subst v.
    cbn [ret sleep fst snd]. split; [eauto|].
    rewrite (sentSince_app w _ l Hl).
    apply sentSince_app. cbn [trace slept]. now rewrite Ht, app_assoc.
  - intros domains w' rs. apply (cron_scanAll_absent lower).
  - intros domains w' rs. apply (script_scanAll_absent lower).
Qed.

Lemma unregistered_not_probed_witness :
  (Cron.isRegistered "a.ch" (startWorld [replies 404])).1 = Val false /\
  sentSince (startWorld [replies 404]) (Cron.scanDomain asciiLowerCase "a.ch" (startWorld [replies 404])).2 =
    sentSince (startWorld [replies 404]) (Cron.isRegistered "a.ch" (startWorld [replies 404])).2
      ++ [EvSleep 150].
Proof.
  split; [reflexivity|].
  destruct (unregistered_not_probed asciiLowerCase "a.ch" (startWorld [replies 404])) as (H & _).
  apply H. reflexivity.
Defined.

(** ** History reconciler: the derived status *)

(** C6: the status the reconciler derives from a record is one of
    ["available"], ["registered"], ["website"]: ["available"] exactly
    when [registered] is false, ["website"] exactly when [registered] and
    [website.present] are true, ["registered"] exactly when [registered]
    is true and [website.present] false; it is the status written into
    [lastState] for the record's domain. *)
Theorem status_is_three_valued (entry : DomainRecord) :
  let s := currentStatusOf entry in
  (s = "available"%string \/ s = "registered"%string \/ s = "website"%string) /\
  (s = "available"%string <-> registered entry = false) /\
  (s = "website"%string <->
     registered entry = true /\ Website.present (website entry) = true) /\
  (s = "registered"%string <->
     registered entry = true /\ Website.present (website entry) = false) /\
  (forall (now : Z) (acc : HistoryDoc * nat),
     lastState (reconcileEntry now acc entry).1 !! domain entry = Some (stateEntry s)).
Proof.
  intros s.
  assert (Hstored : forall (now : Z) (acc : HistoryDoc * nat),
    lastState (reconcileEntry now acc entry).1 !! domain entry = Some (stateEntry s)).
  { intros now acc. cbn [reconcileEntry fst lastState]. apply lookup_insert_eq. }
  revert Hstored. generalize (stateEntry s). subst s. unfold currentStatusOf.
  destruct (registered entry), (Website.present (website entry)); intros j Hstored;
    (split; [auto|]); (split; [split; (discriminate || reflexivity || tauto)|]);
    (split; [split; (discriminate || tauto || (intros [? ?]; discriminate))|]);
    (split; [split; (discriminate || tauto || (intros [? ?]; discriminate))|]);
    exact Hstored.
Qed.

(** ** History reconciler: the loop *)

Lemma reconcileEntry_events (now : Z) (acc : HistoryDoc * nat) (entry : DomainRecord) :
  let prev := prevStatusOf acc.1 (domain entry) in
  let s := currentStatusOf entry in
  (reconcileEntry now acc entry).1.(events) =
    events acc.1 ++
      (if strictNe s prev then [mkEvent now (domain entry) s (orNull prev)] else []) /\
  (reconcileEntry now acc entry).2 =
    (acc.2 + (if strictNe s prev then 1 else 0))%nat /\
  lastState (reconcileEntry now acc entry).1 =
    <[domain entry := stateEntry s]> (lastState acc.1).
Proof.
  cbn zeta. unfold reconcileEntry.
  destruct (strictNe _ _); cbn [fst snd events lastState];
    rewrite ?app_nil_r, ?Nat.add_1_r, ?Nat.add_0_r; repeat split; reflexivity.
Qed.

(** The loop only appends: the events of the history it starts from stay
    in front, each new event is an object dated [now], and [newEvents]
    counts the new events. *)
Lemma loop_appends (rt : Runtime) (now : Z) (results : list DomainRecord) :
  forall acc : HistoryDoc * nat,
  exists new,
    events (fold_left (reconcileEntry now) results acc).1 = events acc.1 ++ new /\
    (fold_left (reconcileEntry now) results acc).2 = (acc.2 + length new)%nat /\
    Forall (fun e => datable e = true /\ eventTime rt e = Some now) new.
Proof.
  induction results as [|entry rest IH]; intros acc; cbn [fold_left].
  - exists []. rewrite app_nil_r. cbn [length]. repeat split; [lia|constructor].
  - destruct (IH (reconcileEntry now acc entry)) as (new & Hev & Hn & Hall).
    destruct (reconcileEntry_events now acc entry) as (Hev1 & Hn1 & _).
    rewrite Hev, Hn, Hev1, Hn1, <- app_assoc.
    eexists. split; [reflexivity|]. split.
    + rewrite length_app. destruct (strictNe _ _); cbn [length]; lia.
    + apply Forall_app. split; [|exact Hall].
      destruct (strictNe _ _); repeat constructor.
Qed.

(** ** History reconciler: pruning *)

Lemma recent_datable (rt : Runtime) (cutoff : Z) (event : json) :
  datable event = true -> recent rt cutoff event = Val (withinWindow rt cutoff event).
Proof.
  unfold datable, recent, withinWindow, eventTime.
  destruct event; try discriminate; cbn [getProp optProp bindR]; try reflexivity.
  destruct (lookupField "date" fields) as [v|]; [|reflexivity].
  intros Hv. apply negb_true_iff in Hv.
  destruct v; cbn [dateValue bindR]; try reflexivity; now rewrite Hv.
Qed.

(** The callback raises on the elements it cannot date, and only on
    them. *)
Lemma recent_not_datable (rt : Runtime) (cutoff : Z) (event : json) :
  datable event = false -> exists e, recent rt cutoff event = Throw e.
Proof.
  unfold datable, recent.
  destruct event; try discriminate; cbn [getProp optProp bindR]; eauto.
  destruct (lookupField "date" fields) as [v|]; [|discriminate].
  intros Hv. apply negb_false_iff in Hv.
  destruct v; try discriminate; cbn [dateValue bindR]; rewrite Hv; eauto.
Qed.

Lemma filterEvents_filter (rt : Runtime) (cutoff : Z) (evs : list json) :
  datableEvents evs ->
  filterEvents rt cutoff evs = Val (List.filter (withinWindow rt cutoff) evs).
Proof.
  induction 1 as [|event rest Hd _ IH]; [reflexivity|].
  cbn [filterEvents List.filter]. rewrite (recent_datable _ _ _ Hd), IH.
  reflexivity.
Qed.

(** When the filter returns, it could date every element. *)
Lemma filterEvents_returns (rt : Runtime) (cutoff : Z) (evs : list json) :
  forall kept, filterEvents rt cutoff evs = Val kept ->
  datableEvents evs /\ kept = List.filter (withinWindow rt cutoff) evs.
Proof.
  induction evs as [|event rest IH]; intros kept; cbn [filterEvents List.filter].
  - intros [= <-]. split; [constructor|reflexivity].
  - destruct (datable event) eqn:Hd.
    + rewrite (recent_datable _ _ _ Hd). cbn [bindR].
      destruct (filterEvents rt cutoff rest) as [kept'|e]; cbn [bindR]; [|discriminate].
      destruct (IH kept' eq_refl) as (Hrest & ->).
      intros [= <-]. split; [now constructor|reflexivity].
    + destruct (recent_not_datable rt cutoff event Hd) as (e & ->). discriminate.
Qed.

Lemma filter_datable (f : json -> bool) (evs : list json) :
  datableEvents evs -> datableEvents (List.filter f evs).
Proof.
  unfold datableEvents. rewrite !List.Forall_forall. intros H e He.
  apply filter_In in He. now apply H.
Qed.

Lemma filter_sublist (f : json -> bool) (evs : list json) :
  sublist (List.filter f evs) evs.
Proof.
  induction evs as [|e rest IH]; cbn [List.filter]; [constructor|].
  destruct (f e); now constructor.
Qed.

(** A run on a file whose [lastState] takes the entries is the
    reconciliation of the history loaded from it. *)
Lemma reconcileFile_taken (rt : Runtime) (file : HistoryFile)
  (results : list DomainRecord) (now later : Z) :
  takesEntries file results = true ->
  reconcileFile rt file results now later =
    reconcile rt results (loadHistory file) now later.
Proof.
  unfold takesEntries, reconcileFile. intros H. apply negb_true_iff in H. now rewrite H.
Qed.

(** When a run returns, the file has taken the entries. *)
Lemma reconcileFile_returns (rt : Runtime) (file : HistoryFile)
  (results : list DomainRecord) (now later : Z) (h : HistoryDoc) (n : nat) :
  reconcileFile rt file results now later = Val (h, n) ->
  takesEntries file results = true /\
  reconcile rt results (loadHistory file) now later = Val (h, n).
Proof.
  unfold takesEntries, reconcileFile.
  destruct (existsb _ results); [discriminate|]. now split.
Qed.

(** C5 (amended): a run on a history file all of whose events can be
    dated, and whose [lastState] takes the entries, returns.  The loop
    leaves the old events in place and appends the new ones, dated [now];
    the events of the result are exactly those of them that the filter
    keeps, that is those whose date is a valid time not before the
    cutoff, in their order.  An event dated before the cutoff is absent,
    an event dated one second after the cutoff is present.  The cutoff is
    the clock reading moved back 365 days on the local calendar: the
    reading less 365 times 86 400 000 ms, corrected by the difference
    between the UTC offset at the reading and the UTC offset of the local
    time 365 days before.  When the two offsets agree, as they always do
    in UTC, an event older than 365 days is absent and an event 365 days
    less one second old is present. *)
Theorem pruning_keeps_last_365_days (rt : Runtime) (results : list DomainRecord)
  (file : HistoryFile) (now later : Z) :
  datableEvents (events (loadHistory file)) ->
  takesEntries file results = true ->
  exists new kept,
    let history := loadHistory file in
    let looped := reconcileLoop now results history in
    let cutoff := cutoffOf rt later in
    let before := offsetOfLocal rt (later + offsetAt rt later - 365 * 86400000) in
    events looped.1 = events history ++ new /\
    looped.2 = length new /\
    Forall (fun e => eventTime rt e = Some now) new /\
    reconcileFile rt file results now later =
      Val (mkHistory kept (lastState looped.1), looped.2) /\
    kept = List.filter (withinWindow rt cutoff) (events history ++ new) /\
    (forall e, In e kept <->
       In e (events history ++ new) /\
       exists t, eventTime rt e = Some t /\ cutoff <= t) /\
    (forall e t, eventTime rt e = Some t -> t < cutoff -> ~ In e kept) /\
    (forall e, In e (events history ++ new) ->
       eventTime rt e = Some (cutoff + 1000) -> In e kept) /\
    sublist kept (events history ++ new) /\
    cutoff = later - 365 * 86400000 + (offsetAt rt later - before) /\
    (before = offsetAt rt later ->
     (forall e t, eventTime rt e = Some t -> t < later - 365 * 86400000 -> ~ In e kept) /\
     (forall e, In e (events history ++ new) ->
        eventTime rt e = Some (later - (365 * 86400000 - 1000)) -> In e kept)) /\
    cutoffOf (utcRuntime (parseDate rt)) later = later - 365 * 86400000.
Proof.
  intros Hold Htakes.
  destruct (loop_appends rt now results (loadHistory file, 0%nat))
    as (new & Hev & Hn & Hnew).
  cbn [fst snd] in Hev, Hn.
  exists new,
    (List.filter (withinWindow rt (cutoffOf rt later)) (events (loadHistory file) ++ new)).
  cbn zeta. unfold reconcileLoop.
  assert (Hin : forall e,
    In e (List.filter (withinWindow rt (cutoffOf rt later))
            (events (loadHistory file) ++ new)) <->
    In e (events (loadHistory file) ++ new) /\
    exists t, eventTime rt e = Some t /\ cutoffOf rt later <= t).
  { intros e. rewrite filter_In. unfold withinWindow.
    destruct (eventTime rt e) as [t|].
    - rewrite Z.leb_le. split.
      + intros [? ?]. eauto.
      + intros (? & t' & [= <-] & ?). auto.
    - split; [intros [_ [=]]|intros (_ & t & [=] & _)]. }
  assert (Hcut : cutoffOf rt later =
    later - 365 * 86400000 +
    (offsetAt rt later - offsetOfLocal rt (later + offsetAt rt later - 365 * 86400000))).
  { unfold cutoffOf, msPerDay. lia. }
  split; [exact Hev|]. split; [exact Hn|].
  split; [eapply Forall_impl; [exact Hnew|]; now intros e [_ He]|].
  split.
  { rewrite (reconcileFile_taken _ _ _ _ _ Htakes).
    unfold reconcile, reconcileLoop. rewrite Hev, filterEvents_filter; [reflexivity|].
    apply Forall_app. split; [exact Hold|].
    eapply Forall_impl; [exact Hnew|]. now intros e [He _]. }
  split; [reflexivity|]. split; [exact Hin|]. split.
  { intros e t Ht Hlt He. apply Hin in He as (_ & t' & Ht' & Hle).
    rewrite Ht in Ht'. injection Ht' as <-. lia. }
  split.
  { intros e He Ht. apply Hin. split; [exact He|]. eexists. split; [exact Ht|]. lia. }
  split; [apply filter_sublist|].
  split; [exact Hcut|]. split.
  { intros Hsame. rewrite Hsame in Hcut. split.
    - intros e t Ht Hlt He. apply Hin in He as (_ & t' & Ht' & Hle).
      rewrite Ht in Ht'. injection Ht' as <-. lia.
    - intros e He Ht. apply Hin. split; [exact He|].
      eexists. split; [exact Ht|]. lia. }
  unfold cutoffOf, utcRuntime, msPerDay. cbn [offsetAt offsetOfLocal]. lia.
Qed.

Lemma pruning_keeps_last_365_days_witness :
  datableEvents (events (loadHistory sampleFile)) /\
  takesEntries sampleFile [recordOf "a.ch" true Website.absent sampleNow] = true /\
  exists new kept,
    reconcileFile utc sampleFile [recordOf "a.ch" true Website.absent sampleNow]
      sampleNow (sampleNow + 5) =
    Val (mkHistory kept
           (lastState (reconcileLoop sampleNow
                         [recordOf "a.ch" true Website.absent sampleNow]
                         (loadHistory sampleFile)).1),
         length new) /\
    kept = List.filter (withinWindow utc (cutoffOf utc (sampleNow + 5)))
             (events (loadHistory sampleFile) ++ new).
Proof.
  assert (Hnn : datableEvents (events (loadHistory sampleFile)))
    by (repeat constructor).
  split; [exact Hnn|]. split; [reflexivity|].
  destruct (pruning_keeps_last_365_days utc
              [recordOf "a.ch" true Website.absent sampleNow]
              sampleFile sampleNow (sampleNow + 5) Hnn eq_refl)
    as (new & kept & _ & Hn & _ & Hrun & Hkept & _).
  exists new, kept. rewrite <- Hn. split; [exact Hrun|exact Hkept].
Defined.

(** C5 as stated fails: in Zurich at 14:00 on 2026-03-29, the day the
    clocks went forward, the cutoff is 14:00 local time on 2025-03-29,
    which is 365 days less one hour before the reading.  An event 365
    days less one second old is dated before the cutoff and is pruned. *)
Lemma event_inside_365_days_is_pruned :
  cutoffOf zurich springNow = springNow - 365 * 86400000 + 3600000 /\
  events (loadHistory springFile) =
    [mkEvent (springNow - (365 * 86400000 - 1000)) "a.ch" "available" JNull] /\
  eventTime zurich (mkEvent (springNow - (365 * 86400000 - 1000)) "a.ch" "available" JNull)
    = Some (springNow - (365 * 86400000 - 1000)) /\
  exists h, reconcileFile zurich springFile [] springNow springNow = Val (h, 0%nat) /\
    events h = [].
Proof.
  split; [vm_compute; reflexivity|]. split; [reflexivity|]. split; [reflexivity|].
  eexists. split; [vm_compute; reflexivity|]. reflexivity.
Qed.

(** The same run, evaluated: the event a year and a millisecond old is
    gone, the one a second younger than a year stays, followed by the new
    event. *)
Example pruning_sample :
  reconcile utc [recordOf "a.ch" true Website.absent sampleNow]
    (loadHistory sampleFile) sampleNow sampleNow =
  Val (mkHistory
         [mkEvent (sampleNow - 365 * 86400000 + 1000) "b.ch" "available" JNull;
          mkEvent sampleNow "a.ch" "registered" (JStr "available")]
         (<["a.ch" := stateEntry "registered"]>
            (<["b.ch" := stateEntry "available"]>
               (<["a.ch" := stateEntry "available"]> ∅))),
       1%nat).
Proof. vm_compute. reflexivity. Qed.

(** ** History reconciler: the history file *)

(** A file that is missing, cannot be read or is no JSON gives the empty
    history, and so does every JSON value that is neither an object nor
    an array: on [null] reading [history.events] raises, on a number, a
    boolean or a string the repair [history.events = []] raises, and the
    [catch] resets the history. *)
Lemma loadHistory_resets (f : HistoryFile) :
  match f with
  | Missing | Unreadable _ | Content (Throw _) => True
  | Content (Val (JObj _)) => False
  | Content (Val _) => True
  end ->
  loadHistory f = emptyHistory.
Proof. destruct f as [|e|[[]|e]]; intros H; try reflexivity. contradiction. Qed.

(** On an object the two properties are repaired one by one: [events]
    is kept when it is an array, [lastState] when it is an object or an
    array, and each is replaced by its empty default otherwise. *)
Lemma loadHistory_repairs (fs : list (string * json)) :
  loadHistory (Content (Val (JObj fs))) =
    mkHistory
      (match lookupField "events" fs with Some (JArr items) => items | _ => [] end)
      (match lookupField "lastState" fs with
       | Some (JObj members) => objectView (Some (JObj members))
       | Some (JArr items) => objectView (Some (JArr items))
       | _ => ∅
       end).
Proof.
  unfold loadHistory, adopt. cbn [bindR getProp setProp].
  destruct (lookupField "events" fs) as [[]|]; cbn [isArray negb itemsOf bindR];
    destruct (lookupField "lastState" fs) as [[]|];
    cbn [truthy typeofObject negb orb bindR];
    repeat match goal with
           | |- context [negb ?b] => destruct b; cbn [negb orb bindR]
           end;
    reflexivity.
Qed.

(** Reconciliation returns when every event of the history can be dated. *)
Lemma reconcile_returns (rt : Runtime) (results : list DomainRecord)
  (history : HistoryDoc) (now later : Z) :
  datableEvents (events history) ->
  let looped := reconcileLoop now results history in
  reconcile rt results history now later =
    Val (mkHistory (List.filter (withinWindow rt (cutoffOf rt later)) (events looped.1))
           (lastState looped.1),
         looped.2).
Proof.
  intros Hold looped. subst looped. unfold reconcile, reconcileLoop.
  destruct (loop_appends rt now results (history, 0%nat)) as (new & Hev & _ & Hnew).
  rewrite filterEvents_filter; [reflexivity|].
  rewrite Hev. apply Forall_app. split; [exact Hold|].
  eapply Forall_impl; [exact Hnew|]. now intros e [He _].
Qed.

(** After the recovery from a missing, unreadable or unparsable file the
    run goes on and returns. *)
Lemma reconcile_after_reset (rt : Runtime) (results : list DomainRecord)
  (f : HistoryFile) (now later : Z) :
  loadHistory f = emptyHistory ->
  exists h n, reconcile rt results (loadHistory f) now later = Val (h, n).
Proof.
  intros ->. rewrite reconcile_returns; [eauto|]. constructor.
Qed.

(** An object takes every entry. *)
Lemma plain_object_takes_all (own : bool) (results : list DomainRecord) :
  existsb (fun entry => refuses (PlainObject own) (domain entry)) results = false.
Proof. induction results as [|r rest IH]; [reflexivity|exact IH]. Qed.

(** C9, the failing run: [history.json] holds [{"events":[null]}].  The
    file parses, [events] is an array and is kept, the missing
    [lastState] is replaced by [{}]; the loop runs; then the pruning
    filter reads [event.date] on [null] and the [TypeError] leaves
    [main], for every snapshot. *)
Theorem null_event_stops_reconciliation (rt : Runtime) (results : list DomainRecord)
  (now later : Z) (w : World) :
  loadHistory nullEventFile = mkHistory [JNull] ∅ /\
  reconcile rt results (loadHistory nullEventFile) now later =
    Throw (typeError "Cannot read properties of null (reading 'date')") /\
  (updateHistory rt nullEventFile results w).1 =
    Throw (typeError "Cannot read properties of null (reading 'date')").
Proof.
  assert (Hrun : forall now' later',
    reconcile rt results (loadHistory nullEventFile) now' later' =
      Throw (typeError "Cannot read properties of null (reading 'date')")).
  { intros now' later'. unfold reconcile, reconcileLoop.
    destruct (loop_appends rt now' results (loadHistory nullEventFile, 0%nat))
      as (new & Hev & _).
    rewrite Hev. reflexivity. }
  split; [reflexivity|]. split; [apply Hrun|].
  unfold updateHistory, bind. cbn [newDate fst].
  change (stateHolderOf nullEventFile) with (PlainObject false).
  rewrite plain_object_takes_all. apply Hrun.
Qed.

(** ** History reconciler: what is written back *)

Lemma lookupField_snoc (k k' : string) (v : json) (fs : list (string * json)) :
  lookupField k (fs ++ [(k', v)]) = if String.eqb k k' then Some v else lookupField k fs.
Proof.
  induction fs as [|[k0 v0] rest IH]; cbn [app lookupField].
  - now destruct (String.eqb k k').
  - rewrite IH. now destruct (String.eqb k k').
Qed.

(** The map of a parsed object holds, under every name, the member that
    a read finds. *)
Lemma objectView_lookup (fs : list (string * json)) (k : string) :
  objectView (Some (JObj fs)) !! k = lookupField k fs.
Proof.
  cbn [objectView]. induction fs as [|[k' v] rest IH] using rev_ind.
  - apply lookup_empty.
  - rewrite fold_left_app, lookupField_snoc. cbn [fold_left fst snd].
    destruct (String.eqb_spec k k') as [->|Hne].
    + apply lookup_insert_eq.
    + rewrite lookup_insert_ne by congruence. exact IH.
Qed.

Lemma lookupField_NoDup (l : list (string * json)) (k : string) :
  NoDup l.*1 -> lookupField k l = (list_to_map l : gmap string json) !! k.
Proof.
  induction l as [|[k' v] rest IH]; intros Hnd.
  - symmetry. apply lookup_empty.
  - apply NoDup_cons in Hnd as (Hnot & Hnd). cbn [lookupField list_to_map foldr fst snd].
    rewrite (IH Hnd).
    destruct (String.eqb_spec k k') as [->|Hne].
    + rewrite lookup_insert_eq.
      now rewrite (not_elem_of_list_to_map_1 (M := gmap string) rest k' Hnot).
    + rewrite lookup_insert_ne by congruence.
      now destruct (list_to_map rest !! k).
Qed.

Lemma lookupField_to_list (m : gmap string json) (k : string) :
  lookupField k (map_to_list m) = m !! k.
Proof.
  rewrite lookupField_NoDup by apply NoDup_fst_map_to_list.
  now rewrite list_to_map_to_list.
Qed.

(** An object is read back with the properties that were written. *)
Lemma objectView_plain (own : bool) (m : gmap string json) :
  objectView (Some (writtenState (PlainObject own) m)) =
    if own then m else delete "__proto__" m.
Proof.
  apply map_eq. intros k. cbn [writtenState].
  now rewrite objectView_lookup, lookupField_to_list.
Qed.

Lemma list_to_map_imap (l : list json) :
  forall (g : nat -> string) (i : nat),
    Inj (=) (=) g ->
    (list_to_map (imap (fun j v => (g j, v)) l) : gmap string json) !! g i = l !! i.
Proof.
  induction l as [|x rest IH]; intros g i Hg; [apply lookup_empty|].
  cbn [imap list_to_map foldr fst snd]. destruct i as [|i].
  - now rewrite lookup_insert_eq.
  - rewrite lookup_insert_ne by (intros E; apply Hg in E; discriminate).
    apply (IH (g ∘ S) i). intros a b E. apply Hg in E. now injection E.
Qed.

Lemma arrayIndex_pretty (d : string) (n : N) :
  arrayIndex d = Some n -> d = pretty (N.to_nat n).
Proof.
  unfold arrayIndex. destruct d as [|c rest]; [discriminate|].
  destruct (digitsValue 0 (String c rest)) as [k|]; [|discriminate].
  destruct ((k <? 4294967295)%N && String.eqb (pretty k) (String c rest)) eqn:Hk;
    [|discriminate].
  intros [= <-]. apply andb_true_iff in Hk as (_ & Hk). apply String.eqb_eq in Hk.
  rewrite <- Hk. unfold pretty at 2, pretty_nat. now rewrite N2Nat.id.
Qed.

Lemma arrayLength_bound (len : nat) (m : gmap string json) (d : string) (n : N) (v : json) :
  m !! d = Some v -> arrayIndex d = Some n -> (n < arrayLength len m)%N.
Proof.
  intros Hm Hi. apply elem_of_map_to_list in Hm. unfold arrayLength.
  induction (map_to_list m) as [|[k x] rest IH]; [inversion Hm|].
  cbn [foldr fst]. apply elem_of_cons in Hm as [[= <- <-]|Hm].
  - rewrite Hi. lia.
  - specialize (IH Hm). destruct (arrayIndex k); lia.
Qed.

(** An array is read back with the elements that were written: a
    property under an array index is one of them. *)
Lemma objectView_array (len : nat) (m : gmap string json) (d : string) (n : N) (v : json) :
  arrayIndex d = Some n -> m !! d = Some v ->
  objectView (Some (writtenState (ArrayObject len) m)) !! d = Some v.
Proof.
  intros Hi Hm. pose proof (arrayLength_bound len m d n v Hm Hi) as Hlt.
  apply arrayIndex_pretty in Hi. cbn [writtenState objectView]. unfold indexed.
  rewrite Hi at 1. rewrite (list_to_map_imap _ pretty) by apply _.
  rewrite list_lookup_fmap, lookup_seq_lt by lia. cbn. now rewrite <- Hi, Hm.
Qed.

Lemma holderOf_object (fs : list (string * json)) :
  holderOf (Content (Val (JObj fs))) = JObj fs.
Proof.
  unfold holderOf, adopt. cbn [bindR getProp setProp].
  destruct (lookupField "events" fs) as [[]|]; cbn [isArray negb itemsOf bindR];
    destruct (lookupField "lastState" fs) as [[]|];
    cbn [truthy typeofObject negb orb bindR];
    repeat match goal with
           | |- context [negb ?b] => destruct b; cbn [negb orb bindR]
           end;
    reflexivity.
Qed.

(** [history] names an object or an array. *)
Lemma holder_cases (f : HistoryFile) :
  (exists fs, holderOf f = JObj fs) \/ (exists items, holderOf f = JArr items).
Proof.
  destruct f as [|e|[v|e]]; cbn [holderOf]; eauto.
  destruct (adopt (Val v)) eqn:Hv; eauto.
  destruct v; eauto; discriminate.
Qed.

Lemma written_fields (fs : list (string * json)) (ev st : json) :
  lookupField "events" (fs ++ [("events", ev); ("lastState", st)]) = Some ev /\
  lookupField "lastState" (fs ++ [("events", ev); ("lastState", st)]) = Some st.
Proof.
  change [("events"%string, ev); ("lastState"%string, st)]
    with ([("events"%string, ev)] ++ [("lastState"%string, st)]).
  rewrite app_assoc, !lookupField_snoc. split; reflexivity.
Qed.

(** The history that the next run loads from the file written by a run
    whose [history] is an object. *)
Lemma loadHistory_next (f : HistoryFile) (h : HistoryDoc) (fs : list (string * json)) :
  holderOf f = JObj fs ->
  loadHistory (nextFile f h) =
    mkHistory (events h)
      (objectView (Some (writtenState (stateHolderOf f) (lastState h)))).
Proof.
  intros Hf. unfold nextFile, written. rewrite Hf, loadHistory_repairs.
  match goal with
  | |- context [lookupField _ (?l ++ [(_, ?ev); (_, ?st)])] =>
      destruct (written_fields l ev st) as (-> & ->)
  end.
  now destruct (stateHolderOf f).
Qed.

(** What holds [lastState] in the next run: an object again, or an array
    again. *)
Lemma stateHolderOf_next (f : HistoryFile) (h : HistoryDoc) (fs : list (string * json)) :
  holderOf f = JObj fs ->
  stateHolderOf (nextFile f h) =
    match stateHolderOf f with
    | PlainObject own =>
        PlainObject (own && bool_decide (is_Some (lastState h !! "__proto__")))
    | ArrayObject len =>
        ArrayObject (N.to_nat (arrayLength len (lastState h)))
    end.
Proof.
  intros Hf. unfold stateHolderOf at 1. unfold nextFile, written. rewrite Hf.
  rewrite holderOf_object. cbn [getProp].
  match goal with
  | |- context [lookupField _ (?l ++ [(_, ?ev); (_, ?st)])] =>
      destruct (written_fields l ev st) as (_ & ->)
  end.
  destruct (stateHolderOf f) as [own|len]; cbn [writtenState].
  - rewrite lookupField_to_list. destruct own; cbn [andb].
    + destruct (lastState h !! "__proto__") as [v|] eqn:Hp.
      * now rewrite bool_decide_true by eauto.
      * rewrite bool_decide_false; [reflexivity|]. now intros [v Hv].
    + now rewrite lookup_delete_eq.
  - now rewrite length_map, length_seq.
Qed.

(** An entry under a name that the file keeps is found again by the next
    run. *)
Lemma kept_name (f : HistoryFile) (h : HistoryDoc) (d : string) (v : json) :
  keepsName f d = true ->
  lastState h !! d = Some v ->
  lastState (loadHistory (nextFile f h)) !! d = Some v.
Proof.
  unfold keepsName. destruct (holder_cases f) as [[fs Hf]|[items Hf]]; rewrite Hf;
    [|discriminate].
  rewrite (loadHistory_next f h fs Hf). cbn [lastState].
  destruct (stateHolderOf f) as [own|len].
  - rewrite objectView_plain. destruct own; [now intros _|]. cbn [orb].
    intros Hne Hm. apply negb_true_iff, String.eqb_neq in Hne.
    rewrite lookup_delete_ne by congruence. exact Hm.
  - destruct (arrayIndex d) as [n|] eqn:Hi; [|discriminate].
    intros _ Hm. now apply (objectView_array len _ d n).
Qed.

(** The next run finds the events that were in memory, or none when
    [history] was an array. *)
Lemma next_events (f : HistoryFile) (h : HistoryDoc) :
  match holderOf f with
  | JArr _ => events (loadHistory (nextFile f h)) = []
  | _ => events (loadHistory (nextFile f h)) = events h
  end.
Proof.
  destruct (holder_cases f) as [[fs Hf]|[items Hf]]; rewrite Hf.
  - now rewrite (loadHistory_next f h fs Hf).
  - unfold nextFile, written. now rewrite Hf.
Qed.

Lemma next_events_sublist (f : HistoryFile) (h : HistoryDoc) :
  sublist (events (loadHistory (nextFile f h))) (events h).
Proof.
  pose proof (next_events f h) as H.
  destruct (holderOf f); try (rewrite H; reflexivity).
  rewrite H. apply sublist_nil_l.
Qed.

(** A file that keeps the names of a snapshot takes the entries of the
    snapshot in the next run. *)
Lemma next_takes (f : HistoryFile) (h : HistoryDoc) (results : list DomainRecord) :
  (forall r, In r results -> keepsName f (domain r) = true) ->
  takesEntries (nextFile f h) results = true.
Proof.
  intros Hkeep. unfold takesEntries. apply negb_true_iff.
  destruct (existsb _ results) eqn:E; [|reflexivity].
  apply existsb_exists in E as (r & Hr & Href). specialize (Hkeep r Hr).
  unfold keepsName in Hkeep.
  destruct (holder_cases f) as [[fs Hf]|[items Hf]]; rewrite Hf in Hkeep;
    [|discriminate].
  rewrite (stateHolderOf_next f h fs Hf) in Href.
  destruct (stateHolderOf f) as [own|len]; cbn [refuses] in Href; [discriminate|].
  apply String.eqb_eq in Href. rewrite Href in Hkeep. discriminate.
Qed.

Lemma sublist_datable (evs evs' : list json) :
  sublist evs evs' -> datableEvents evs' -> datableEvents evs.
Proof.
  unfold datableEvents.
  induction 1 as [|x l1 l2 _ IH|x l1 l2 _ IH]; intros H; [constructor| |].
  - apply Forall_cons in H as (Hx & H). constructor; auto.
  - apply Forall_cons in H as (_ & H). auto.
Qed.

(** ** History reconciler: a second run on the same snapshot *)

Lemma prevStatus_of_entry (history : HistoryDoc) (d s : string) :
  lastState history !! d = Some (stateEntry s) ->
  prevStatusOf history d = Some (JStr s).
Proof. unfold prevStatusOf. now intros ->. Qed.

Lemma strictNe_same (s : string) : strictNe s (Some (JStr s)) = false.
Proof. cbn [strictNe]. now rewrite String.eqb_refl. Qed.

Lemma strictNe_false (s : string) (prev : option json) :
  strictNe s prev = false -> prev = Some (JStr s).
Proof.
  destruct prev as [[]|]; cbn [strictNe]; try discriminate.
  intros H. apply negb_false_iff, String.eqb_eq in H. now subst.
Qed.

(** A record whose status is the recorded one leaves the history as it
    is and fires no event. *)
Lemma settled_entry (now : Z) (history : HistoryDoc) (n : nat) (entry : DomainRecord) :
  lastState history !! domain entry = Some (stateEntry (currentStatusOf entry)) ->
  reconcileEntry now (history, n) entry = (history, n).
Proof.
  intros H. unfold reconcileEntry. cbn [fst snd].
  rewrite (prevStatus_of_entry _ _ _ H), strictNe_same. cbn [fst snd].
  fold (stateEntry (currentStatusOf entry)). rewrite (insert_id _ _ _ H).
  now destruct history.
Qed.

Lemma settled_loop (now : Z) (results : list DomainRecord) (history : HistoryDoc) (n : nat) :
  (forall r, In r results ->
     lastState history !! domain r = Some (stateEntry (currentStatusOf r))) ->
  fold_left (reconcileEntry now) results (history, n) = (history, n).
Proof.
  induction results as [|entry rest IH]; intros H; cbn [fold_left]; [reflexivity|].
  rewrite settled_entry by (apply H; now left).
  apply IH. intros r Hr. apply H. now right.
Qed.

(** After the loop every record of the snapshot finds its own status in
    [lastState], provided that records of one domain agree on it. *)
Lemma loop_records_status (now : Z) (results : list DomainRecord) :
  oneStatusPerDomain results ->
  forall (acc : HistoryDoc * nat) (r : DomainRecord),
    In r results ->
    lastState (fold_left (reconcileEntry now) results acc).1 !! domain r =
      Some (stateEntry (currentStatusOf r)).
Proof.
  induction results as [|a l IH] using rev_ind; intros Hone acc r Hr; [destruct Hr|].
  rewrite fold_left_app. cbn [fold_left].
  destruct (reconcileEntry_events now (fold_left (reconcileEntry now) l acc) a)
    as (_ & _ & ->).
  destruct (decide (domain a = domain r)) as [Heq|Hne].
  - rewrite Heq, lookup_insert_eq. do 2 f_equal.
    apply Hone; [apply in_or_app; right; now left|exact Hr|exact Heq].
  - rewrite lookup_insert_ne by exact Hne.
    apply in_app_or in Hr as [Hr|[->|[]]]; [|contradiction].
    apply IH; [|exact Hr].
    intros r1 r2 H1 H2. apply Hone; apply in_or_app; now left.
Qed.

(** The count of new events never goes down along the loop. *)
Lemma loop_count_grows (now : Z) (results : list DomainRecord) (acc : HistoryDoc * nat) :
  (acc.2 <= (fold_left (reconcileEntry now) results acc).2)%nat.
Proof.
  destruct (loop_appends utc now results acc) as (new & _ & -> & _). lia.
Qed.

(** A loop that fires no event has found the status of every record
    already recorded. *)
Lemma silent_loop (now : Z) (results : list DomainRecord) :
  forall (history : HistoryDoc) (n : nat),
    (fold_left (reconcileEntry now) results (history, n)).2 = n ->
    forall r, In r results ->
      prevStatusOf history (domain r) = Some (JStr (currentStatusOf r)).
Proof.
  induction results as [|a rest IH]; intros history n Hn r Hr; [destruct Hr|].
  cbn [fold_left] in Hn.
  destruct (reconcileEntry_events now (history, n) a) as (_ & Hcount & Hstate).
  cbn [fst snd] in Hcount, Hstate.
  pose proof (loop_count_grows now rest (reconcileEntry now (history, n) a)) as Hle.
  rewrite Hn, Hcount in Hle.
  destruct (strictNe (currentStatusOf a) (prevStatusOf history (domain a))) eqn:Hfire;
    [lia|].
  apply strictNe_false in Hfire.
  destruct Hr as [<-|Hr]; [exact Hfire|].
  rewrite Nat.add_0_r in Hcount.
  destruct (reconcileEntry now (history, n) a) as [h' n'] eqn:Hstep.
  cbn [fst snd] in *. subst n'.
  specialize (IH h' n Hn r Hr).
  unfold prevStatusOf in IH |- *. rewrite Hstate in IH.
  destruct (decide (domain a = domain r)) as [Heq|Hne].
  - rewrite Heq, lookup_insert_eq in IH. cbn in IH.
    rewrite <- Heq. unfold prevStatusOf in Hfire. rewrite Hfire.
    now injection IH as ->.
  - now rewrite lookup_insert_ne in IH.
Qed.

(** What the first of two runs leaves: events that can be dated, and
    for every record its status under its domain. *)
Lemma first_run_records (rt : Runtime) (results : list DomainRecord)
  (history h1 : HistoryDoc) (n1 : nat) (now later : Z) :
  oneStatusPerDomain results ->
  reconcile rt results history now later = Val (h1, n1) ->
  datableEvents (events h1) /\
  forall r, In r results ->
    lastState h1 !! domain r = Some (stateEntry (currentStatusOf r)).
Proof.
  intros Hone Hfirst. unfold reconcile in Hfirst.
  destruct (filterEvents rt (cutoffOf rt later)
              (events (reconcileLoop now results history).1)) as [kept|e] eqn:Hf;
    cbn [bindR] in Hfirst; [|discriminate].
  injection Hfirst as <- <-.
  apply filterEvents_returns in Hf as (Hnn & ->). cbn [events lastState]. split.
  - now apply filter_datable.
  - intros r Hr. now apply loop_records_status.
Qed.

(** C4 (amended): when the records of one domain agree on the derived
    status (as they do when no domain occurs twice) and the history file
    keeps the entry of every domain of the snapshot ([history] is no
    array; [lastState] is an object and the domain is not [__proto__], or
    it is an array and the domain an array index), a run that returns
    writes a file on which a second run over the same snapshot appends
    no event: every record finds its status recorded, the loop changes
    nothing, and the second run returns with a count of zero, the
    [lastState] it has loaded and no event the first did not leave. *)
Theorem second_reconciliation_appends_nothing (rt : Runtime)
  (results : list DomainRecord) (file : HistoryFile) (h1 : HistoryDoc) (n1 : nat)
  (now later now' later' : Z) :
  oneStatusPerDomain results ->
  (forall r, In r results -> keepsName file (domain r) = true) ->
  reconcileFile rt file results now later = Val (h1, n1) ->
  (forall r, In r results ->
     prevStatusOf (loadHistory (nextFile file h1)) (domain r)
       = Some (JStr (currentStatusOf r))) /\
  reconcileLoop now' results (loadHistory (nextFile file h1))
    = (loadHistory (nextFile file h1), 0%nat) /\
  exists h2,
    reconcileFile rt (nextFile file h1) results now' later' = Val (h2, 0%nat) /\
    lastState h2 = lastState (loadHistory (nextFile file h1)) /\
    sublist (events h2) (events h1).
Proof.
  intros Hone Hkeep Hfirst.
  apply reconcileFile_returns in Hfirst as (_ & Hfirst).
  destruct (first_run_records rt results _ h1 n1 now later Hone Hfirst) as (Hnn & Hrec).
  assert (Hrec' : forall r, In r results ->
    lastState (loadHistory (nextFile file h1)) !! domain r =
      Some (stateEntry (currentStatusOf r))).
  { intros r Hr. apply kept_name; auto. }
  assert (Hloop : reconcileLoop now' results (loadHistory (nextFile file h1))
                  = (loadHistory (nextFile file h1), 0%nat)).
  { apply settled_loop. exact Hrec'. }
  pose proof (next_events_sublist file h1) as Hsub.
  split; [intros r Hr; apply prevStatus_of_entry; now apply Hrec'|].
  split; [exact Hloop|].
  rewrite (reconcileFile_taken _ _ _ _ _ (next_takes file h1 results Hkeep)).
  rewrite reconcile_returns by (eapply sublist_datable; eauto).
  rewrite Hloop. eexists. split; [reflexivity|]. split; [reflexivity|].
  cbn [events fst]. etransitivity; [apply filter_sublist|exact Hsub].
Qed.

Lemma second_reconciliation_appends_nothing_witness :
  oneStatusPerDomain [recordOf "a.ch" true Website.absent sampleNow;
                      recordOf "b.ch" false Website.absent sampleNow] /\
  exists h1 h2,
    reconcileFile utc sampleFile
      [recordOf "a.ch" true Website.absent sampleNow;
       recordOf "b.ch" false Website.absent sampleNow]
      sampleNow sampleNow = Val (h1, 1%nat) /\
    reconcileFile utc (nextFile sampleFile h1)
      [recordOf "a.ch" true Website.absent sampleNow;
       recordOf "b.ch" false Website.absent sampleNow]
      (sampleNow + 86400000) (sampleNow + 86400000) = Val (h2, 0%nat).
Proof.
  assert (Hone : oneStatusPerDomain
                   [recordOf "a.ch" true Website.absent sampleNow;
                    recordOf "b.ch" false Website.absent sampleNow]).
  { intros r1 r2 [<-|[<-|[]]] [<-|[<-|[]]]; try reflexivity; discriminate. }
  assert (Hkeep : forall r,
    In r [recordOf "a.ch" true Website.absent sampleNow;
          recordOf "b.ch" false Website.absent sampleNow] ->
    keepsName sampleFile (domain r) = true).
  { intros r [<-|[<-|[]]]; reflexivity. }
  split; [exact Hone|].
  eexists.
  destruct (second_reconciliation_appends_nothing utc _ sampleFile
              _ 1%nat sampleNow sampleNow (sampleNow + 86400000) (sampleNow + 86400000)
              Hone Hkeep ltac:(vm_compute; reflexivity))
    as (_ & _ & h2 & Hsecond & _).
  exists h2. split; [vm_compute; reflexivity|exact Hsecond].
Defined.

(** C4 as stated fails: a snapshot that lists a domain twice, found
    available by the first probe and registered by the second, fires two
    events in the first run and two again in the second. *)
Lemma duplicate_domain_fires_again :
  (let+ run1 := reconcileFile utc Missing
                  [recordOf "a.ch" false Website.absent sampleNow;
                   recordOf "a.ch" true Website.absent sampleNow]
                  sampleNow sampleNow in
   let+ run2 := reconcileFile utc (nextFile Missing run1.1)
                  [recordOf "a.ch" false Website.absent sampleNow;
                   recordOf "a.ch" true Website.absent sampleNow]
                  (sampleNow + 86400000) (sampleNow + 86400000) in
   Val (run1.2, run2.2)) = Val (2%nat, 2%nat).
Proof. vm_compute. reflexivity. Qed.

(** An entry that the file does not keep fires again as well.  The
    assignment under the name [__proto__] replaces the prototype of
    [lastState], which [JSON.stringify] does not write; an array writes
    its elements and not the property [a.ch]; and when [history] itself
    is an array, neither [events] nor [lastState] is written. *)
Example lost_entry_fires_again :
  let twice (file : HistoryFile) (d : string) :=
    let+ run1 := reconcileFile utc file [recordOf d false Website.absent sampleNow]
                   sampleNow sampleNow in
    let+ run2 := reconcileFile utc (nextFile file run1.1)
                   [recordOf d false Website.absent sampleNow]
                   (sampleNow + 86400000) (sampleNow + 86400000) in
    Val (written file run1.1, run1.2, run2.2) in
  twice Missing "__proto__" =
    Val (JObj [("events", JArr [mkEvent sampleNow "__proto__" "available" JNull]);
               ("lastState", JObj [])], 1%nat, 1%nat) /\
  twice (Content (Val (JObj [("lastState", JArr [])]))) "a.ch" =
    Val (JObj [("events", JArr [mkEvent sampleNow "a.ch" "available" JNull]);
               ("lastState", JArr [])], 1%nat, 1%nat) /\
  twice (Content (Val (JArr []))) "a.ch" = Val (JArr [], 1%nat, 1%nat) /\
  twice (Content (Val (JObj [("lastState", JArr [])]))) "1" =
    Val (JObj [("events", JArr [mkEvent sampleNow "1" "available" JNull]);
               ("lastState", JArr [JNull; stateEntry "available"])], 1%nat, 0%nat).
Proof. repeat split; vm_compute; reflexivity. Qed.

(** On an array, the entry of a domain called [length] is refused: the
    run ends with a [RangeError] before anything is written. *)
Example length_is_refused :
  reconcileFile utc (Content (Val (JObj [("lastState", JArr [])])))
    [recordOf "length" false Website.absent sampleNow] sampleNow sampleNow
  = Throw rangeError.
Proof. reflexivity. Qed.

(** The condition of C4 cannot be weakened: a second run that appends
    nothing shows that the records of one domain agree. *)
Lemma silent_second_run_needs_agreement (rt : Runtime) (results : list DomainRecord)
  (h1 h2 : HistoryDoc) (now' later' : Z) :
  reconcile rt results h1 now' later' = Val (h2, 0%nat) ->
  oneStatusPerDomain results.
Proof.
  intros Hsecond r1 r2 H1 H2 Hdom. unfold reconcile in Hsecond.
  destruct (filterEvents _ _ _); cbn [bindR] in Hsecond; [|discriminate].
  injection Hsecond as _ Hcount.
  pose proof (silent_loop now' results h1 0%nat Hcount r1 H1) as P1.
  pose proof (silent_loop now' results h1 0%nat Hcount r2 H2) as P2.
  rewrite Hdom, P2 in P1. now injection P1.
Qed.

(** ** History reconciler: three runs of one domain *)

Lemma filter_keeps_all (f : json -> bool) (evs : list json) :
  Forall (fun e => f e = true) evs -> List.filter f evs = evs.
Proof.
  induction 1 as [|e rest He _ IH]; [reflexivity|].
  cbn [List.filter]. now rewrite He, IH.
Qed.

Lemma withinWindow_mkEvent (rt : Runtime) (cutoff now : Z) (d s : string) (p : json) :
  cutoff <= now -> withinWindow rt cutoff (mkEvent now d s p) = true.
Proof. intros H. unfold withinWindow. cbn. now apply Z.leb_le. Qed.

(** What a run returns is what its loop counted and recorded. *)
Lemma reconcile_count (rt : Runtime) (results : list DomainRecord)
  (history h' : HistoryDoc) (n : nat) (now later : Z) :
  reconcile rt results history now later = Val (h', n) ->
  n = (reconcileLoop now results history).2 /\
  lastState h' = lastState (reconcileLoop now results history).1.
Proof.
  unfold reconcile. destruct (filterEvents _ _ _); cbn [bindR]; [|discriminate].
  intros [= <- <-]. now split.
Qed.

(** A run on one record whose status differs from the recorded one, all
    events being young enough: one event more, none fewer. *)
Lemma single_run (rt : Runtime) (r : DomainRecord) (history : HistoryDoc) (now later : Z) :
  datableEvents (events history) ->
  Forall (fun e => withinWindow rt (cutoffOf rt later) e = true) (events history) ->
  cutoffOf rt later <= now ->
  strictNe (currentStatusOf r) (prevStatusOf history (domain r)) = true ->
  reconcile rt [r] history now later =
    Val (mkHistory
           (events history ++
              [mkEvent now (domain r) (currentStatusOf r)
                 (orNull (prevStatusOf history (domain r)))])
           (<[domain r := stateEntry (currentStatusOf r)]> (lastState history)),
         1%nat).
Proof.
  intros Hnn Hold Hnow Hfire.
  rewrite (reconcile_returns rt [r] history now later Hnn).
  unfold reconcileLoop. cbn [fold_left].
  destruct (reconcileEntry_events now (history, 0%nat) r) as (-> & -> & ->).
  cbn [fst snd]. rewrite Hfire. rewrite filter_keeps_all; [reflexivity|].
  apply Forall_app. split; [exact Hold|].
  constructor; [|constructor]. now apply withinWindow_mkEvent.
Qed.

Lemma prevStatusOf_empty (d : string) : prevStatusOf emptyHistory d = None.
Proof. unfold prevStatusOf, emptyHistory. cbn [lastState]. now rewrite lookup_empty. Qed.

Lemma prevStatusOf_insert (evs : list json) (ls : gmap string json) (d s : string) :
  prevStatusOf (mkHistory evs (<[d := stateEntry s]> ls)) d = Some (JStr s).
Proof. apply prevStatus_of_entry. cbn [lastState]. apply lookup_insert_eq. Qed.

Lemma plain_takes (f : HistoryFile) (results : list DomainRecord) :
  plainFile f -> takesEntries f results = true.
Proof.
  intros (_ & Hst). unfold takesEntries. rewrite Hst.
  now rewrite plain_object_takes_all.
Qed.

Lemma plainFile_Missing : plainFile Missing.
Proof. split; [now exists []|reflexivity]. Qed.

(** After a run on such a file the next run finds such a file again,
    with the events and the own properties of [lastState]. *)
Lemma next_plain (f : HistoryFile) (h : HistoryDoc) :
  plainFile f ->
  plainFile (nextFile f h) /\
  loadHistory (nextFile f h) = mkHistory (events h) (delete "__proto__" (lastState h)).
Proof.
  intros ((fs & Hf) & Hst). split; [split|].
  - unfold nextFile, written. rewrite Hf, holderOf_object. eauto.
  - now rewrite (stateHolderOf_next f h fs Hf), Hst.
  - now rewrite (loadHistory_next f h fs Hf), Hst, objectView_plain.
Qed.

Lemma single_run_file (rt : Runtime) (f : HistoryFile) (r : DomainRecord) (now later : Z) :
  plainFile f ->
  datableEvents (events (loadHistory f)) ->
  Forall (fun e => withinWindow rt (cutoffOf rt later) e = true) (events (loadHistory f)) ->
  cutoffOf rt later <= now ->
  strictNe (currentStatusOf r) (prevStatusOf (loadHistory f) (domain r)) = true ->
  reconcileFile rt f [r] now later =
    Val (mkHistory
           (events (loadHistory f) ++
              [mkEvent now (domain r) (currentStatusOf r)
                 (orNull (prevStatusOf (loadHistory f) (domain r)))])
           (<[domain r := stateEntry (currentStatusOf r)]> (lastState (loadHistory f))),
         1%nat).
Proof.
  intros Hf Hnn Hold Hnow Hfire.
  rewrite (reconcileFile_taken _ _ _ _ _ (plain_takes f [r] Hf)).
  now apply single_run.
Qed.

(** A name other than [__proto__] is an own property of [lastState]. *)
Lemma own_entry (d : string) (e : json) (m : gmap string json) :
  d <> "__proto__"%string ->
  m !! "__proto__" = None ->
  delete "__proto__" (<[d := e]> m) = <[d := e]> m.
Proof.
  intros Hd Hm. apply delete_id. rewrite lookup_insert_ne by congruence. exact Hm.
Qed.

(** C3 (amended): one domain other than [__proto__] seen available, then
    registered, then with a website in three runs in a row, the first
    without a history file, each of the others on the file the run before
    has written, and all within the 365 days kept: every run appends one
    event, three in all, chained null -> available, available ->
    registered, registered -> website. *)
Theorem three_runs_three_events (rt : Runtime) (d : string) (r1 r2 r3 : DomainRecord)
  (now1 later1 now2 later2 now3 later3 : Z) :
  d <> "__proto__"%string ->
  domain r1 = d -> domain r2 = d -> domain r3 = d ->
  currentStatusOf r1 = "available"%string ->
  currentStatusOf r2 = "registered"%string ->
  currentStatusOf r3 = "website"%string ->
  cutoffOf rt later1 <= now1 ->
  cutoffOf rt later2 <= now1 -> cutoffOf rt later2 <= now2 ->
  cutoffOf rt later3 <= now1 -> cutoffOf rt later3 <= now2 ->
  cutoffOf rt later3 <= now3 ->
  threeRuns rt r1 r2 r3 now1 later1 now2 later2 now3 later3 =
    Val (mkHistory
           [mkEvent now1 d "available" JNull;
            mkEvent now2 d "registered" (JStr "available");
            mkEvent now3 d "website" (JStr "registered")]
           (<[d := stateEntry "website"]>
              (<[d := stateEntry "registered"]>
                 (<[d := stateEntry "available"]> ∅))),
         3%nat).
Proof.
  intros Hd D1 D2 D3 S1 S2 S3 K11 K21 K22 K31 K32 K33. unfold threeRuns.
  set (h1 := mkHistory [mkEvent now1 d "available" JNull]
               (<[d := stateEntry "available"]> ∅)).
  set (h2 := mkHistory [mkEvent now1 d "available" JNull;
                        mkEvent now2 d "registered" (JStr "available")]
               (<[d := stateEntry "registered"]> (<[d := stateEntry "available"]> ∅))).
  assert (R1 : reconcileFile rt Missing [r1] now1 later1 = Val (h1, 1%nat)).
  { rewrite single_run_file; rewrite ?D1, ?S1, ?prevStatusOf_empty;
      [reflexivity|apply plainFile_Missing|constructor|constructor|exact K11|reflexivity]. }
  destruct (next_plain Missing h1 plainFile_Missing) as (P2 & L2).
  assert (L2' : loadHistory (nextFile Missing h1) = h1).
  { rewrite L2. subst h1. cbn [events lastState]. f_equal.
    apply own_entry; [exact Hd|apply lookup_empty]. }
  assert (R2 : reconcileFile rt (nextFile Missing h1) [r2] now2 later2 = Val (h2, 1%nat)).
  { rewrite single_run_file; rewrite ?L2'; subst h1; cbn [events lastState];
      rewrite ?D2, ?S2, ?prevStatusOf_insert;
      [reflexivity|exact P2|repeat constructor
      |repeat constructor; now apply withinWindow_mkEvent
      |exact K22|reflexivity]. }
  destruct (next_plain (nextFile Missing h1) h2 P2) as (P3 & L3).
  assert (L3' : loadHistory (nextFile (nextFile Missing h1) h2) = h2).
  { rewrite L3. subst h2. cbn [events lastState]. f_equal.
    apply own_entry; [exact Hd|].
    rewrite lookup_insert_ne by congruence. apply lookup_empty. }
  rewrite R1. cbn [bindR fst snd]. rewrite R2. cbn [bindR fst snd].
  rewrite single_run_file; rewrite ?L3'; subst h2; cbn [events lastState];
    rewrite ?D3, ?S3, ?prevStatusOf_insert;
    [reflexivity|exact P3|repeat constructor
    |repeat constructor; now apply withinWindow_mkEvent
    |exact K33|reflexivity].
Qed.

Lemma three_runs_three_events_witness :
  cutoffOf utc (sampleNow + 2 * 86400000) <= sampleNow /\
  threeRuns utc
    (recordOf "a.ch" false Website.absent sampleNow)
    (recordOf "a.ch" true Website.absent (sampleNow + 86400000))
    (recordOf "a.ch" true (Website.mk true None None None None) (sampleNow + 2 * 86400000))
    sampleNow sampleNow
    (sampleNow + 86400000) (sampleNow + 86400000)
    (sampleNow + 2 * 86400000) (sampleNow + 2 * 86400000) =
  Val (mkHistory
         [mkEvent sampleNow "a.ch" "available" JNull;
          mkEvent (sampleNow + 86400000) "a.ch" "registered" (JStr "available");
          mkEvent (sampleNow + 2 * 86400000) "a.ch" "website" (JStr "registered")]
         (<["a.ch" := stateEntry "website"]>
            (<["a.ch" := stateEntry "registered"]>
               (<["a.ch" := stateEntry "available"]> ∅))),
       3%nat).
Proof.
  split; [vm_compute; discriminate|].
  apply three_runs_three_events; try reflexivity; vm_compute; discriminate.
Defined.

Lemma single_run_count (rt : Runtime) (f : HistoryFile) (r : DomainRecord)
  (h' : HistoryDoc) (n : nat) (now later : Z) :
  reconcileFile rt f [r] now later = Val (h', n) ->
  n = (if strictNe (currentStatusOf r) (prevStatusOf (loadHistory f) (domain r))
       then 1 else 0)%nat /\
  lastState h' = <[domain r := stateEntry (currentStatusOf r)]> (lastState (loadHistory f)).
Proof.
  intros H. apply reconcileFile_returns in H as (_ & H).
  apply reconcile_count in H as (-> & ->).
  unfold reconcileLoop. cbn [fold_left].
  destruct (reconcileEntry_events now (loadHistory f, 0%nat) r) as (_ & -> & ->).
  now split.
Qed.

(** A status other than the one stored last fires, whether the entry has
    reached the file or not. *)
Lemma fires_after (m : gmap string json) (d s s' : string) :
  s <> s' ->
  strictNe s' (optProp (delete "__proto__" (<[d := stateEntry s]> m) !! d) "status") = true.
Proof.
  intros Hs. destruct (decide (d = "__proto__"%string)) as [->|Hd].
  - now rewrite lookup_delete_eq.
  - rewrite lookup_delete_ne by congruence. rewrite lookup_insert_eq.
    cbn [optProp stateEntry lookupField String.eqb Ascii.eqb Bool.eqb strictNe].
    apply negb_true_iff, String.eqb_neq. congruence.
Qed.

(** C3 as stated fails: whatever the domain and the clock readings, no
    three runs of one domain through available, registered and website,
    started without a history file, append two events in all: each of
    the three runs appends one. *)
Lemma no_three_runs_with_two_events :
  ~ exists (rt : Runtime) (r1 r2 r3 : DomainRecord)
      (now1 later1 now2 later2 now3 later3 : Z) (h : HistoryDoc),
      domain r1 = domain r2 /\ domain r2 = domain r3 /\
      currentStatusOf r1 = "available"%string /\
      currentStatusOf r2 = "registered"%string /\
      currentStatusOf r3 = "website"%string /\
      threeRuns rt r1 r2 r3 now1 later1 now2 later2 now3 later3 = Val (h, 2%nat).
Proof.
  intros (rt & r1 & r2 & r3 & now1 & later1 & now2 & later2 & now3 & later3 & h
          & D12 & D23 & S1 & S2 & S3 & Hruns).
  unfold threeRuns in Hruns.
  destruct (reconcileFile rt Missing [r1] now1 later1) as [[h1 n1]|e] eqn:H1;
    cbn [bindR fst snd] in Hruns; [|discriminate].
  destruct (reconcileFile rt (nextFile Missing h1) [r2] now2 later2)
    as [[h2 n2]|e] eqn:H2; cbn [bindR fst snd] in Hruns; [|discriminate].
  destruct (reconcileFile rt (nextFile (nextFile Missing h1) h2) [r3] now3 later3)
    as [[h3 n3]|e] eqn:H3; cbn [bindR fst snd] in Hruns; [|discriminate].
  destruct (next_plain Missing h1 plainFile_Missing) as (P2 & L2).
  destruct (next_plain (nextFile Missing h1) h2 P2) as (_ & L3).
  apply single_run_count in H1 as (N1 & L1), H2 as (N2 & Q2), H3 as (N3 & _).
  cbn [loadHistory] in N1, L1. rewrite prevStatusOf_empty in N1. cbn [strictNe] in N1.
  unfold prevStatusOf in N2, N3.
  rewrite L2 in N2, Q2. cbn [lastState] in N2, Q2.
  rewrite L3 in N3. cbn [lastState] in N3.
  rewrite L1, S1, <- D12, S2, fires_after in N2 by discriminate.
  rewrite Q2, S2, <- D23, S3, fires_after in N3 by discriminate.
  subst n1 n2 n3. discriminate.
Qed.

(** Three such runs a day apart, evaluated: three events.  With a domain
    called [__proto__] the entry never reaches the file, and each of the
    three events has the previous status null. *)
Example three_runs_sample :
  let runs (d : string) :=
    let+ run := threeRuns utc
      (recordOf d false Website.absent sampleNow)
      (recordOf d true Website.absent sampleNow)
      (recordOf d true (Website.mk true None None None None) sampleNow)
      sampleNow sampleNow
      (sampleNow + 86400000) (sampleNow + 86400000)
      (sampleNow + 2 * 86400000) (sampleNow + 2 * 86400000) in
    Val (map (fun e => optProp (Some e) "previousStatus") (events run.1), run.2) in
  runs "a.ch" =
    Val ([Some JNull; Some (JStr "available"); Some (JStr "registered")], 3%nat) /\
  runs "__proto__" = Val ([Some JNull; Some JNull; Some JNull], 3%nat).
Proof. split; vm_compute; reflexivity. Qed.

(** * Further properties of the scanners *)

(** ** Registration prober: effort and verdict *)

(** On the UTF-8 bytes of a domain either prober returns a boolean; it
    sends one lookup, and only after an answer of 429 its backoff sleep
    and a second lookup. *)
Lemma lookup_effort_bytes (d : string) (w : World) :
  (exists b, (Cron.isRegistered d w).1 = Val b) /\
  sentSince w (Cron.isRegistered d w).2 =
    (if rateLimited (answer w (rdapRequest d))
     then [EvFetch (rdapRequest d); EvSleep 2000; EvFetch (rdapRequest d)]
     else [EvFetch (rdapRequest d)]) /\
  (exists b, (Script.isRegistered d w).1 = Val b) /\
  sentSince w (Script.isRegistered d w).2 =
    (if rateLimited (answer w (rdapRequest d))
     then [EvFetch (rdapRequest d); EvSleep 1000; EvFetch (rdapRequest d)]
     else [EvFetch (rdapRequest d)]).
Proof.
  destruct (answer w (rdapRequest d)) as [[s]|e] eqn:Hfirst; cbn [rateLimited Response.status].
  - destruct (Z.eqb_spec s 429) as [->|Hne].
    + rewrite (cron_retry d w Hfirst), (script_retry d w Hfirst). cbn [fst snd].
      split; [eauto|]. split; [|split; [eauto|]];
        apply sentSince_app; cbn [trace sent slept]; now rewrite <- !app_assoc.
    + assert (Hno : forall r, answer w (rdapRequest d) = Responds r ->
                              Response.status r <> 429).
      { intros r Hr. rewrite Hfirst in Hr. now injection Hr as <-. }
      rewrite (cron_direct d w Hno), (script_direct d w Hno). cbn [fst snd].
      split; [eauto|]. split; [|split; [eauto|]]; now apply sentSince_app.
  - assert (Hno : forall r, answer w (rdapRequest d) = Responds r ->
                            Response.status r <> 429).
    { intros r Hr. rewrite Hfirst in Hr. discriminate. }
    rewrite (cron_direct d w Hno), (script_direct d w Hno). cbn [fst snd].
    split; [eauto|]. split; [|split; [eauto|]]; now apply sentSince_app.
Qed.

(** X1: what [encodeURIComponent] makes of the domain decides.  When it
    returns, either registration prober returns a boolean and does not
    raise; it sends one lookup to the RDAP URL that ends with the encoded
    domain, and only after an answer of 429 a second one to the same URL,
    preceded by its one backoff sleep: never a third request.  When it
    raises, which it does exactly on a domain with a lone surrogate, its
    [URIError] leaves the prober, and nothing is sent. *)
Theorem lookup_effort_is_bounded (domain : Js.str) (w : World) :
  match Js.encodeURIComponent domain with
  | Val encoded =>
      let lookup := mkRequest ("https://rdap.nic.ch/domain/" +:+ encoded) HEAD 5000 in
      (exists b, (CronUnits.isRegistered domain w).1 = Val b) /\
      sentSince w (CronUnits.isRegistered domain w).2 =
        (if rateLimited (answer w lookup)
         then [EvFetch lookup; EvSleep 2000; EvFetch lookup]
         else [EvFetch lookup]) /\
      (exists b, (ScriptUnits.isRegistered domain w).1 = Val b) /\
      sentSince w (ScriptUnits.isRegistered domain w).2 =
        (if rateLimited (answer w lookup)
         then [EvFetch lookup; EvSleep 1000; EvFetch lookup]
         else [EvFetch lookup])
  | Throw e =>
      e = Js.uriError /\ Js.utf8 domain = None /\
      CronUnits.isRegistered domain w = (Throw e, w) /\
      ScriptUnits.isRegistered domain w = (Throw e, w)
  end.
Proof.
  unfold Js.encodeURIComponent, CronUnits.isRegistered, ScriptUnits.isRegistered.
  destruct (Js.utf8 domain) as [d|].
  - cbn zeta. apply (lookup_effort_bytes d w).
  - repeat split.
Qed.

(** A domain that ends with a lone high surrogate: the probers raise. *)
Example lone_surrogate_raises :
  Js.encodeURIComponent [112; 102; 102; 55357]%N = Throw Js.uriError /\
  (CronUnits.isRegistered [112; 102; 102; 55357]%N (startWorld [replies 200])).1
    = Throw Js.uriError /\
  Js.encodeURIComponent [112; 102; 102; 55357; 56832; 228]%N
    = Val "pff%F0%9F%98%80%C3%A4"%string /\
  (CronUnits.isRegistered [112; 102; 102; 55357; 56832; 228]%N (startWorld [replies 200])).1
    = Val true.
Proof. repeat split; vm_compute; reflexivity. Qed.

(** X2: the registration probers fail closed.  When the response that
    decides (the first one, or the retry after a 429) is a timeout, a
    network error or any status other than 200, 401 and 404, both report
    the domain as not registered. *)
Theorem registration_fails_closed (d : string) (w : World) :
  (forall s, deciding w d = replies s -> s <> 200 /\ s <> 401 /\ s <> 404) ->
  (Cron.isRegistered d w).1 = Val false /\ (Script.isRegistered d w).1 = Val false.
Proof.
  intros Hdec. unfold deciding in Hdec.
  destruct (answer w (rdapRequest d)) as [[s]|e] eqn:Hfirst.
  - cbn [Response.status] in Hdec. destruct (Z.eqb_spec s 429) as [->|Hne].
    + rewrite (cron_retry d w Hfirst), (script_retry d w Hfirst). cbn [fst].
      destruct (retryAnswer w (rdapRequest d)) as [[s']|e]; [|now split].
      destruct (Hdec s' eq_refl) as (N200 & N401 & N404). cbn [Response.status].
      apply Z.eqb_neq in N200, N401, N404. now rewrite N200, N401, N404.
    + assert (Hno : forall r, answer w (rdapRequest d) = Responds r ->
                              Response.status r <> 429).
      { intros r Hr. rewrite Hfirst in Hr. now injection Hr as <-. }
      rewrite (cron_direct d w Hno), (script_direct d w Hno), Hfirst.
      destruct (Hdec s eq_refl) as (N200 & N401 & _). cbn [fst Response.status].
      apply Z.eqb_neq in N200, N401. now rewrite N200, N401.
  - assert (Hno : forall r, answer w (rdapRequest d) = Responds r ->
                            Response.status r <> 429).
    { intros r Hr. rewrite Hfirst in Hr. discriminate. }
    rewrite (cron_direct d w Hno), (script_direct d w Hno), Hfirst. now split.
Qed.

Lemma registration_fails_closed_witness :
  (forall s, deciding (startWorld [replies 429; replies 503]) "pff27.ch" = replies s ->
     s <> 200 /\ s <> 401 /\ s <> 404) /\
  (Cron.isRegistered "pff27.ch" (startWorld [replies 429; replies 503])).1 = Val false /\
  (Script.isRegistered "pff27.ch" (startWorld [replies 429; replies 503])).1 = Val false.
Proof.
  assert (H : forall s,
    deciding (startWorld [replies 429; replies 503]) "pff27.ch" = replies s ->
    s <> 200 /\ s <> 401 /\ s <> 404).
  { intros s Hs. vm_compute in Hs. injection Hs as <-. repeat split; discriminate. }
  split; [exact H|]. exact (registration_fails_closed _ _ H).
Defined.

(** X3: the script reports a domain as registered exactly when the
    response that decides has status 200 or 401. *)
Theorem script_registered_iff (d : string) (w : World) :
  (Script.isRegistered d w).1 = Val true <->
  deciding w d = replies 200 \/ deciding w d = replies 401.
Proof.
  unfold deciding.
  destruct (answer w (rdapRequest d)) as [[s]|e] eqn:Hfirst.
  - cbn [Response.status]. destruct (Z.eqb_spec s 429) as [->|Hne].
    + rewrite (script_retry d w Hfirst). cbn [fst].
      destruct (retryAnswer w (rdapRequest d)) as [[s']|e]; cbn [Response.status].
      * unfold replies.
        destruct (Z.eqb_spec s' 200) as [->|N200]; [cbn; tauto|].
        destruct (Z.eqb_spec s' 401) as [->|N401]; [cbn; tauto|].
        cbn. split; [discriminate|]. intros [[=]|[=]]; contradiction.
      * split; [discriminate|]. intros [H|H]; discriminate.
    + assert (Hno : forall r, answer w (rdapRequest d) = Responds r ->
                              Response.status r <> 429).
      { intros r Hr. rewrite Hfirst in Hr. now injection Hr as <-. }
      rewrite (script_direct d w Hno), Hfirst. cbn [fst Response.status]. unfold replies.
      destruct (Z.eqb_spec s 200) as [->|N200]; [cbn; tauto|].
      destruct (Z.eqb_spec s 401) as [->|N401]; [cbn; tauto|].
      cbn. split; [discriminate|]. intros [[=]|[=]]; contradiction.
  - assert (Hno : forall r, answer w (rdapRequest d) = Responds r ->
                            Response.status r <> 429).
    { intros r Hr. rewrite Hfirst in Hr. discriminate. }
    rewrite (script_direct d w Hno), Hfirst. cbn [fst].
    split; [discriminate|]. intros [H|H]; discriminate.
Qed.

(** ** Website prober: the shape of its results *)

Lemma answered_shape (p : Protocol) (u : string) (s : Z) :
  Website.urlTried (answered p u s) = Some u /\
  (if Website.present (answered p u s)
   then Website.protocol (answered p u s) = Some p /\
        Website.error (answered p u s) = None /\
        exists c, Website.status (answered p u s) = Some c /\ 200 <= c < 400
   else (Website.status (answered p u s) = None /\
         Website.protocol (answered p u s) = None /\
         exists msg, Website.error (answered p u s) = Some msg) \/
        (exists c, Website.status (answered p u s) = Some c /\ ~ 200 <= c < 400 /\
           Website.protocol (answered p u s) = Some p /\
           Website.error (answered p u s) = None)).
Proof.
  split; [reflexivity|]. cbn [answered Website.present Website.protocol
                              Website.error Website.status].
  destruct (inRange s) eqn:Hs.
  - apply inRange_spec in Hs. eauto.
  - right. exists s. repeat split; try reflexivity.
    intros Hin. apply inRange_spec in Hin. congruence.
Qed.

Lemma failed_shape (a : Attempt) (d : string) (p : Protocol) (e : JsError) :
  In a [cronAttempt; scriptAttempt] ->
  Website.present (failed a d p e) = false /\
  Website.urlTried (failed a d p e) = Some (url (headOf a d p)) /\
  Website.status (failed a d p e) = None /\
  Website.protocol (failed a d p e) = None /\
  exists msg, Website.error (failed a d p e) = Some msg.
Proof. intros [<-|[<-|[]]]; repeat split; eauto. Qed.

Lemma get_same_url (a : Attempt) (d : string) (p : Protocol) :
  In a [cronAttempt; scriptAttempt] -> url (getOf a d p) = url (headOf a d p).
Proof. now intros [<-|[<-|[]]]. Qed.

(** X4: a per-scheme attempt of either website prober never raises and
    sends the HEAD request and at most one GET request after it.  Its
    result names the URL tried; when [present] is true it carries the
    scheme, a status code in [200, 400) and no error; when [present] is
    false it carries either an error and neither status nor scheme, or a
    status code outside [200, 400). *)
Theorem attempt_result_shape (a : Attempt) (d : string) (p : Protocol) (w : World) :
  In a [cronAttempt; scriptAttempt] ->
  exists r,
    (tryOnce a d p w).1 = Val r /\
    (sentSince w (tryOnce a d p w).2 = [EvFetch (headOf a d p)] \/
     sentSince w (tryOnce a d p w).2 = [EvFetch (headOf a d p); EvFetch (getOf a d p)]) /\
    Website.urlTried r = Some (url (headOf a d p)) /\
    (if Website.present r
     then Website.protocol r = Some p /\ Website.error r = None /\
          exists c, Website.status r = Some c /\ 200 <= c < 400
     else (Website.status r = None /\ Website.protocol r = None /\
           exists msg, Website.error r = Some msg) \/
          (exists c, Website.status r = Some c /\ ~ 200 <= c < 400 /\
             Website.protocol r = Some p /\ Website.error r = None)).
Proof.
  intros Ha. rewrite (tryOnce_paths a d p w Ha).
  assert (Hone : sentSince w (sent w (headOf a d p)) = [EvFetch (headOf a d p)])
    by now apply sentSince_app.
  assert (Htwo : sentSince w (sent (sent w (headOf a d p)) (getOf a d p)) =
                 [EvFetch (headOf a d p); EvFetch (getOf a d p)])
    by (apply sentSince_app; cbn [trace sent]; now rewrite <- app_assoc).
  assert (Hfail : forall e,
    Website.urlTried (failed a d p e) = Some (url (headOf a d p)) /\
    (if Website.present (failed a d p e)
     then Website.protocol (failed a d p e) = Some p /\
          Website.error (failed a d p e) = None /\
          exists c, Website.status (failed a d p e) = Some c /\ 200 <= c < 400
     else (Website.status (failed a d p e) = None /\
           Website.protocol (failed a d p e) = None /\
           exists msg, Website.error (failed a d p e) = Some msg) \/
          (exists c, Website.status (failed a d p e) = Some c /\ ~ 200 <= c < 400 /\
             Website.protocol (failed a d p e) = Some p /\
             Website.error (failed a d p e) = None))).
  { intros e. destruct (failed_shape a d p e Ha) as (-> & Hu & Hs & Hp & Hm). auto. }
  destruct (answer w (headOf a d p)) as [r|e].
  - destruct ((Response.status r =? 405) || (Response.status r =? 403)).
    + destruct (retryAnswer w (getOf a d p)) as [r'|e]; eexists;
        (split; [reflexivity|]); (split; [right; exact Htwo|]); cbn [fst].
      * apply answered_shape.
      * apply Hfail.
    + eexists. split; [reflexivity|]. split; [left; exact Hone|]. apply answered_shape.
  - eexists. split; [reflexivity|]. split; [left; exact Hone|]. apply Hfail.
Qed.

Lemma attempt_result_shape_witness :
  In scriptAttempt [cronAttempt; scriptAttempt] /\
  exists r, (Script.tryOnce "b.ch" https (startWorld [replies 200])).1 = Val r /\
    Website.urlTried r = Some "https://b.ch/"%string.
Proof.
  assert (Hin : In scriptAttempt [cronAttempt; scriptAttempt]) by (right; left; reflexivity).
  split; [exact Hin|].
  destruct (attempt_result_shape scriptAttempt "b.ch" https (startWorld [replies 200]) Hin)
    as (r & Hr & _ & Hu & _).
  exists r. split; [exact Hr|exact Hu].
Defined.

(** ** Website prober: the two schemes *)

Lemma cron_check_steps (d : string) (w : World) :
  exists h h',
    (Cron.tryOnce d https w).1 = Val h /\
    (Cron.tryOnce d http (Cron.tryOnce d https w).2).1 = Val h' /\
    Cron.checkWebsitePresence d w =
      if Website.present h
      then (Val h, (Cron.tryOnce d https w).2)
      else (Val (if Website.present h' then h' else Cron.notReachable),
            (Cron.tryOnce d http (Cron.tryOnce d https w).2).2).
Proof.
  destruct (tryOnce_present cronAttempt d https w) as (h & Hh & _);
    [left; reflexivity|].
  destruct (tryOnce_present cronAttempt d http (Cron.tryOnce d https w).2)
    as (h' & Hh' & _); [left; reflexivity|].
  cbn [tryOnce cronAttempt] in Hh, Hh'.
  exists h, h'. split; [exact Hh|]. split; [exact Hh'|].
  unfold Cron.checkWebsitePresence, bind.
  destruct (Cron.tryOnce d https w) as [[r|e] w1]; cbn [fst snd] in *; [|discriminate].
  injection Hh as ->.
  destruct (Website.present h) eqn:Ph; [reflexivity|].
  destruct (Cron.tryOnce d http w1) as [[r'|e] w2]; cbn [fst snd] in *; [|discriminate].
  injection Hh' as ->.
  destruct (Website.present h') eqn:Ph'; [reflexivity|].
  unfold ret. destruct (truthyNum (Website.status h)); now rewrite ?Ph, ?Ph'.
Qed.

Lemma script_check_steps (d : string) (w : World) :
  exists h h',
    (Script.tryOnce d https w).1 = Val h /\
    (Script.tryOnce d http (Script.tryOnce d https w).2).1 = Val h' /\
    Script.checkWebsite d w =
      if Website.present h
      then (Val h, (Script.tryOnce d https w).2)
      else (Val (if Website.present h' then h'
                 else if truthyNum (Website.status h) then h else h'),
            (Script.tryOnce d http (Script.tryOnce d https w).2).2).
Proof.
  destruct (tryOnce_present scriptAttempt d https w) as (h & Hh & _);
    [right; left; reflexivity|].
  destruct (tryOnce_present scriptAttempt d http (Script.tryOnce d https w).2)
    as (h' & Hh' & _); [right; left; reflexivity|].
  cbn [tryOnce scriptAttempt] in Hh, Hh'.
  exists h, h'. split; [exact Hh|]. split; [exact Hh'|].
  unfold Script.checkWebsite, bind.
  destruct (Script.tryOnce d https w) as [[r|e] w1]; cbn [fst snd] in *; [|discriminate].
  injection Hh as ->.
  destruct (Website.present h) eqn:Ph; [reflexivity|].
  destruct (Script.tryOnce d http w1) as [[r'|e] w2]; cbn [fst snd] in *; [|discriminate].
  injection Hh' as ->.
  destruct (Website.present h'); reflexivity.
Qed.

(** X5: both website probers try https first and never raise.  When the
    https attempt is present it is the result, and the world is left as
    that attempt left it: no request goes to the http scheme.  When it
    is not, the http attempt is made, and the result is present exactly
    when the http attempt is. *)
Theorem https_comes_first (d : string) (w : World) :
  (exists h, (Cron.tryOnce d https w).1 = Val h /\
     if Website.present h
     then Cron.checkWebsitePresence d w = (Val h, (Cron.tryOnce d https w).2)
     else exists h' r,
       (Cron.tryOnce d http (Cron.tryOnce d https w).2).1 = Val h' /\
       Cron.checkWebsitePresence d w =
         (Val r, (Cron.tryOnce d http (Cron.tryOnce d https w).2).2) /\
       Website.present r = Website.present h') /\
  (exists h, (Script.tryOnce d https w).1 = Val h /\
     if Website.present h
     then Script.checkWebsite d w = (Val h, (Script.tryOnce d https w).2)
     else exists h' r,
       (Script.tryOnce d http (Script.tryOnce d https w).2).1 = Val h' /\
       Script.checkWebsite d w =
         (Val r, (Script.tryOnce d http (Script.tryOnce d https w).2).2) /\
       Website.present r = Website.present h').
Proof.
  split.
  - destruct (cron_check_steps d w) as (h & h' & Hh & Hh' & Hrun).
    exists h. split; [exact Hh|].
    destruct (Website.present h) eqn:Ph; [exact Hrun|].
    eexists h', _. split; [exact Hh'|]. split; [exact Hrun|].
    destruct (Website.present h') eqn:Ph'; [exact Ph'|reflexivity].
  - destruct (script_check_steps d w) as (h & h' & Hh & Hh' & Hrun).
    exists h. split; [exact Hh|].
    destruct (Website.present h) eqn:Ph; [exact Hrun|].
    eexists h', _. split; [exact Hh'|]. split; [exact Hrun|].
    destruct (Website.present h') eqn:Ph'; [exact Ph'|].
    now destruct (truthyNum (Website.status h)).
Qed.

Lemma tryOnce_present_shape (a : Attempt) (d : string) (p : Protocol) (w : World)
  (r : Website.t) :
  In a [cronAttempt; scriptAttempt] ->
  (tryOnce a d p w).1 = Val r ->
  Website.present r = true ->
  Website.protocol r = Some p /\ Website.error r = None /\
  Website.urlTried r = Some (url (headOf a d p)) /\
  exists c, Website.status r = Some c /\ 200 <= c < 400.
Proof.
  intros Ha. rewrite (tryOnce_paths a d p w Ha).
  assert (Hans : forall s,
    Val (answered p (url (headOf a d p)) s) = Val r -> Website.present r = true ->
    Website.protocol r = Some p /\ Website.error r = None /\
    Website.urlTried r = Some (url (headOf a d p)) /\
    exists c, Website.status r = Some c /\ 200 <= c < 400).
  { intros s [= <-] Hp.
    destruct (answered_shape p (url (headOf a d p)) s) as (Hu & Hshape).
    rewrite Hp in Hshape. destruct Hshape as (? & ? & ?). auto. }
  assert (Hfail : forall e,
    Val (failed a d p e) = Val r -> Website.present r = true ->
    Website.protocol r = Some p /\ Website.error r = None /\
    Website.urlTried r = Some (url (headOf a d p)) /\
    exists c, Website.status r = Some c /\ 200 <= c < 400).
  { intros e [= <-] Hp. destruct (failed_shape a d p e Ha) as (Hf & _). congruence. }
  destruct (answer w (headOf a d p)) as [res|e]; cbn [fst].
  - destruct ((Response.status res =? 405) || (Response.status res =? 403)).
    + destruct (retryAnswer w (getOf a d p)) as [res'|e]; cbn [fst]; eauto.
    + cbn [fst]. eauto.
  - eauto.
Qed.

(** X6: a website result with [present] true, from either prober, is one
    of the two attempts answered with a status code in [200, 400): it
    names its scheme, the URL tried on that scheme and the status code,
    and carries no error. *)
Theorem present_site_is_documented (d : string) (w : World) (r : Website.t) :
  Website.present r = true ->
  ((Cron.checkWebsitePresence d w).1 = Val r ->
   exists p c, Website.protocol r = Some p /\ Website.error r = None /\
     Website.urlTried r = Some (protoString p +:+ "://" +:+ d) /\
     Website.status r = Some c /\ 200 <= c < 400) /\
  ((Script.checkWebsite d w).1 = Val r ->
   exists p c, Website.protocol r = Some p /\ Website.error r = None /\
     Website.urlTried r = Some (protoString p +:+ "://" +:+ d +:+ "/") /\
     Website.status r = Some c /\ 200 <= c < 400).
Proof.
  intros Hp. split.
  - destruct (cron_check_steps d w) as (h & h' & Hh & Hh' & ->).
    destruct (Website.present h) eqn:Ph; cbn [fst].
    + intros [= <-].
      destruct (tryOnce_present_shape cronAttempt d https w h) as (?&?&?&c&?&?);
        [left; reflexivity|exact Hh|exact Ph|]. exists https, c. auto.
    + destruct (Website.present h') eqn:Ph'.
      * intros [= <-].
        destruct (tryOnce_present_shape cronAttempt d http
                    (Cron.tryOnce d https w).2 h') as (?&?&?&c&?&?);
          [left; reflexivity|exact Hh'|exact Ph'|]. exists http, c. auto.
      * intros [= <-]. discriminate.
  - destruct (script_check_steps d w) as (h & h' & Hh & Hh' & ->).
    destruct (Website.present h) eqn:Ph; cbn [fst].
    + intros [= <-].
      destruct (tryOnce_present_shape scriptAttempt d https w h) as (?&?&?&c&?&?);
        [right; left; reflexivity|exact Hh|exact Ph|]. exists https, c. auto.
    + destruct (Website.present h') eqn:Ph'.
      * intros [= <-].
        destruct (tryOnce_present_shape scriptAttempt d http
                    (Script.tryOnce d https w).2 h') as (?&?&?&c&?&?);
          [right; left; reflexivity|exact Hh'|exact Ph'|]. exists http, c. auto.
      * destruct (truthyNum (Website.status h)); intros [= <-]; congruence.
Qed.

Lemma present_site_is_documented_witness :
  Website.present (answered https "https://c.ch" 200) = true /\
  exists p c, Website.protocol (answered https "https://c.ch" 200) = Some p /\
    Website.status (answered https "https://c.ch" 200) = Some c /\ 200 <= c < 400.
Proof.
  split; [reflexivity|].
  destruct (present_site_is_documented "c.ch" (startWorld [replies 403; replies 200])
              (answered https "https://c.ch" 200) eq_refl) as (Hcron & _).
  destruct (Hcron eq_refl) as (p & c & Hpr & _ & _ & Hst & Hc).
  exists p, c. auto.
Defined.

(** ** Scan loop: one record per domain *)

Lemma paced_refl (w : World) : paced 0 w w.
Proof. exists []. now rewrite app_nil_r. Qed.

Lemma paced_trans (n m : nat) (w w1 w2 : World) :
  paced n w w1 -> paced m w1 w2 -> paced (n + m) w w2.
Proof.
  intros (l1 & H1 & N1) (l2 & H2 & N2). exists (l1 ++ l2).
  rewrite H2, H1, <- app_assoc, List.filter_app, length_app. now subst.
Qed.

Lemma paced_sent (w : World) (r : Request) : paced 0 w (sent w r).
Proof. now exists [EvFetch r]. Qed.

Lemma paced_ticked (w : World) : paced 0 w (ticked w).
Proof. exists []. cbn [trace ticked]. now rewrite app_nil_r. Qed.

Lemma paced_tryOnce (a : Attempt) (d : string) (p : Protocol) (w : World) :
  In a [cronAttempt; scriptAttempt] -> paced 0 w (tryOnce a d p w).2.
Proof.
  intros Ha. rewrite (tryOnce_paths a d p w Ha).
  destruct (answer w (headOf a d p)) as [r|e]; [|apply paced_sent].
  destruct ((Response.status r =? 405) || (Response.status r =? 403)); [|apply paced_sent].
  destruct (retryAnswer w (getOf a d p));
    apply (paced_trans 0 0 w (sent w (headOf a d p))); apply paced_sent.
Qed.

Lemma paced_cron_isRegistered (d : string) (w : World) :
  paced 0 w (Cron.isRegistered d w).2.
Proof.
  destruct (cron_isRegistered_world d w) as (b & [-> | ->]); cbn [snd].
  - apply paced_sent.
  - exists [EvFetch (rdapRequest d); EvSleep 2000; EvFetch (rdapRequest d)].
    cbn [trace sent slept]. now rewrite <- !app_assoc.
Qed.

Lemma paced_script_isRegistered (d : string) (w : World) :
  paced 0 w (Script.isRegistered d w).2.
Proof.
  destruct (script_isRegistered_world d w) as (b & [-> | ->]); cbn [snd].
  - apply paced_sent.
  - exists [EvFetch (rdapRequest d); EvSleep 1000; EvFetch (rdapRequest d)].
    cbn [trace sent slept]. now rewrite <- !app_assoc.
Qed.

Lemma paced_cron_check (d : string) (w : World) :
  exists r, (Cron.checkWebsitePresence d w).1 = Val r /\
            paced 0 w (Cron.checkWebsitePresence d w).2.
Proof.
  destruct (cron_check_steps d w) as (h & h' & _ & _ & ->).
  assert (H1 : paced 0 w (Cron.tryOnce d https w).2)
    by (apply (paced_tryOnce cronAttempt); left; reflexivity).
  destruct (Website.present h); cbn [fst snd]; [eauto|].
  eexists. split; [reflexivity|].
  apply (paced_trans 0 0 w _ _ H1).
  apply (paced_tryOnce cronAttempt); left; reflexivity.
Qed.

Lemma paced_script_check (d : string) (w : World) :
  exists r, (Script.checkWebsite d w).1 = Val r /\
            paced 0 w (Script.checkWebsite d w).2.
Proof.
  destruct (script_check_steps d w) as (h & h' & _ & _ & ->).
  assert (H1 : paced 0 w (Script.tryOnce d https w).2)
    by (apply (paced_tryOnce scriptAttempt); right; left; reflexivity).
  destruct (Website.present h); cbn [fst snd]; [eauto|].
  eexists. split; [reflexivity|].
  apply (paced_trans 0 0 w _ _ H1).
  apply (paced_tryOnce scriptAttempt); right; left; reflexivity.
Qed.

Lemma paced_pacing (w : World) : paced 1 w (slept w 150).
Proof. now exists [EvSleep 150]. Qed.

(** One turn of either loop returns the record of its domain and sleeps
    the pacing delay once. *)
Lemma cron_scanDomain_turn (lower : string -> string) (d : string) (w : World) :
  exists r, (Cron.scanDomain lower d w).1 = Val r /\ domain r = d /\
            tld r = Some (tldOf lower d) /\ paced 1 w (Cron.scanDomain lower d w).2.
Proof.
  unfold Cron.scanDomain, bind.
  pose proof (paced_cron_isRegistered d w) as Hreg.
  destruct (cron_isRegistered_world d w) as (b & Hb).
  assert (Hval : (Cron.isRegistered d w).1 = Val b) by (destruct Hb as [-> | ->]; reflexivity).
  destruct (Cron.isRegistered d w) as [v w1]; cbn [fst snd] in *. subst v.
  destruct b.
  - destruct (paced_cron_check d w1) as (ws & Hws & Hpw).
    destruct (Cron.checkWebsitePresence d w1) as [v w2]; cbn [fst snd] in *. subst v.
    cbn [newDate sleep ret fst snd]. eexists. repeat split.
    apply (paced_trans 0 1 w w1 _ Hreg).
    apply (paced_trans 0 1 w1 w2 _ Hpw).
    apply (paced_trans 0 1 w2 (ticked w2) _ (paced_ticked w2)). apply paced_pacing.
  - cbn [ret newDate sleep fst snd]. eexists. repeat split.
    apply (paced_trans 0 1 w w1 _ Hreg).
    apply (paced_trans 0 1 w1 (ticked w1) _ (paced_ticked w1)). apply paced_pacing.
Qed.

Lemma script_scanDomain_turn (lower : string -> string) (d : string) (w : World) :
  exists r, (Script.scanDomain lower d w).1 = Val r /\ domain r = d /\
            tld r = Some (tldOf lower d) /\ paced 1 w (Script.scanDomain lower d w).2.
Proof.
  unfold Script.scanDomain, bind. cbn [newDate].
  pose proof (paced_script_isRegistered d (ticked w)) as Hreg.
  destruct (script_isRegistered_world d (ticked w)) as (b & Hb).
  assert (Hval : (Script.isRegistered d (ticked w)).1 = Val b)
    by (destruct Hb as [-> | ->]; reflexivity).
  destruct (Script.isRegistered d (ticked w)) as [v w1]; cbn [fst snd] in *. subst v.
  destruct b.
  - destruct (paced_script_check d w1) as (ws & Hws & Hpw).
    destruct (Script.checkWebsite d w1) as [v w2]; cbn [fst snd] in *. subst v.
    cbn [sleep ret fst snd]. eexists. repeat split.
    apply (paced_trans 0 1 w (ticked w) _ (paced_ticked w)).
    apply (paced_trans 0 1 (ticked w) w1 _ Hreg).
    apply (paced_trans 0 1 w1 w2 _ Hpw). apply paced_pacing.
  - cbn [ret sleep fst snd]. eexists. repeat split.
    apply (paced_trans 0 1 w (ticked w) _ (paced_ticked w)).
    apply (paced_trans 0 1 (ticked w) w1 _ Hreg). apply paced_pacing.
Qed.

Lemma cron_scanAll_run (lower : string -> string) (domains : list string) :
  forall w, exists rs, (Cron.scanAll lower domains w).1 = Val rs /\
     map domain rs = domains /\
     map tld rs = map (fun d => Some (tldOf lower d)) domains /\
     paced (length domains) w (Cron.scanAll lower domains w).2.
Proof.
  induction domains as [|d rest IH]; intros w0; cbn [Cron.scanAll].
  - exists []. repeat split. apply paced_refl.
  - unfold bind. destruct (cron_scanDomain_turn lower d w0) as (r & Hr & Hd & Ht & Hp).
    destruct (Cron.scanDomain lower d w0) as [v w1]; cbn [fst snd] in *. subst v.
    destruct (IH w1) as (rs & Hrs & Hds & Hts & Hps).
    destruct (Cron.scanAll lower rest w1) as [v w2]; cbn [fst snd] in *. subst v.
    exists (r :: rs). cbn [ret fst snd map length]. rewrite Hd, Ht, Hds, Hts.
    repeat split. apply (paced_trans 1 (length rest) w0 w1 w2 Hp Hps).
Qed.

Lemma script_scanAll_run (lower : string -> string) (domains : list string) :
  forall w, exists rs, (Script.scanAll lower domains w).1 = Val rs /\
     map domain rs = domains /\
     map tld rs = map (fun d => Some (tldOf lower d)) domains /\
     paced (length domains) w (Script.scanAll lower domains w).2.
Proof.
  induction domains as [|d rest IH]; intros w0; cbn [Script.scanAll].
  - exists []. repeat split. apply paced_refl.
  - unfold bind. destruct (script_scanDomain_turn lower d w0) as (r & Hr & Hd & Ht & Hp).
    destruct (Script.scanDomain lower d w0) as [v w1]; cbn [fst snd] in *. subst v.
    destruct (IH w1) as (rs & Hrs & Hds & Hts & Hps).
    destruct (Script.scanAll lower rest w1) as [v w2]; cbn [fst snd] in *. subst v.
    exists (r :: rs). cbn [ret fst snd map length]. rewrite Hd, Ht, Hds, Hts.
    repeat split. apply (paced_trans 1 (length rest) w0 w1 w2 Hp Hps).
Qed.

(** On domains without a lone surrogate the loops are the loops on the
    UTF-8 bytes. *)
Lemma units_scanAll_bytes (lower : string -> string) (domains : list Js.str) :
  forall ds, utf8All domains = Some ds ->
    CronUnits.scanAll lower domains = Cron.scanAll lower ds /\
    ScriptUnits.scanAll lower domains = Script.scanAll lower ds.
Proof.
  induction domains as [|u rest IH]; intros ds; cbn [utf8All].
  - intros [= <-]. now split.
  - destruct (Js.utf8 u) as [d|] eqn:Hu; [|discriminate].
    destruct (utf8All rest) as [ds'|]; [|discriminate].
    intros [= <-]. destruct (IH ds' eq_refl) as (Hc & Hs).
    cbn [CronUnits.scanAll ScriptUnits.scanAll Cron.scanAll Script.scanAll].
    unfold CronUnits.scanDomain, ScriptUnits.scanDomain. now rewrite Hu, Hc, Hs.
Qed.

(** A domain with a lone surrogate ends the loops with the [URIError]. *)
Lemma units_scanAll_raises (lower : string -> string) (domains : list Js.str) :
  utf8All domains = None ->
  forall w,
    (CronUnits.scanAll lower domains w).1 = Throw Js.uriError /\
    (ScriptUnits.scanAll lower domains w).1 = Throw Js.uriError.
Proof.
  induction domains as [|u rest IH]; cbn [utf8All]; [discriminate|].
  intros Hnone w.
  cbn [CronUnits.scanAll ScriptUnits.scanAll].
  unfold CronUnits.scanDomain, ScriptUnits.scanDomain, bind.
  destruct (Js.utf8 u) as [d|]; [|split; reflexivity].
  destruct (utf8All rest) as [ds'|]; [discriminate|].
  destruct (cron_scanDomain_turn lower d w) as (r & Hr & _).
  destruct (script_scanDomain_turn lower d w) as (r' & Hr' & _).
  destruct (Cron.scanDomain lower d w) as [v w1]; cbn [fst] in Hr; subst v.
  destruct (Script.scanDomain lower d w) as [v w1']; cbn [fst] in Hr'; subst v.
  destruct (IH eq_refl w1) as (Hc & _). destruct (IH eq_refl w1') as (_ & Hs).
  destruct (CronUnits.scanAll lower rest w1) as [v w2]; cbn [fst] in Hc; subst v.
  destruct (ScriptUnits.scanAll lower rest w1') as [v w2']; cbn [fst] in Hs; subst v.
  split; reflexivity.
Qed.

(** X7: on a list of domains none of which holds a lone surrogate, the
    scan loops of the cron handler and of the script do not raise and
    skip nothing: whatever the network does and whatever [toLowerCase]
    is, they return exactly one record per domain, in the order of the
    list, each with the [tld] of its domain, and they sleep the pacing
    delay of 150 ms exactly once per domain.  A domain with a lone
    surrogate ends either loop with the [URIError] of
    [encodeURIComponent]: no record is returned. *)
Theorem scan_yields_one_record_per_domain (lower : string -> string)
  (domains : list Js.str) (w : World) :
  match utf8All domains with
  | Some ds =>
      (exists rs, (CronUnits.scanAll lower domains w).1 = Val rs /\
         map domain rs = ds /\
         map tld rs = map (fun d => Some (tldOf lower d)) ds /\
         length (List.filter isPacing (sentSince w (CronUnits.scanAll lower domains w).2))
           = length domains) /\
      (exists rs, (ScriptUnits.scanAll lower domains w).1 = Val rs /\
         map domain rs = ds /\
         map tld rs = map (fun d => Some (tldOf lower d)) ds /\
         length (List.filter isPacing (sentSince w (ScriptUnits.scanAll lower domains w).2))
           = length domains)
  | None =>
      (CronUnits.scanAll lower domains w).1 = Throw Js.uriError /\
      (ScriptUnits.scanAll lower domains w).1 = Throw Js.uriError
  end.
Proof.
  destruct (utf8All domains) as [ds|] eqn:Hds; [|now apply units_scanAll_raises].
  destruct (units_scanAll_bytes lower domains ds Hds) as (-> & ->).
  assert (Hlen : length domains = length ds).
  { clear w. revert ds Hds. induction domains as [|u rest IH]; intros ds; cbn [utf8All].
    - now intros [= <-].
    - destruct (Js.utf8 u); [|discriminate].
      destruct (utf8All rest) as [ds'|]; [|discriminate].
      intros [= <-]. cbn [length]. now rewrite (IH ds' eq_refl). }
  rewrite Hlen. split.
  - destruct (cron_scanAll_run lower ds w) as (rs & Hrs & Hd & Ht & (l & Hl & Hn)).
    exists rs. repeat split; try assumption. now rewrite (sentSince_app _ _ _ Hl).
  - destruct (script_scanAll_run lower ds w) as (rs & Hrs & Hd & Ht & (l & Hl & Hn)).
    exists rs. repeat split; try assumption. now rewrite (sentSince_app _ _ _ Hl).
Qed.

(** A scan of three domains, the second with a lone surrogate: the loop
    of the script raises after the first domain. *)
Example scan_stops_at_lone_surrogate :
  utf8All [[97; 46; 99; 104]; [98; 56832]; [99; 46; 99; 104]]%N = None /\
  (ScriptUnits.scanAll asciiLowerCase [[97; 46; 99; 104]; [98; 56832]; [99; 46; 99; 104]]%N
     (startWorld [replies 404])).1 = Throw Js.uriError /\
  sentSince (startWorld [replies 404])
    (ScriptUnits.scanAll asciiLowerCase [[97; 46; 99; 104]; [98; 56832]; [99; 46; 99; 104]]%N
       (startWorld [replies 404])).2
  = [EvFetch (rdapRequest "a.ch"); EvSleep 150].
Proof. repeat split; vm_compute; reflexivity. Qed.

(** ** encodeURIComponent and the lookup URL *)

Lemma hexDigit_cases (n : N) :
  (n < 16)%N ->
  uriUnreserved (hexDigit n) = true /\ hexValue (hexDigit n) = n.
Proof.
  intros Hn. destruct n as [|p]; [split; reflexivity|].
  destruct p as [p|p|]; [| |split; reflexivity];
    (destruct p as [p|p|]; [| |split; reflexivity]);
    (destruct p as [p|p|]; [| |split; reflexivity]);
    (destruct p as [p|p|]; [lia|lia|split; reflexivity]).
Qed.

Lemma ascii_high_low (c : ascii) :
  (N_of_ascii c / 16 < 16)%N /\ (N_of_ascii c mod 16 < 16)%N.
Proof.
  pose proof (N_ascii_bounded c) as Hc. split.
  - apply N.Div0.div_lt_upper_bound. lia.
  - apply N.mod_lt. discriminate.
Qed.

Lemma percent_reserved : uriUnreserved "%" = false.
Proof. reflexivity. Qed.

Lemma encode_safe (s : string) : allChars urlSafe (encodeURIComponent s) = true.
Proof.
  induction s as [|c rest IH]; [reflexivity|]. cbn [encodeURIComponent].
  destruct (uriUnreserved c) eqn:Hc; cbn [allChars].
  - rewrite IH. unfold urlSafe. now rewrite Hc.
  - destruct (ascii_high_low c) as (Hh & Hl).
    destruct (hexDigit_cases _ Hh) as (Uh & _), (hexDigit_cases _ Hl) as (Ul & _).
    rewrite IH. unfold urlSafe. now rewrite Uh, Ul.
Qed.

Lemma encode_length (s : string) :
  (String.length s <= String.length (encodeURIComponent s))%nat.
Proof.
  induction s as [|c rest IH]; [reflexivity|]. cbn [encodeURIComponent].
  destruct (uriUnreserved c); cbn [String.length]; lia.
Qed.

Lemma allChars_excludes (P : ascii -> bool) (c : ascii) (s : string) :
  allChars P s = true -> P c = false ->
  ~ In c (list_ascii_of_string s).
Proof.
  induction s as [|c' rest IH]; cbn [allChars list_ascii_of_string]; [tauto|].
  intros H Hc [->|Hin]; apply andb_true_iff in H as (H1 & H2).
  - congruence.
  - now apply IH.
Qed.

(** X8: the output of [encodeURIComponent] holds only unreserved
    characters and percent signs, so none of [/ ? # & = :] or a space;
    and it is its input exactly when every character of the input is
    unreserved, as in a domain name of letters, digits, hyphens and
    dots. *)
Theorem encoded_component_is_safe (s : string) :
  allChars urlSafe (encodeURIComponent s) = true /\
  (forall c, In c ["/"; "?"; "#"; "&"; "="; ":"; " "]%char ->
     ~ In c (list_ascii_of_string (encodeURIComponent s))) /\
  (encodeURIComponent s = s <-> allChars uriUnreserved s = true).
Proof.
  split; [apply encode_safe|]. split.
  - intros c Hc. apply (allChars_excludes urlSafe); [apply encode_safe|].
    repeat (destruct Hc as [<-|Hc]; [reflexivity|]). destruct Hc.
  - induction s as [|c rest IH]; [tauto|]. cbn [encodeURIComponent allChars].
    destruct (uriUnreserved c) eqn:Hc; cbn [andb].
    + rewrite <- IH. split; [now intros [= ->]|now intros ->].
    + split; [|discriminate]. intros Heq.
      apply (f_equal String.length) in Heq. cbn [String.length] in Heq.
      pose proof (encode_length rest). lia.
Qed.

Lemma encoded_component_is_safe_witness :
  In "/"%char ["/"; "?"; "#"; "&"; "="; ":"; " "]%char /\
  ~ In "/"%char (list_ascii_of_string (encodeURIComponent "a/b c.ch")) /\
  encodeURIComponent "a/b c.ch" = "a%2Fb%20c.ch"%string.
Proof.
  assert (H : In "/"%char ["/"; "?"; "#"; "&"; "="; ":"; " "]%char) by (left; reflexivity).
  split; [exact H|]. split; [|reflexivity].
  destruct (encoded_component_is_safe "a/b c.ch") as (_ & Hnone & _).
  exact (Hnone _ H).
Defined.

Lemma append_cancel (prefix a b : string) : prefix +:+ a = prefix +:+ b -> a = b.
Proof.
  induction prefix as [|c rest IH]; cbn [String.append]; [tauto|].
  intros [= H]. now apply IH.
Qed.

Lemma ascii_from_halves (c1 c2 : ascii) :
  (N_of_ascii c1 / 16 = N_of_ascii c2 / 16)%N ->
  (N_of_ascii c1 mod 16 = N_of_ascii c2 mod 16)%N ->
  c1 = c2.
Proof.
  intros Hd Hm.
  rewrite <- (ascii_N_embedding c1), <- (ascii_N_embedding c2). f_equal.
  rewrite (N.div_mod (N_of_ascii c1) 16), (N.div_mod (N_of_ascii c2) 16) by discriminate.
  now rewrite Hd, Hm.
Qed.

Lemma encode_injective (s1 : string) :
  forall s2, encodeURIComponent s1 = encodeURIComponent s2 -> s1 = s2.
Proof.
  induction s1 as [|c1 r1 IH]; intros [|c2 r2]; cbn [encodeURIComponent].
  - reflexivity.
  - destruct (uriUnreserved c2); discriminate.
  - destruct (uriUnreserved c1); discriminate.
  - destruct (uriUnreserved c1) eqn:U1, (uriUnreserved c2) eqn:U2.
    + intros [= -> H]. f_equal. now apply IH.
    + intros [= -> _]. rewrite percent_reserved in U1. discriminate.
    + intros [= <- _]. rewrite percent_reserved in U2. discriminate.
    + intros [= Hh Hl H]. f_equal; [|now apply IH].
      destruct (ascii_high_low c1) as (A1 & B1), (ascii_high_low c2) as (A2 & B2).
      apply ascii_from_halves.
      * rewrite <- (proj2 (hexDigit_cases _ A1)), <- (proj2 (hexDigit_cases _ A2)).
        now rewrite Hh.
      * rewrite <- (proj2 (hexDigit_cases _ B1)), <- (proj2 (hexDigit_cases _ B2)).
        now rewrite Hl.
Qed.

(** X9: [encodeURIComponent] is injective, so two different domain names
    are never looked up with the same RDAP request. *)
Theorem lookups_tell_domains_apart (d1 d2 : string) :
  d1 <> d2 -> rdapRequest d1 <> rdapRequest d2.
Proof.
  intros Hne Heq. apply Hne. unfold rdapRequest in Heq. injection Heq as H.
  apply append_cancel in H. now apply encode_injective.
Qed.

Lemma lookups_tell_domains_apart_witness :
  "a b.ch"%string <> "a%20b.ch"%string /\
  rdapRequest "a b.ch" <> rdapRequest "a%20b.ch".
Proof.
  assert (H : "a b.ch"%string <> "a%20b.ch"%string) by discriminate.
  split; [exact H|]. exact (lookups_tell_domains_apart _ _ H).
Defined.

(** ** The top-level domain of a record *)

Lemma append_cons (a : ascii) (r s : string) : String a r +:+ s = String a (r +:+ s).
Proof. reflexivity. Qed.

Lemma append_snoc (acc : string) (c : ascii) (s : string) :
  (acc +:+ String c EmptyString) +:+ s = acc +:+ String c s.
Proof.
  induction acc as [|a rest IH]; [reflexivity|]. rewrite !append_cons. now rewrite IH.
Qed.

Lemma append_empty (s : string) : s +:+ EmptyString = s.
Proof. induction s as [|a rest IH]; [reflexivity|]. rewrite append_cons. now rewrite IH. Qed.

Lemma allChars_append (P : ascii -> bool) (a b : string) :
  allChars P (a +:+ b) = allChars P a && allChars P b.
Proof.
  induction a as [|c rest IH]; [reflexivity|]. rewrite append_cons. cbn [allChars].
  now rewrite IH, andb_assoc.
Qed.

(** Without a dot ahead, the segment is what has been read and what
    follows. *)
Lemma lastSegment_no_dot (s : string) :
  forall acc, allChars notDot s = true -> lastSegment acc s = acc +:+ s.
Proof.
  induction s as [|c rest IH]; intros acc; cbn [allChars lastSegment].
  - now rewrite append_empty.
  - intros H. apply andb_true_iff in H as (Hc & Hrest).
    unfold notDot in Hc. apply negb_true_iff in Hc. rewrite Hc.
    rewrite (IH _ Hrest). apply append_snoc.
Qed.

(** A dot starts the segment afresh. *)
Lemma lastSegment_after_dot (d t : string) :
  forall acc, lastSegment acc (d +:+ String "." t) = lastSegment EmptyString t.
Proof.
  induction d as [|c rest IH]; intros acc; [reflexivity|].
  rewrite append_cons. cbn [lastSegment]. destruct (Ascii.eqb c "."); apply IH.
Qed.

Lemma lastSegment_dotless (s : string) :
  forall acc, allChars notDot acc = true -> allChars notDot (lastSegment acc s) = true.
Proof.
  induction s as [|c rest IH]; intros acc Hacc; cbn [lastSegment]; [exact Hacc|].
  destruct (Ascii.eqb c ".") eqn:Hc; [now apply IH|].
  apply IH. rewrite allChars_append, Hacc. cbn [allChars]. unfold notDot. now rewrite Hc.
Qed.

Lemma lowerAscii_facts (c : ascii) :
  notUpper (lowerAscii c) = true /\ notDot (lowerAscii c) = notDot c.
Proof. destruct c as [[] [] [] [] [] [] [] []]; split; reflexivity. Qed.

Lemma asciiLowerCase_facts (s : string) :
  allChars notUpper (asciiLowerCase s) = true /\
  allChars notDot (asciiLowerCase s) = allChars notDot s.
Proof.
  induction s as [|c rest (IH1 & IH2)]; [split; reflexivity|].
  cbn [asciiLowerCase allChars]. destruct (lowerAscii_facts c) as (-> & ->).
  now rewrite IH1, IH2.
Qed.

Lemma append_assoc (a b c : string) : (a +:+ b) +:+ c = a +:+ (b +:+ c).
Proof. induction a as [|x rest IH]; [reflexivity|]. rewrite !append_cons. now rewrite IH. Qed.

(** The last segment ends the string, after the last dot when there is
    one, and holds no dot. *)
Lemma lastSegment_split (s : string) :
  forall acc, allChars notDot acc = true ->
    (lastSegment acc s = acc +:+ s /\ allChars notDot s = true) \/
    (exists front, acc +:+ s = front +:+ String "." (lastSegment acc s)).
Proof.
  induction s as [|c rest IH]; intros acc Hacc; cbn [lastSegment].
  - left. now rewrite append_empty.
  - destruct (Ascii.eqb c ".") eqn:Hc.
    + apply Ascii.eqb_eq in Hc. subst c. right.
      destruct (IH EmptyString eq_refl) as [(Hl & _)|(front & Hf)].
      * exists acc. rewrite Hl. reflexivity.
      * exists (acc +:+ String "." front).
        change (EmptyString +:+ rest) with rest in Hf.
        rewrite append_assoc, append_cons. now rewrite <- Hf.
    + assert (Hacc' : allChars notDot (acc +:+ String c EmptyString) = true).
      { rewrite allChars_append, Hacc. cbn [allChars]. unfold notDot. now rewrite Hc. }
      destruct (IH _ Hacc') as [(Hl & Hr)|(front & Hf)].
      * left. rewrite Hl, append_snoc. split; [reflexivity|].
        cbn [allChars]. unfold notDot at 1. now rewrite Hc.
      * right. exists front. now rewrite <- Hf, append_snoc.
Qed.

(** X10: the [tld] of a record is [toLowerCase] of the last label of the
    domain: of the text after the last dot, or of the whole domain when
    it has no dot; that label holds no dot.  When the label is made of
    ASCII characters, where [toLowerCase] is known, the [tld] is the
    label with [A] to [Z] turned into [a] to [z]: it holds neither a dot
    nor an upper-case ASCII letter. *)
Theorem tld_is_the_last_label (lower : string -> string) (d t : string) :
  allChars notDot t = true ->
  tldOf lower (d +:+ String "." t) = lower t /\
  tldOf lower t = lower t /\
  (exists label,
     tldOf lower d = lower label /\ allChars notDot label = true /\
     (d = label \/ exists front, d = front +:+ String "." label)) /\
  (lowersAscii lower -> allChars isAscii t = true ->
   tldOf lower (d +:+ String "." t) = asciiLowerCase t /\
   allChars notDot (tldOf lower (d +:+ String "." t)) = true /\
   allChars notUpper (tldOf lower (d +:+ String "." t)) = true).
Proof.
  intros Ht. unfold tldOf.
  rewrite lastSegment_after_dot, (lastSegment_no_dot t EmptyString Ht).
  change (EmptyString +:+ t) with t.
  split; [reflexivity|]. split; [reflexivity|]. split.
  - exists (lastSegment EmptyString d). split; [reflexivity|].
    split; [now apply lastSegment_dotless|].
    destruct (lastSegment_split d EmptyString eq_refl) as [(Hl & _)|(front & Hf)].
    + left. now rewrite Hl.
    + right. exists front. exact Hf.
  - intros Hlow Hascii. rewrite (Hlow t Hascii).
    destruct (asciiLowerCase_facts t) as (Hup & Hdot).
    split; [reflexivity|]. split; [now rewrite Hdot|exact Hup].
Qed.

Lemma tld_is_the_last_label_witness :
  allChars notDot "CH" = true /\ lowersAscii asciiLowerCase /\
  tldOf asciiLowerCase ("www.Pff27" +:+ String "." "CH") = "ch"%string.
Proof.
  assert (Hlow : lowersAscii asciiLowerCase) by (intros s _; reflexivity).
  split; [reflexivity|]. split; [exact Hlow|].
  destruct (tld_is_the_last_label asciiLowerCase "www.Pff27" "CH" eq_refl)
    as (_ & _ & _ & H).
  destruct (H Hlow eq_refl) as (H1 & _). exact H1.
Defined.

(** ** History reconciler: what a run records *)

Lemma lastRecordOf_snoc (d : string) (l : list DomainRecord) (a : DomainRecord) :
  lastRecordOf d (l ++ [a]) =
    if String.eqb (domain a) d then Some a else lastRecordOf d l.
Proof.
  unfold lastRecordOf. rewrite List.filter_app. cbn [List.filter].
  destruct (String.eqb (domain a) d).
  - apply last_snoc.
  - now rewrite app_nil_r.
Qed.

Lemma loop_lastState (now : Z) (results : list DomainRecord) :
  forall (acc : HistoryDoc * nat) (d : string),
    lastState (fold_left (reconcileEntry now) results acc).1 !! d =
      match lastRecordOf d results with
      | Some r => Some (stateEntry (currentStatusOf r))
      | None => lastState acc.1 !! d
      end.
Proof.
  induction results as [|a l IH] using rev_ind; intros acc d; [reflexivity|].
  rewrite fold_left_app, lastRecordOf_snoc. cbn [fold_left].
  destruct (reconcileEntry_events now (fold_left (reconcileEntry now) l acc) a)
    as (_ & _ & ->).
  destruct (String.eqb_spec (domain a) d) as [->|Hne].
  - apply lookup_insert_eq.
  - rewrite lookup_insert_ne by exact Hne. apply IH.
Qed.

Lemma lastRecordOf_none (d : string) (results : list DomainRecord) :
  lastRecordOf d results = None <-> ~ In d (map domain results).
Proof.
  induction results as [|a l IH] using rev_ind; [cbn; tauto|].
  rewrite lastRecordOf_snoc, map_app, in_app_iff. cbn [map In].
  destruct (String.eqb_spec (domain a) d) as [->|Hne].
  - split; [discriminate|]. tauto.
  - rewrite IH. tauto.
Qed.

Lemma lastRecordOf_some (d : string) (results : list DomainRecord) (r : DomainRecord) :
  lastRecordOf d results = Some r -> In r results /\ domain r = d.
Proof.
  induction results as [|a l IH] using rev_ind; [discriminate|].
  rewrite lastRecordOf_snoc, in_app_iff. cbn [In].
  destruct (String.eqb_spec (domain a) d) as [Heq|Hne].
  - intros [= <-]. auto.
  - intros H. apply IH in H. tauto.
Qed.

(** X11: a run that returns holds in [lastState], for every domain of
    the snapshot, the status of the last record of that domain, and for
    every other name the entry it has loaded: the names with an entry are
    the old ones and the domains of the snapshot.  Of these entries the
    next run finds again every one whose name the file keeps.  When
    [lastState] is an object, the next run finds exactly the entries of
    this run, less the one under [__proto__] unless the object has an own
    property of that name; when [history] is an array, the next run
    starts from the empty history. *)
Theorem lastState_after_a_run (rt : Runtime) (results : list DomainRecord)
  (file : HistoryFile) (h' : HistoryDoc) (n : nat) (now later : Z) :
  reconcileFile rt file results now later = Val (h', n) ->
  (forall d, lastState h' !! d =
     match lastRecordOf d results with
     | Some r => Some (stateEntry (currentStatusOf r))
     | None => lastState (loadHistory file) !! d
     end) /\
  (forall d, is_Some (lastState h' !! d) <->
     is_Some (lastState (loadHistory file) !! d) \/ In d (map domain results)) /\
  (forall d, keepsName file d = true -> is_Some (lastState h' !! d) ->
     lastState (loadHistory (nextFile file h')) !! d = lastState h' !! d) /\
  (forall fs own, holderOf file = JObj fs -> stateHolderOf file = PlainObject own ->
     lastState (loadHistory (nextFile file h')) =
       if own then lastState h' else delete "__proto__" (lastState h')) /\
  (forall items, holderOf file = JArr items ->
     loadHistory (nextFile file h') = emptyHistory).
Proof.
  intros Hrun. apply reconcileFile_returns in Hrun as (_ & Hrun).
  apply reconcile_count in Hrun as (_ & Hls).
  assert (Hall : forall d, lastState h' !! d =
     match lastRecordOf d results with
     | Some r => Some (stateEntry (currentStatusOf r))
     | None => lastState (loadHistory file) !! d
     end).
  { intros d. rewrite Hls. unfold reconcileLoop. apply loop_lastState. }
  split; [exact Hall|]. split; [|split; [|split]].
  - intros d. rewrite Hall.
    destruct (lastRecordOf d results) as [r|] eqn:Hlast.
    + apply lastRecordOf_some in Hlast as (Hin & <-).
      split; [intros _; right; now apply in_map|intros _; eauto].
    + apply lastRecordOf_none in Hlast. tauto.
  - intros d Hkeep [v Hv]. rewrite Hv. now apply kept_name.
  - intros fs own Hf Hst.
    now rewrite (loadHistory_next file h' fs Hf), Hst, objectView_plain.
  - intros items Hf. unfold nextFile, written. now rewrite Hf.
Qed.

Lemma lastState_after_a_run_witness :
  reconcileFile utc sampleFile [recordOf "a.ch" true Website.absent sampleNow]
    sampleNow sampleNow =
  Val (mkHistory
         [mkEvent (sampleNow - 365 * 86400000 + 1000) "b.ch" "available" JNull;
          mkEvent sampleNow "a.ch" "registered" (JStr "available")]
         (<["a.ch" := stateEntry "registered"]>
            (<["b.ch" := stateEntry "available"]>
               (<["a.ch" := stateEntry "available"]> ∅))),
       1%nat) /\
  lastState (loadHistory (nextFile sampleFile
    (mkHistory
         [mkEvent (sampleNow - 365 * 86400000 + 1000) "b.ch" "available" JNull;
          mkEvent sampleNow "a.ch" "registered" (JStr "available")]
         (<["a.ch" := stateEntry "registered"]>
            (<["b.ch" := stateEntry "available"]>
               (<["a.ch" := stateEntry "available"]> ∅)))))) !! "a.ch"
  = Some (stateEntry "registered").
Proof.
  assert (Hrun : reconcileFile utc sampleFile [recordOf "a.ch" true Website.absent sampleNow]
    sampleNow sampleNow =
  Val (mkHistory
         [mkEvent (sampleNow - 365 * 86400000 + 1000) "b.ch" "available" JNull;
          mkEvent sampleNow "a.ch" "registered" (JStr "available")]
         (<["a.ch" := stateEntry "registered"]>
            (<["b.ch" := stateEntry "available"]>
               (<["a.ch" := stateEntry "available"]> ∅))),
       1%nat)) by (vm_compute; reflexivity).
  split; [exact Hrun|].
  destruct (lastState_after_a_run _ _ _ _ _ _ _ Hrun) as (_ & _ & H & _).
  rewrite (H "a.ch"%string eq_refl); [|eexists]; cbn [lastState]; apply lookup_insert_eq.
Defined.

(** The loop over a snapshot, seen from any accumulator: the events it
    appends are events of records of the snapshot, in their order, each
    with a previous status other than its status. *)
Lemma loop_new_events (now : Z) (results : list DomainRecord) :
  forall acc : HistoryDoc * nat,
  exists new,
    events (fold_left (reconcileEntry now) results acc).1 = events acc.1 ++ new /\
    (fold_left (reconcileEntry now) results acc).2 = (acc.2 + length new)%nat /\
    sublist (map eventDomain new) (map (fun r => Some (JStr (domain r))) results) /\
    Forall (fun e => exists r p, In r results /\
              e = mkEvent now (domain r) (currentStatusOf r) p /\
              p <> JStr (currentStatusOf r)) new.
Proof.
  induction results as [|entry rest IH]; intros acc; cbn [fold_left].
  - exists []. rewrite app_nil_r. cbn [length map].
    split; [reflexivity|]. split; [lia|]. split; constructor.
  - destruct (IH (reconcileEntry now acc entry)) as (new & Hev & Hn & Hsub & Hall).
    destruct (reconcileEntry_events now acc entry) as (Hev1 & Hn1 & _).
    rewrite Hev, Hn, Hev1, Hn1, <- app_assoc.
    assert (Hall' : Forall (fun e => exists r p, In r (entry :: rest) /\
              e = mkEvent now (domain r) (currentStatusOf r) p /\
              p <> JStr (currentStatusOf r)) new).
    { eapply Forall_impl; [exact Hall|]. intros e (r & p & Hr & He & Hp).
      exists r, p. split; [now right|now split]. }
    destruct (strictNe (currentStatusOf entry) (prevStatusOf acc.1 (domain entry)))
      eqn:Hfire.
    + eexists. split; [reflexivity|]. cbn [app length map].
      split; [lia|]. split; [now constructor|].
      constructor; [|exact Hall'].
      exists entry, (orNull (prevStatusOf acc.1 (domain entry))).
      split; [now left|]. split; [reflexivity|].
      destruct (prevStatusOf acc.1 (domain entry)) as [[| [] | z | s | | |]|];
        cbn [orNull truthy]; try discriminate.
      * destruct (z =? 0); discriminate.
      * cbn [strictNe] in Hfire. apply negb_true_iff, String.eqb_neq in Hfire.
        destruct (String.eqb s ""); cbn [negb]; [discriminate|]. congruence.
    + exists new. cbn [app length map]. split; [reflexivity|].
      split; [lia|]. split; [now constructor|exact Hall'].
Qed.

(** X12: the events a run appends come after the old ones and follow the
    snapshot: each belongs to a record of the snapshot, carries its
    domain, its derived status, the date [now] and a previous status
    different from the status; their domains appear in the order of the
    snapshot, at most one event per record; [newEvents] is their
    number. *)
Theorem new_events_follow_the_snapshot (now : Z) (results : list DomainRecord)
  (history : HistoryDoc) :
  exists new,
    events (reconcileLoop now results history).1 = events history ++ new /\
    (reconcileLoop now results history).2 = length new /\
    (length new <= length results)%nat /\
    sublist (map eventDomain new) (map (fun r => Some (JStr (domain r))) results) /\
    Forall (fun e => exists r p, In r results /\
              e = mkEvent now (domain r) (currentStatusOf r) p /\
              p <> JStr (currentStatusOf r)) new.
Proof.
  destruct (loop_new_events now results (history, 0%nat)) as (new & Hev & Hn & Hsub & Hall).
  exists new. unfold reconcileLoop. split; [exact Hev|]. split; [exact Hn|].
  split; [|now split].
  apply sublist_length in Hsub. now rewrite !length_map in Hsub.
Qed.

(** ** History reconciler: pruning between runs *)

(** What the loop appends, counts and records depends on [lastState]
    only, not on the events already there. *)
Lemma loop_ignores_events (now : Z) (results : list DomainRecord) :
  forall (evs1 evs2 : list json) (ls : gmap string json) (n : nat),
  exists new ls' n',
    fold_left (reconcileEntry now) results (mkHistory evs1 ls, n) =
      (mkHistory (evs1 ++ new) ls', n') /\
    fold_left (reconcileEntry now) results (mkHistory evs2 ls, n) =
      (mkHistory (evs2 ++ new) ls', n').
Proof.
  induction results as [|entry rest IH]; intros evs1 evs2 ls n; cbn [fold_left].
  - exists [], ls, n. now rewrite !app_nil_r.
  - unfold reconcileEntry at 2 4. cbn [fst snd events lastState].
    unfold prevStatusOf. cbn [lastState].
    destruct (strictNe _ _); cbn [fst snd].
    + destruct (IH (evs1 ++ [mkEvent now (domain entry) (currentStatusOf entry)
                               (orNull (optProp (ls !! domain entry) "status"))])
                  (evs2 ++ [mkEvent now (domain entry) (currentStatusOf entry)
                               (orNull (optProp (ls !! domain entry) "status"))])
                  (<[domain entry := JObj [("status", JStr (currentStatusOf entry))]]> ls)
                  (S n)) as (new & ls' & n' & -> & ->).
      eexists _, ls', n'. rewrite <- !app_assoc. split; reflexivity.
    + destruct (IH evs1 evs2
                  (<[domain entry := JObj [("status", JStr (currentStatusOf entry))]]> ls)
                  n) as (new & ls' & n' & -> & ->).
      now exists new, ls', n'.
Qed.

Lemma filter_absorbs (f g : json -> bool) (l : list json) :
  (forall x, f x = true -> g x = true) ->
  List.filter f (List.filter g l) = List.filter f l.
Proof.
  intros Hfg. induction l as [|x rest IH]; [reflexivity|]. cbn [List.filter].
  destruct (g x) eqn:Hg; cbn [List.filter].
  - now rewrite IH.
  - destruct (f x) eqn:Hf; [|exact IH]. apply Hfg in Hf. congruence.
Qed.

Lemma withinWindow_earlier (rt : Runtime) (c1 c2 : Z) (e : json) :
  c1 <= c2 -> withinWindow rt c2 e = true -> withinWindow rt c1 e = true.
Proof.
  unfold withinWindow. intros Hc. destruct (eventTime rt e); [|discriminate].
  rewrite !Z.leb_le. lia.
Qed.

(** X13: a run on an empty snapshot only prunes: it appends nothing and
    leaves [lastState] alone.  Pruning composes: when the cutoff has not
    moved back in between, a later run on any snapshot returns the same
    history and the same count whether or not that pruning run was made
    before it. *)
Theorem pruning_in_between_changes_nothing (rt : Runtime) (results : list DomainRecord)
  (history : HistoryDoc) (now1 later1 now2 later2 : Z) :
  datableEvents (events history) ->
  cutoffOf rt later1 <= cutoffOf rt later2 ->
  exists h1,
    reconcile rt [] history now1 later1 = Val (h1, 0%nat) /\
    lastState h1 = lastState history /\
    events h1 = List.filter (withinWindow rt (cutoffOf rt later1)) (events history) /\
    reconcile rt results h1 now2 later2 = reconcile rt results history now2 later2.
Proof.
  intros Hd Hc.
  rewrite (reconcile_returns rt [] history now1 later1 Hd).
  unfold reconcileLoop at 1 2 3. cbn [fold_left fst snd].
  eexists. split; [reflexivity|]. cbn [lastState events].
  split; [reflexivity|]. split; [reflexivity|].
  set (kept := List.filter _ (events history)).
  assert (Hk : datableEvents kept) by now apply filter_datable.
  rewrite (reconcile_returns rt results (mkHistory kept (lastState history))
             now2 later2 Hk),
          (reconcile_returns rt results history now2 later2 Hd).
  unfold reconcileLoop.
  destruct (loop_ignores_events now2 results kept (events history)
              (lastState history) 0%nat) as (new & ls' & n' & H1 & H2).
  destruct history as [evs ls]. cbn [events lastState] in *.
  rewrite H1, H2. cbn [fst snd events lastState]. do 2 f_equal. f_equal.
  rewrite !List.filter_app. f_equal. subst kept.
  apply filter_absorbs. intros x. now apply withinWindow_earlier.
Qed.

Lemma pruning_in_between_changes_nothing_witness :
  datableEvents (events (loadHistory sampleFile)) /\
  cutoffOf utc sampleNow <= cutoffOf utc (sampleNow + 86400000) /\
  exists h1,
    reconcile utc [] (loadHistory sampleFile) sampleNow sampleNow = Val (h1, 0%nat) /\
    reconcile utc [recordOf "a.ch" true Website.absent sampleNow] h1
      (sampleNow + 86400000) (sampleNow + 86400000) =
    reconcile utc [recordOf "a.ch" true Website.absent sampleNow] (loadHistory sampleFile)
      (sampleNow + 86400000) (sampleNow + 86400000).
Proof.
  assert (Hd : datableEvents (events (loadHistory sampleFile))) by repeat constructor.
  assert (Hc : cutoffOf utc sampleNow <= cutoffOf utc (sampleNow + 86400000))
    by (vm_compute; discriminate).
  split; [exact Hd|]. split; [exact Hc|].
  destruct (pruning_in_between_changes_nothing utc
              [recordOf "a.ch" true Website.absent sampleNow]
              (loadHistory sampleFile) sampleNow sampleNow
              (sampleNow + 86400000) (sampleNow + 86400000) Hd Hc)
    as (h1 & Hrun & _ & _ & Hsame).
  exists h1. split; [exact Hrun|exact Hsame].
Defined.

(** ** History reconciler: reading the history file *)

(** X14: the history file never stops the loading.  A file that is
    missing or unreadable, a text that is no JSON, and a JSON value that
    is [null], a number, a boolean, a string or an array all give the
    empty history; an object gives its [events] when that is an array and
    its [lastState] when that is an object or an array, each replaced by
    its own empty default otherwise, whatever the other one is. *)
Theorem history_file_is_repaired (e : JsError) (v : json) (fs : list (string * json)) :
  loadHistory Missing = emptyHistory /\
  loadHistory (Unreadable e) = emptyHistory /\
  loadHistory (Content (Throw e)) = emptyHistory /\
  match v with
  | JObj _ => True
  | _ => loadHistory (Content (Val v)) = emptyHistory
  end /\
  loadHistory (Content (Val (JObj fs))) =
    mkHistory (itemsOf (lookupField "events" fs))
              (objectView (lookupField "lastState" fs)).
Proof.
  split; [reflexivity|]. split; [reflexivity|]. split; [reflexivity|]. split.
  - destruct v; first [exact I | reflexivity].
  - rewrite loadHistory_repairs.
    destruct (lookupField "events" fs) as [[]|];
      destruct (lookupField "lastState" fs) as [[]|]; reflexivity.
Qed.

(** ** Loading the domains: trimming *)

Lemma skipSpace_step (b : bool) (l : list ascii) :
  skipSpace b l =
    match spaceAhead b l with
    | O => l
    | n => skipSpace b (drop n l)
    end.
Proof.
  destruct l as [|c1 [|c2 [|c3 r3]]]; cbn [skipSpace spaceAhead]; try reflexivity.
  - destruct (asciiSpace c1); reflexivity.
  - destruct (asciiSpace c1); [reflexivity|].
    destruct (if b then space2 c2 c1 else space2 c1 c2); reflexivity.
  - destruct (asciiSpace c1); [reflexivity|].
    destruct (if b then space2 c2 c1 else space2 c1 c2); [reflexivity|].
    destruct (if b then space3 c3 c2 c1 else space3 c1 c2 c3); reflexivity.
Qed.

Lemma spaceAhead_bound (b : bool) (l : list ascii) :
  (spaceAhead b l <= length l)%nat.
Proof.
  destruct l as [|c1 [|c2 [|c3 r3]]]; cbn [spaceAhead length];
    repeat match goal with |- context [if ?x then _ else _] => destruct x end; lia.
Qed.

(** What [skipSpace] returns is a tail of its argument and has no white
    space in front. *)
Lemma skipSpace_result (b : bool) (n : nat) :
  forall l, (length l <= n)%nat ->
    spaceAhead b (skipSpace b l) = 0%nat /\
    exists skipped, l = skipped ++ skipSpace b l.
Proof.
  induction n as [|n IH]; intros l Hl.
  - destruct l; [|cbn in Hl; lia]. split; [reflexivity|now exists []].
  - rewrite skipSpace_step. destruct (spaceAhead b l) as [|k] eqn:Hk.
    + split; [exact Hk|now exists []].
    + pose proof (spaceAhead_bound b l) as Hb. rewrite Hk in Hb.
      destruct (IH (drop (S k) l)) as (H0 & skipped & Hs).
      { rewrite length_drop. lia. }
      split; [exact H0|]. exists (take (S k) l ++ skipped).
      rewrite <- app_assoc, <- Hs. now rewrite take_drop.
Qed.

(** White space in front of a sequence is in front of every longer one. *)
Lemma spaceAhead_prefix (l rest : list ascii) :
  spaceAhead false (l ++ rest) = 0%nat -> spaceAhead false l = 0%nat.
Proof.
  destruct l as [|c1 [|c2 [|c3 r3]]]; cbn [spaceAhead app]; try reflexivity.
  - destruct (asciiSpace c1); [discriminate|reflexivity].
  - destruct (asciiSpace c1); [discriminate|].
    destruct (space2 c1 c2); [discriminate|reflexivity].
  - tauto.
Qed.

Lemma trim_as_list (s : string) :
  list_ascii_of_string (trim s) =
    rev (skipSpace true (rev (skipSpace false (list_ascii_of_string s)))).
Proof.
  unfold trim, trimEnd, trimStart.
  now rewrite !list_ascii_of_string_of_list_ascii.
Qed.

Lemma trim_noSpaceAtEnds (s : string) : noSpaceAtEnds (trim s).
Proof.
  unfold noSpaceAtEnds. rewrite trim_as_list, rev_involutive.
  set (front := skipSpace false (list_ascii_of_string s)).
  destruct (skipSpace_result false _ (list_ascii_of_string s) (Nat.le_refl _))
    as (Hfront & _). fold front in Hfront.
  destruct (skipSpace_result true _ (rev front) (Nat.le_refl _)) as (Hback & skipped & Hs).
  split; [|exact Hback].
  apply (spaceAhead_prefix _ (rev skipped)).
  rewrite <- rev_app_distr, <- Hs, rev_involutive. exact Hfront.
Qed.

Lemma filtered_sublist {A : Type} (f : A -> bool) (l : list A) :
  sublist (List.filter f l) l.
Proof.
  induction l as [|x rest IH]; cbn [List.filter]; [constructor|].
  destruct (f x); now constructor.
Qed.

Lemma nonEmpty_spec (s : string) : nonEmpty s = true <-> s <> EmptyString.
Proof.
  unfold nonEmpty. rewrite negb_true_iff. split.
  - intros H ->. discriminate.
  - intros H. now apply String.eqb_neq.
Qed.

Lemma string_of_app (a b : list ascii) :
  string_of_list_ascii (a ++ b) = string_of_list_ascii a +:+ string_of_list_ascii b.
Proof.
  induction a as [|c rest IH]; [reflexivity|].
  cbn [app string_of_list_ascii]. now rewrite IH, append_cons.
Qed.

Lemma allChars_of_list (P : ascii -> bool) (l : list ascii) :
  allChars P (string_of_list_ascii l) = forallb P l.
Proof. induction l as [|c rest IH]; [reflexivity|]. cbn. now rewrite IH. Qed.

Lemma concat_cons (sep x : string) (l : list string) :
  l <> [] -> String.concat sep (x :: l) = x +:+ sep +:+ String.concat sep l.
Proof. destruct l; [contradiction|reflexivity]. Qed.

Lemma splitCommaFrom_parts (s : list ascii) :
  forall seg, splitCommaFrom seg s <> [].
Proof.
  induction s as [|c rest IH]; intros seg; cbn [splitCommaFrom]; [discriminate|].
  destruct (Ascii.eqb c ","); [discriminate|apply IH].
Qed.

(** Joining the parts with commas gives the string back. *)
Lemma splitCommaFrom_join (s : list ascii) :
  forall seg,
    String.concat "," (splitCommaFrom seg s) = string_of_list_ascii (seg ++ s).
Proof.
  induction s as [|c rest IH]; intros seg; cbn [splitCommaFrom].
  - now rewrite app_nil_r.
  - destruct (Ascii.eqb c ",") eqn:Hc.
    + apply Ascii.eqb_eq in Hc. subst c.
      rewrite concat_cons by apply splitCommaFrom_parts.
      rewrite (IH []), (string_of_app seg). reflexivity.
    + rewrite IH, <- app_assoc. reflexivity.
Qed.

Lemma splitCommaFrom_commaless (s : list ascii) :
  forall seg, forallb notComma seg = true ->
    Forall (fun part => allChars notComma part = true) (splitCommaFrom seg s).
Proof.
  induction s as [|c rest IH]; intros seg Hseg; cbn [splitCommaFrom].
  - constructor; [|constructor]. now rewrite allChars_of_list.
  - destruct (Ascii.eqb c ",") eqn:Hc.
    + constructor; [now rewrite allChars_of_list|]. now apply IH.
    + apply IH. rewrite forallb_app, Hseg. cbn. unfold notComma. now rewrite Hc.
Qed.

Lemma splitLinesFrom_lines (s : list ascii) :
  forall seg, splitLinesFrom seg s <> [].
Proof.
  induction s as [|c rest IH]; intros seg; cbn [splitLinesFrom]; [discriminate|].
  destruct (Ascii.eqb c LF); [discriminate|apply IH].
Qed.

Lemma dropCR_without_CR (seg : list ascii) : forallb notCR seg = true -> dropCR seg = seg.
Proof.
  intros H. unfold dropCR. destruct (rev seg) as [|c before] eqn:Hrev; [reflexivity|].
  destruct (Ascii.eqb c CR) eqn:Hc; [|reflexivity].
  assert (Hin : In c seg) by (apply in_rev; rewrite Hrev; now left).
  rewrite forallb_forall in H. specialize (H c Hin). unfold notCR in H.
  now rewrite Hc in H.
Qed.

Lemma dropCR_keeps (P : ascii -> bool) (seg : list ascii) :
  forallb P seg = true -> forallb P (dropCR seg) = true.
Proof.
  intros H. unfold dropCR. destruct (rev seg) as [|c before] eqn:Hrev; [exact H|].
  destruct (Ascii.eqb c CR); [|exact H].
  rewrite forallb_forall in *. intros x Hx. apply H.
  apply in_rev. rewrite Hrev. right. now apply in_rev.
Qed.

(** Joining the lines of a text without carriage returns with line feeds
    gives the text back. *)
Lemma splitLinesFrom_join (s : list ascii) :
  forall seg, forallb notCR (seg ++ s) = true ->
    String.concat (String LF EmptyString) (splitLinesFrom seg s)
      = string_of_list_ascii (seg ++ s).
Proof.
  induction s as [|c rest IH]; intros seg Hcr; cbn [splitLinesFrom].
  - now rewrite app_nil_r.
  - rewrite forallb_app in Hcr. apply andb_true_iff in Hcr as (Hseg & Hrest).
    cbn [forallb] in Hrest. apply andb_true_iff in Hrest as (Hc' & Hrest).
    destruct (Ascii.eqb c LF) eqn:Hc.
    + apply Ascii.eqb_eq in Hc. subst c.
      rewrite concat_cons by apply splitLinesFrom_lines.
      rewrite (IH [] Hrest), (dropCR_without_CR seg Hseg), (string_of_app seg).
      reflexivity.
    + rewrite IH, <- app_assoc; [reflexivity|].
      rewrite !forallb_app, Hseg, Hrest. cbn [forallb]. now rewrite Hc'.
Qed.

Lemma splitLinesFrom_no_LF (s : list ascii) :
  forall seg, forallb notLF seg = true ->
    Forall (fun line => allChars notLF line = true) (splitLinesFrom seg s).
Proof.
  induction s as [|c rest IH]; intros seg Hseg; cbn [splitLinesFrom].
  - constructor; [|constructor]. now rewrite allChars_of_list.
  - destruct (Ascii.eqb c LF) eqn:Hc.
    + constructor; [|now apply IH].
      rewrite allChars_of_list. now apply dropCR_keeps.
    + apply IH. rewrite forallb_app, Hseg. cbn. unfold notLF. now rewrite Hc.
Qed.

Lemma isDomainLine_spec (l : string) :
  isDomainLine l = true <-> l <> EmptyString /\ startsWithHash l = false.
Proof.
  unfold isDomainLine. now rewrite andb_true_iff, nonEmpty_spec, negb_true_iff.
Qed.

(** X15: when the domains file can be read, [loadDomains] of the script
    returns its lines, trimmed, in their order, without the empty ones
    and the comments, and nothing else.  The lines are what stands
    between the line feeds of the text: none holds a line feed, and in a
    text without carriage returns they give the text back when joined
    with line feeds.  A string is returned exactly when it is a trimmed
    line that is not empty and does not start with [#]; every domain
    returned has no white space at either end.  The [DOMAINS] variable is
    not looked at, even when the file yields no domain; and a file that
    exists but cannot be read makes [loadDomains] raise, whatever
    [DOMAINS] holds. *)
Theorem file_domains_are_clean (raw : string) (env : option string) (e : JsError) :
  ScriptInput.loadDomains (ScriptInput.Text raw) env =
    Val (List.filter isDomainLine (map trim (splitLines raw))) /\
  Forall (fun line => allChars notLF line = true) (splitLines raw) /\
  (allChars notCR raw = true ->
   String.concat (String LF EmptyString) (splitLines raw) = raw) /\
  (forall d, In d (List.filter isDomainLine (map trim (splitLines raw))) <->
     (exists line, In line (splitLines raw) /\ d = trim line) /\
     d <> EmptyString /\ startsWithHash d = false) /\
  sublist (List.filter isDomainLine (map trim (splitLines raw)))
    (map trim (splitLines raw)) /\
  Forall (fun d => d <> EmptyString /\ startsWithHash d = false /\ noSpaceAtEnds d)
    (List.filter isDomainLine (map trim (splitLines raw))) /\
  ScriptInput.loadDomains (ScriptInput.ReadFails e) env = Throw e.
Proof.
  split; [reflexivity|].
  split; [now apply splitLinesFrom_no_LF|].
  split.
  { intros Hcr. unfold splitLines. rewrite splitLinesFrom_join.
    - apply string_of_list_ascii_of_string.
    - cbn [app]. rewrite <- allChars_of_list. now rewrite string_of_list_ascii_of_string. }
  split.
  { intros d. rewrite filter_In, isDomainLine_spec, in_map_iff. split.
    - intros ((line & <- & Hline) & Hne & Hhash). eauto.
    - intros ((line & Hline & ->) & Hne & Hhash). eauto. }
  split; [apply filtered_sublist|].
  split; [|reflexivity].
  apply List.Forall_forall. intros d Hd. apply filter_In in Hd as (Hin & Hkeep).
  apply isDomainLine_spec in Hkeep as (Hne & Hhash).
  apply in_map_iff in Hin as (line & <- & _).
  repeat split; try assumption; apply trim_noSpaceAtEnds.
Qed.

Lemma file_domains_are_clean_witness :
  allChars notCR "a.ch" = true /\
  String.concat (String LF EmptyString) (splitLines "a.ch") = "a.ch"%string /\
  ScriptInput.loadDomains (ScriptInput.Text "a.ch") None = Val ["a.ch"%string].
Proof.
  destruct (file_domains_are_clean "a.ch" None (mkError "" "")) as (H1 & _ & H2 & _).
  split; [reflexivity|]. split; [exact (H2 eq_refl)|exact H1].
Defined.

(** A text of five lines, evaluated: a comment, a domain with white
    space around it, an empty line, a line of white space and a domain
    before the end of the text. *)
Example file_domains_sample :
  ScriptInput.loadDomains
    (ScriptInput.Text ("# list" +:+ String LF ("  a.ch " +:+ String CR (String LF
       (String LF (" " +:+ String LF "b.ch")))))) (Some "c.ch"%string)
  = Val ["a.ch"%string; "b.ch"%string].
Proof. vm_compute. reflexivity. Qed.

(** X16: without a domains file, a non-empty [DOMAINS] variable gives its
    comma-separated parts, trimmed, in their order, without the empty
    ones, and nothing else: no default is added even when no part is
    left.  The parts are what stands between the commas: none holds a
    comma, and joined with commas they give the variable back.  A string
    is returned exactly when it is a trimmed part that is not empty, and
    it has no white space at either end.  The default [pff25.ch] is
    returned only when the variable is unset or empty. *)
Theorem env_domains_are_clean (v : string) :
  v <> EmptyString ->
  ScriptInput.loadDomains ScriptInput.NoFile (Some v) =
    Val (List.filter nonEmpty (map trim (splitComma v))) /\
  Forall (fun part => allChars notComma part = true) (splitComma v) /\
  String.concat "," (splitComma v) = v /\
  (forall d, In d (List.filter nonEmpty (map trim (splitComma v))) <->
     (exists part, In part (splitComma v) /\ d = trim part) /\ d <> EmptyString) /\
  sublist (List.filter nonEmpty (map trim (splitComma v))) (map trim (splitComma v)) /\
  Forall (fun d => d <> EmptyString /\ noSpaceAtEnds d)
    (List.filter nonEmpty (map trim (splitComma v))) /\
  ScriptInput.loadDomains ScriptInput.NoFile (Some ","%string) = Val [] /\
  ScriptInput.loadDomains ScriptInput.NoFile (Some EmptyString) = Val ["pff25.ch"%string] /\
  ScriptInput.loadDomains ScriptInput.NoFile None = Val ["pff25.ch"%string].
Proof.
  intros Hv. split.
  { unfold ScriptInput.loadDomains. cbn [ScriptInput.fileExists].
    apply nonEmpty_spec in Hv. now rewrite Hv. }
  split; [now apply splitCommaFrom_commaless|].
  split.
  { unfold splitComma. rewrite splitCommaFrom_join. apply string_of_list_ascii_of_string. }
  split.
  { intros d. rewrite filter_In, nonEmpty_spec, in_map_iff. split.
    - intros ((part & <- & Hpart) & Hne). eauto.
    - intros ((part & Hpart & ->) & Hne). eauto. }
  split; [apply filtered_sublist|].
  split; [|repeat split; vm_compute; reflexivity].
  apply List.Forall_forall. intros d Hd. apply filter_In in Hd as (Hin & Hne).
  apply nonEmpty_spec in Hne.
  apply in_map_iff in Hin as (part & <- & _).
  split; [exact Hne|apply trim_noSpaceAtEnds].
Qed.

Lemma env_domains_are_clean_witness :
  " a.ch, ,#b ,"%string <> EmptyString /\
  ScriptInput.loadDomains ScriptInput.NoFile (Some " a.ch, ,#b ,"%string)
    = Val ["a.ch"%string; "#b"%string].
Proof.
  assert (H : " a.ch, ,#b ,"%string <> EmptyString) by discriminate.
  split; [exact H|].
  destruct (env_domains_are_clean " a.ch, ,#b ," H) as (Hl & _).
  rewrite Hl. vm_compute. reflexivity.
Defined.

(** ** Loading the domains: one line, one domain *)

Lemma space3_CR (c1 c2 : ascii) : space3 c1 c2 CR = false.
Proof.
  unfold space3. change (N_of_ascii CR) with 13%N. cbn [N.eqb N.leb N.compare Pos.eqb
    Pos.compare Pos.compare_cont andb orb].
  now rewrite !andb_false_r.
Qed.

Lemma space2_CR (c1 : ascii) : space2 c1 CR = false.
Proof. unfold space2. change (N_of_ascii CR) with 13%N. apply andb_false_r. Qed.

(** A carriage return behind a sequence does not change the white space
    in front of it. *)
Lemma spaceAhead_before_CR (x : list ascii) :
  x <> [] -> spaceAhead false (x ++ [CR]) = spaceAhead false x.
Proof.
  destruct x as [|c1 [|c2 [|c3 r3]]]; cbn [spaceAhead app]; try congruence; intros _.
  - destruct (asciiSpace c1); [reflexivity|]. now rewrite space2_CR.
  - destruct (asciiSpace c1); [reflexivity|].
    destruct (space2 c1 c2); [reflexivity|]. now rewrite space3_CR.
Qed.

Lemma skipSpace_before_CR (n : nat) :
  forall x, (length x <= n)%nat ->
    skipSpace false (x ++ [CR]) =
      match skipSpace false x with
      | [] => []
      | r => r ++ [CR]
      end.
Proof.
  induction n as [|n IH]; intros x Hx.
  - destruct x; [reflexivity|cbn in Hx; lia].
  - destruct x as [|c r]; [reflexivity|].
    rewrite (skipSpace_step false ((c :: r) ++ [CR])), (skipSpace_step false (c :: r)).
    rewrite spaceAhead_before_CR by discriminate.
    pose proof (spaceAhead_bound false (c :: r)) as Hb.
    destruct (spaceAhead false (c :: r)) as [|k] eqn:Hk; [reflexivity|].
    rewrite drop_app_le by exact Hb.
    apply IH. rewrite length_drop. cbn [length] in *. lia.
Qed.

Lemma trim_before_CR (x : list ascii) :
  trim (string_of_list_ascii (x ++ [CR])) = trim (string_of_list_ascii x).
Proof.
  unfold trim, trimEnd, trimStart.
  rewrite !list_ascii_of_string_of_list_ascii.
  rewrite (skipSpace_before_CR _ x (Nat.le_refl _)).
  destruct (skipSpace false x) as [|c r] eqn:Hs; [reflexivity|].
  do 2 f_equal. rewrite rev_app_distr. reflexivity.
Qed.

Lemma trim_dropCR (seg : list ascii) :
  trim (string_of_list_ascii (dropCR seg)) = trim (string_of_list_ascii seg).
Proof.
  unfold dropCR. destruct (rev seg) as [|c before] eqn:Hrev; [reflexivity|].
  destruct (Ascii.eqb_spec c CR) as [->|_]; [|reflexivity].
  apply (f_equal (@rev ascii)) in Hrev. rewrite rev_involutive in Hrev.
  cbn [rev] in Hrev. subst seg. symmetry. apply trim_before_CR.
Qed.

Lemma splitLines_join (a b : list ascii) :
  forall seg,
    map trim (splitLinesFrom seg (a ++ LF :: b)) =
    map trim (splitLinesFrom seg a) ++ map trim (splitLinesFrom [] b).
Proof.
  induction a as [|c rest IH]; intros seg; cbn [app splitLinesFrom].
  - rewrite Ascii.eqb_refl. cbn [map app]. now rewrite trim_dropCR.
  - destruct (Ascii.eqb c LF); cbn [map app]; now rewrite IH.
Qed.

Lemma splitLines_trailing_CR (a : list ascii) :
  forall seg,
    map trim (splitLinesFrom seg (a ++ [CR])) = map trim (splitLinesFrom seg a).
Proof.
  induction a as [|c rest IH]; intros seg; cbn [app splitLinesFrom].
  - change (Ascii.eqb CR LF) with false. cbn [splitLinesFrom map].
    now rewrite trim_before_CR.
  - destruct (Ascii.eqb c LF); cbn [map]; now rewrite IH.
Qed.

Lemma list_of_append (a b : string) :
  list_ascii_of_string (a +:+ b) = list_ascii_of_string a ++ list_ascii_of_string b.
Proof.
  induction a as [|c rest IH]; [reflexivity|].
  rewrite append_cons. cbn [list_ascii_of_string app]. now rewrite IH.
Qed.

(** X17: the lines of the domains file are read one by one: the domains
    of two texts joined by a line feed are the domains of the first
    followed by the domains of the second, also when the first ends with
    a carriage return (a CRLF line end). *)
Theorem domain_lines_are_independent (a b : string) (env : option string) :
  exists la lb,
    ScriptInput.loadDomains (ScriptInput.Text a) env = Val la /\
    ScriptInput.loadDomains (ScriptInput.Text b) env = Val lb /\
    ScriptInput.loadDomains (ScriptInput.Text (a +:+ String LF b)) env = Val (la ++ lb) /\
    ScriptInput.loadDomains (ScriptInput.Text (a +:+ String CR (String LF b))) env
      = Val (la ++ lb).
Proof.
  unfold ScriptInput.loadDomains. cbn [ScriptInput.fileExists ScriptInput.readFile History.bindR].
  eexists _, _. split; [reflexivity|]. split; [reflexivity|].
  unfold splitLines. split.
  - rewrite list_of_append. cbn [list_ascii_of_string].
    now rewrite splitLines_join, List.filter_app.
  - rewrite list_of_append. cbn [list_ascii_of_string].
    change (list_ascii_of_string a ++ CR :: LF :: list_ascii_of_string b)
      with (list_ascii_of_string a ++ [CR] ++ LF :: list_ascii_of_string b).
    now rewrite app_assoc, splitLines_join, splitLines_trailing_CR, List.filter_app.
Qed.

(** ** Loading the domains: the cron handler *)

(** X18: [loadDomains] of the cron handler never raises.  A non-empty
    [domains] array of the configuration is returned as it is, unchecked,
    and no file is read.  Otherwise every element returned is a non-empty
    string taken, in order, from the array parsed from the configured
    file; and the list is empty when that file cannot be read or parsed. *)
Theorem cron_domains_source (whois : option json) (readJson : json -> Res json) :
  let rc := if truthy whois then whois else Some (JObj []) in
  let configured := itemsOf (optProp rc "domains") in
  (configured <> [] ->
   forall other : json -> Res json, CronInput.loadDomains whois other = configured) /\
  (configured = [] ->
   Forall (fun d => CronInput.isNonEmptyString d = true)
     (CronInput.loadDomains whois readJson) /\
   (forall p, optProp rc "domainsFile" = Some p ->
      match readJson p with
      | Val parsed =>
          sublist (CronInput.loadDomains whois readJson) (itemsOf (Some parsed))
      | Throw _ => CronInput.loadDomains whois readJson = []
      end)).
Proof.
  cbn zeta. unfold CronInput.loadDomains.
  set (rc := if truthy whois then whois else Some (JObj [])).
  assert (Hcfg : isArray (optProp rc "domains")
                 && (0 <? Z.of_nat (length (itemsOf (optProp rc "domains"))))
                 = negb (Nat.eqb (length (itemsOf (optProp rc "domains"))) 0)).
  { destruct (optProp rc "domains") as [[]|]; try reflexivity.
    cbn [isArray itemsOf andb]. now destruct items. }
  rewrite Hcfg. clear Hcfg.
  destruct (itemsOf (optProp rc "domains")) as [|i rest]; cbn [length Nat.eqb negb].
  2: { split; [reflexivity|discriminate]. }
  split; [congruence|intros _].
  destruct (optProp rc "domainsFile") as [p|]; [|split; [constructor|discriminate]].
  destruct (CronInput.isNonEmptyString p).
  - destruct (readJson p) as [parsed|e] eqn:Hread.
    + destruct (isArray (Some parsed)).
      * split.
        -- apply List.Forall_forall. intros d Hd. now apply filter_In in Hd.
        -- intros q [= <-]. rewrite Hread. apply filtered_sublist.
      * split; [constructor|]. intros q [= <-]. rewrite Hread. apply sublist_nil_l.
    + split; [constructor|]. intros q [= <-]. now rewrite Hread.
  - split; [constructor|]. intros q [= <-].
    destruct (readJson p); [apply sublist_nil_l|reflexivity].
Qed.

Lemma cron_domains_source_witness :
  itemsOf (optProp (Some (JObj [("domainsFile", JStr "domains.json")])) "domains") = [] /\
  Forall (fun d => CronInput.isNonEmptyString d = true)
    (CronInput.loadDomains (Some (JObj [("domainsFile", JStr "domains.json")]))
       (fun _ => Val (JArr [JStr "pff26.ch"; JNum 7; JStr ""; JStr "pff27.ch"]))).
Proof.
  split; [reflexivity|].
  destruct (cron_domains_source (Some (JObj [("domainsFile", JStr "domains.json")]))
              (fun _ => Val (JArr [JStr "pff26.ch"; JNum 7; JStr ""; JStr "pff27.ch"])))
    as (_ & H).
  exact (proj1 (H eq_refl)).
Defined.

(** What the cron handler loads from a file that lists a number and an
    empty string among the domains. *)
Example cron_domains_sample :
  CronInput.loadDomains (Some (JObj [("domainsFile", JStr "domains.json")]))
    (fun _ => Val (JArr [JStr "pff26.ch"; JNum 7; JStr ""; JStr "pff27.ch"]))
  = [JStr "pff26.ch"; JStr "pff27.ch"].
Proof. reflexivity. Qed.

(** ** The website prober that asks a classifier *)

(** X19: the [checkWebsite] that asks a classifier reports a website as
    present only when the classifier answered exactly [No] and the HEAD
    request to [https://domain/] was answered with a status from 200 to
    299, 301 or 302; the result then names [https://domain].  In every
    other case it returns [{present: false}] without a URL, except that
    an exception of the classifier call is not caught: [checkWebsite]
    raises it. *)
Theorem classified_site (d : string) (calls : Classifier.Calls) :
  (forall r, Classifier.checkWebsite d calls = Val r ->
     Classifier.present r = true ->
     Classifier.reply calls (Classifier.input (Classifier.page calls)) = Val "No"%string /\
     (exists res, Classifier.httpsHead calls = Responds res /\
                  Classifier.acceptable res = true) /\
     Classifier.url r = Some ("https://" +:+ d)) /\
  (forall r, Classifier.checkWebsite d calls = Val r ->
     Classifier.present r = false -> Classifier.url r = None) /\
  (forall e, Classifier.reply calls (Classifier.input (Classifier.page calls)) = Throw e ->
     Classifier.checkWebsite d calls = Throw e) /\
  (Classifier.reply calls (Classifier.input (Classifier.page calls)) = Val "No"%string ->
   forall res, Classifier.httpsHead calls = Responds res ->
     Classifier.acceptable res = true ->
     Classifier.checkWebsite d calls =
       Val (Classifier.mkSite true (Some ("https://" +:+ d)))).
Proof.
  unfold Classifier.checkWebsite.
  destruct (Classifier.reply calls (Classifier.input (Classifier.page calls)))
    as [answer|e]; cbn [History.bindR].
  - split; [|split; [|split; [discriminate|]]].
    + intros r. destruct (String.eqb answer "Yes"); [intros [= <-]; discriminate|].
      destruct (String.eqb_spec answer "No") as [->|_]; cbn [andb];
        [|intros [= <-]; discriminate].
      destruct (Classifier.httpsHead calls) as [res|err];
        [|intros [= <-]; discriminate].
      destruct (Classifier.acceptable res) eqn:Hok; intros [= <-]; [|discriminate].
      intros _. repeat split. eauto.
    + intros r. destruct (String.eqb answer "Yes"); [now intros [= <-]|].
      destruct (String.eqb answer "No" && _); intros [= <-]; [discriminate|reflexivity].
    + intros [= ->] res -> ->. reflexivity.
  - split; [discriminate|]. split; [discriminate|]. split; [now intros e' [= <-]|discriminate].
Qed.

Lemma classified_site_witness :
  Classifier.reply
    (Classifier.mkCalls None (fun _ => Val "No"%string) (replies 301))
    (Classifier.input None) = Val "No"%string /\
  Classifier.checkWebsite "pff27.ch"
    (Classifier.mkCalls None (fun _ => Val "No"%string) (replies 301)) =
  Val (Classifier.mkSite true (Some "https://pff27.ch"%string)).
Proof.
  split; [reflexivity|].
  destruct (classified_site "pff27.ch"
              (Classifier.mkCalls None (fun _ => Val "No"%string) (replies 301)))
    as (_ & _ & _ & H).
  exact (H eq_refl (Response.mk 301) eq_refl eq_refl).
Defined.
